(** * ngiab-bench: the benchmark summary script [summary.py]

    A shallow embedding of the result-directory decoder, the hyperfine
    result loader, the environment fingerprinter and the aggregator of
    [summary.py], with the properties of its specification.

    Conventions of the embedding.
    - A Python [str] is a [string]; its characters are the code points
      below 256, so that [\d] is [0-9], and whitespace ([str.isspace],
      [\s]) is the set fixed in [PyStr.is_space].
    - Every external command is an input: the text it printed, or [None]
      when [subprocess.check_output(...).decode()] raised.
    - A [try: ... except: ...] block is a computation in [option] (or a
      fold that stops at the first exception) followed by its handler.
    - A Python [float] is an IEEE 754 binary64 number, with its signed
      zeros, its infinities and NaN ([spec_float] at precision 53); a
      Python [int] is an integer of [Z].
    - [float] with the [.0f] format and the iteration order of a [set]
      are parameters of the fingerprinter.
    - [DataFrame.sort_values] on several columns is a stable sort. *)

From Stdlib Require Import Bool Arith ZArith QArith Lia List.
From Stdlib Require Import Ascii String DecimalString.
From Stdlib Require Import Floats.SpecFloat.
From Stdlib Require Import Permutation Sorted.
Import ListNotations.

Set Warnings "-register-all".
Close Scope Q_scope.
Open Scope string_scope.
Open Scope list_scope.
Open Scope nat_scope.

(* ================================================================== *)
(** ** Python string primitives *)

Module PyStr.

Definition newline : ascii := Ascii.ascii_of_nat 10.

(** [str.isspace] on a single character; also the class [\s] of [re]. *)
Definition is_space (c : ascii) : bool :=
  let n := Ascii.nat_of_ascii c in
  ((9 <=? n) && (n <=? 13)) || ((28 <=? n) && (n <=? 32))
  || (n =? 133) || (n =? 160).

(** [str.isdigit]-like class [\d] of [re] on code points below 256. *)
Definition is_digit (c : ascii) : bool :=
  let n := Ascii.nat_of_ascii c in (48 <=? n) && (n <=? 57).

Definition is_empty (s : string) : bool :=
  match s with EmptyString => true | String _ _ => false end.

(** [sub in s] *)
Fixpoint contains (sub s : string) : bool :=
  String.prefix sub s
  || match s with
     | EmptyString => false
     | String _ s' => contains sub s'
     end.

(** [s.split(sep)] for a one-character separator: never empty. *)
Fixpoint split (sep : ascii) (s : string) : list string :=
  match s with
  | EmptyString => [EmptyString]
  | String c s' =>
      if Ascii.eqb c sep then EmptyString :: split sep s'
      else match split sep s' with
           | h :: t => String c h :: t
           | [] => [String c EmptyString]
           end
  end.

(** [s.split(sep, 1)]: the text before the first separator and, when
    there is one, the text after it. *)
Fixpoint split1 (sep : ascii) (s : string) : list string :=
  match s with
  | EmptyString => [EmptyString]
  | String c s' =>
      if Ascii.eqb c sep then [EmptyString; s']
      else match split1 sep s' with
           | h :: t => String c h :: t
           | [] => [String c EmptyString]
           end
  end.

Fixpoint lstrip (s : string) : string :=
  match s with
  | EmptyString => EmptyString
  | String c s' => if is_space c then lstrip s' else s
  end.

Fixpoint rstrip (s : string) : string :=
  match s with
  | EmptyString => EmptyString
  | String c s' =>
      let r := rstrip s' in
      if is_empty r && is_space c then EmptyString else String c r
  end.

(** [s.strip()] *)
Definition strip (s : string) : string := rstrip (lstrip s).

(** The scan behind [s.split()]: the field being read at the head of
    the text, and the complete fields after it. *)
Fixpoint fields (s : string) : string * list string :=
  match s with
  | EmptyString => (EmptyString, [])
  | String c s' =>
      let '(tok, rest) := fields s' in
      if is_space c
      then (EmptyString, if is_empty tok then rest else tok :: rest)
      else (String c tok, rest)
  end.

(** [s.split()]: the maximal runs of non-whitespace characters. *)
Definition split_ws (s : string) : list string :=
  let '(tok, rest) := fields s in
  if is_empty tok then rest else tok :: rest.

(** [sep.join(l)] *)
Definition join (sep : string) (l : list string) : string :=
  String.concat sep l.

(** [l[-1]] and [l[-2]]; [None] is [IndexError]. *)
Definition last_item {A} (l : list A) : option A := nth_error (rev l) 0.
Definition last_but_one {A} (l : list A) : option A := nth_error (rev l) 1.

(** [l[1:-2]] *)
Definition slice_1_m2 {A} (l : list A) : list A :=
  firstn (List.length l - 3) (skipn 1 l).

(** [str(n)] for a natural number. *)
Definition of_nat (n : nat) : string :=
  NilZero.string_of_uint (Nat.to_uint n).

(** The first [n] characters of [s]. *)
Fixpoint take (n : nat) (s : string) : string :=
  match n, s with
  | S n', String c s' => String c (take n' s')
  | _, _ => EmptyString
  end.

End PyStr.

(* ================================================================== *)
(** ** The fragment of [re] used by the script

    Character classes, the greedy [+], concatenation, capture groups and
    the anchors [^] and [$] (without [re.MULTILINE]); the matcher is a
    backtracking one in continuation-passing style, as [re]'s is. *)

Module Re.
Import PyStr.

Inductive regex : Type :=
| Cls (p : ascii -> bool)          (* one character of a class *)
| Plus (p : ascii -> bool)         (* [p+], greedy *)
| Seq (r1 r2 : regex)
| Group (r : regex)
| Bol                              (* [^] *)
| Eol.                             (* [$] *)

(** Classes *)
Definition lit (a : ascii) : ascii -> bool := fun c => Ascii.eqb c a.
Definition one_of (l : list ascii) : ascii -> bool :=
  fun c => existsb (Ascii.eqb c) l.
Definition dot : ascii -> bool := fun c => negb (Ascii.eqb c newline).
Definition not_space : ascii -> bool := fun c => negb (is_space c).

(** [$] holds at the end of the text and before a final newline. *)
Definition at_eol (s : string) : bool :=
  match s with
  | EmptyString => true
  | String c EmptyString => Ascii.eqb c newline
  | _ => false
  end.

(** The greedy loop of [p+]: one character of the class, then as many
    more as possible; a failure of what follows gives the last one
    back. *)
Section Many.
Context {A : Type}.
Variable p : ascii -> bool.
Variable k : string -> option A.

Fixpoint many (s : string) : option A :=
  match s with
  | String c s' =>
      if p c then
        match many s' with
        | Some x => Some x
        | None => k s'
        end
      else None
  | EmptyString => None
  end.
End Many.

Section Matcher.
Context {A : Type}.

(** The continuation gets: whether the position is still the start
    of the text, the text left, and the groups closed so far. *)
Definition cont : Type := bool -> string -> list string -> option A.

Fixpoint exec (r : regex) (bos : bool) (s : string)
         (caps : list string) (k : cont) {struct r} : option A :=
  match r with
  | Cls p =>
      match s with
      | String c s' => if p c then k false s' caps else None
      | EmptyString => None
      end
  | Plus p => many p (fun s' => k false s' caps) s
  | Seq r1 r2 =>
      exec r1 bos s caps (fun b s' caps' => exec r2 b s' caps' k)
  | Group r1 =>
      exec r1 bos s caps
        (fun b s' caps' =>
           k b s' (caps' ++ [take (String.length s - String.length s') s]))
  | Bol => if bos then k bos s caps else None
  | Eol => if at_eol s then k bos s caps else None
  end.
End Matcher.

(** A match at the current position: the text left after it, and the
    groups. *)
Definition match_here (r : regex) (bos : bool) (s : string)
  : option (string * list string) :=
  exec r bos s [] (fun _ s' caps => Some (s', caps)).

(** [re.match(r, s)]: the groups of a match at the start of [s]. *)
Definition re_match (r : regex) (s : string) : option (list string) :=
  option_map snd (match_here r true s).

(** The pieces of a left-to-right scan for non-overlapping matches:
    a character outside every match, or the text of a match.  The
    patterns of the script match at least one character, and a match of
    no character is taken as none.  [skip] counts the characters of
    the last match still to be passed. *)
Inductive piece : Type :=
| Keep (c : ascii)
| Hit (m : string).

Fixpoint scan (r : regex) (bos : bool) (skip : nat) (s : string)
  : list piece :=
  match s with
  | EmptyString => []
  | String c s' =>
      match skip with
      | S n => scan r false n s'
      | O =>
          match match_here r bos s with
          | Some (rest, _) =>
              match String.length s - String.length rest with
              | S n => Hit (take (S n) s) :: scan r false n s'
              | O => Keep c :: scan r false 0 s'
              end
          | None => Keep c :: scan r false 0 s'
          end
      end
  end.

(** [re.sub(r, repl, s)] *)
Fixpoint subst_pieces (repl : string) (l : list piece) : string :=
  match l with
  | [] => EmptyString
  | Keep c :: l' => String c (subst_pieces repl l')
  | Hit _ :: l' => (repl ++ subst_pieces repl l')%string
  end.

Definition re_sub (r : regex) (repl s : string) : string :=
  subst_pieces repl (scan r true 0 s).

(** [re.findall(r, s)] for a pattern without groups *)
Fixpoint hits (l : list piece) : list string :=
  match l with
  | [] => []
  | Keep _ :: l' => hits l'
  | Hit m :: l' => m :: hits l'
  end.

Definition re_findall (r : regex) (s : string) : list string :=
  hits (scan r true 0 s).

(** [re.split(r, s)] for a pattern without groups *)
Fixpoint split_pieces (l : list piece) : list string :=
  match l with
  | [] => [EmptyString]
  | Keep c :: l' =>
      match split_pieces l' with
      | h :: t => String c h :: t
      | [] => [String c EmptyString]
      end
  | Hit _ :: l' => EmptyString :: split_pieces l'
  end.

Definition re_split (r : regex) (s : string) : list string :=
  split_pieces (scan r true 0 s).

End Re.

(* ================================================================== *)
(** ** Result directory decoder *)

Import PyStr Re.

(** [r"(\d+[dmy])_(\d+)_(.+)"] *)
Definition result_dir_pattern : regex :=
  Seq (Group (Seq (Plus is_digit) (Cls (one_of ["d"; "m"; "y"]%char))))
 (Seq (Cls (lit "_"))
 (Seq (Group (Plus is_digit))
 (Seq (Cls (lit "_"))
      (Group (Plus dot))))).

(** [parse_result_dir]: [None] stands for the triple [(None, None, None)]. *)
Definition parse_result_dir (dirname : string)
  : option (string * string * string) :=
  match re_match result_dir_pattern dirname with
  | Some [duration; ops; gage] => Some (duration, ops, gage)
  | _ => None
  end.

(** The grammar of the specification, [^(\d+[dmy])_(\d+)_(.+)$], read
    with the same matcher. *)
Definition grammar_pattern : regex :=
  Seq Bol (Seq result_dir_pattern Eol).

Definition grammar_decode (name : string) : option (string * string * string) :=
  match re_match grammar_pattern name with
  | Some [duration; ops; gage] => Some (duration, ops, gage)
  | _ => None
  end.

(* ================================================================== *)
(** ** Result loader *)

(** A Python [float]: a binary64 number. *)
Definition float : Type := spec_float.
Definition prec : Z := 53.
Definition emax : Z := 1024.

(** What [json.load] builds: a [dict] is the list of its items (each key
    once), and [None] is JSON's [null].  A number written without
    fraction and exponent is an [int]; any other number, and [NaN],
    [Infinity] and [-Infinity], is a [float]. *)
Inductive pyval : Type :=
| PNone
| PBool (b : bool)
| PInt (n : Z)
| PFloat (x : float)
| PStr (s : string)
| PList (l : list pyval)
| PDict (items : list (string * pyval)).

(** What opening and decoding a measurement file gives. *)
Inductive json_file : Type :=
| Missing                      (* [open] raises *)
| Malformed                    (* [json.load] raises *)
| Parsed (data : pyval).

Fixpoint dict_get (k : string) (items : list (string * pyval)) : option pyval :=
  match items with
  | [] => None
  | (k', v) :: t => if String.eqb k' k then Some v else dict_get k t
  end.

(** [v[k]] for a [str] key; [None] is [KeyError] or [TypeError]. *)
Definition getitem (k : string) (v : pyval) : option pyval :=
  match v with
  | PDict items => dict_get k items
  | _ => None
  end.

(** [v[0]]; [None] is [IndexError], [KeyError] or [TypeError].  A
    decoded [dict] has only [str] keys, so [0] is never one of them. *)
Definition getitem0 (v : pyval) : option pyval :=
  match v with
  | PList (x :: _) => Some x
  | PStr (String c _) => Some (PStr (String c EmptyString))
  | _ => None
  end.

Definition bind {A B} (x : option A) (f : A -> option B) : option B :=
  match x with Some a => f a | None => None end.

(** [load_hyperfine_results], from the state of the file at [json_file]:
    the bare [except] turns every exception into [None]. *)
Definition load_hyperfine_results (f : json_file) : pyval :=
  match f with
  | Parsed data =>
      match bind (bind (getitem "results" data) getitem0) (getitem "mean") with
      | Some mean => mean
      | None => PNone
      end
  | Missing | Malformed => PNone
  end.

(* ================================================================== *)
(** ** Aggregator *)

(** Truth value of an object, as [if x] takes it: of the numbers, the
    zeros are false; NaN and the infinities are true. *)
Definition truthy (v : pyval) : bool :=
  match v with
  | PNone => false
  | PBool b => b
  | PInt n => negb (n =? 0)%Z
  | PFloat x => match x with S754_zero _ => false | _ => true end
  | PStr s => negb (is_empty s)
  | PList l => match l with [] => false | _ => true end
  | PDict l => match l with [] => false | _ => true end
  end.

(** [x + y] on floats: the exact sum rounded to the nearest float, ties
    to even; it overflows to an infinity and never raises. *)
Definition float_add : float -> float -> float := SFadd prec emax.

(** Rounding of a rational to the nearest integer, ties to even. *)
Definition round_half_even (q : Q) : Z :=
  let d := Zpos (Qden q) in
  let f := (Qnum q / d)%Z in
  let r := (Qnum q mod d)%Z in
  match (2 * r ?= d)%Z with
  | Lt => f
  | Gt => (f + 1)%Z
  | Eq => if Z.even f then f else (f + 1)%Z
  end.

(** The exact value [m * 2^e] of a finite float, without its sign. *)
Definition magnitude (m : positive) (e : Z) : Q :=
  match e with
  | Z0 => Zpos m # 1
  | Zpos p => (Zpos m * 2 ^ Zpos p) # 1
  | Zneg p => Zpos m # (2 ^ p)
  end.

(** The float nearest to [n / d], ties to even, with the sign [s]: the
    float of a decimal text, as [float(text)] and [strtod] give it. *)
Definition ratio (s : bool) (n : Z) (d : positive) : float :=
  match n with
  | Zpos p => SFdiv prec emax (S754_finite s p 0) (S754_finite false d 0)
  | _ => S754_zero s
  end.

(** The float written as the decimal [q]. *)
Definition float_of (q : Q) : float :=
  ratio (Qnum q <? 0)%Z (Z.abs (Qnum q)) (Qden q).

(** [round(x, 3)] on a float.  A zero, an infinity and NaN are returned
    as they are.  A finite float is written as the decimal with three
    places nearest to its exact value, ties to even, and the float of
    that decimal is returned.  (A float too large for its decimal to be
    in range is a whole number, and is its own decimal.) *)
Definition float_round3 (x : float) : float :=
  match x with
  | S754_finite s m e =>
      ratio s (round_half_even (magnitude m e * 1000)%Q) 1000
  | _ => x
  end.

(** [float(n)] for an [int]: the nearest float, ties to even; [None] is
    the [OverflowError] of an [int] too large for a float. *)
Definition float_of_int (n : Z) : option float :=
  match binary_normalize prec emax n 0 false with
  | S754_infinity _ => None
  | x => Some x
  end.

(** A number of Python arithmetic. *)
Inductive number : Type :=
| NInt (n : Z)
| NFloat (x : float).

(** The number a [bool], an [int] or a [float] stands for. *)
Definition as_number (v : pyval) : option number :=
  match v with
  | PBool b => Some (NInt (if b then 1%Z else 0%Z))
  | PInt n => Some (NInt n)
  | PFloat x => Some (NFloat x)
  | _ => None
  end.

Definition of_number (x : number) : pyval :=
  match x with
  | NInt n => PInt n
  | NFloat f => PFloat f
  end.

(** [round(x, 3)] on a number: an [int] is returned as it is. *)
Definition round_number (x : number) : number :=
  match x with
  | NInt n => NInt n
  | NFloat f => NFloat (float_round3 f)
  end.

(** [round(v, 3)]; [None] is the [TypeError] of a value without
    [__round__]. *)
Definition py_round3 (v : pyval) : option number :=
  option_map round_number (as_number v).

(** [x + y] on numbers: two [int]s give an [int]; with a [float], the
    [int] is converted first, and [None] is the [OverflowError] of that
    conversion. *)
Definition add_numbers (x y : number) : option number :=
  match x, y with
  | NInt a, NInt b => Some (NInt (a + b)%Z)
  | NFloat a, NFloat b => Some (NFloat (float_add a b))
  | NInt a, NFloat b =>
      option_map (fun a' => NFloat (float_add a' b)) (float_of_int a)
  | NFloat a, NInt b =>
      option_map (fun b' => NFloat (float_add a b')) (float_of_int b)
  end.

(** [a + b]; [None] is [TypeError] or [OverflowError]. *)
Definition py_add (a b : pyval) : option pyval :=
  match a, b with
  | PStr x, PStr y => Some (PStr (x ++ y)%string)
  | PList x, PList y => Some (PList (x ++ y))
  | _, _ =>
      match as_number a, as_number b with
      | Some x, Some y => option_map of_number (add_numbers x y)
      | _, _ => None
      end
  end.

(** A runtime cell of the table: a number or the marker ["N/A"]. *)
Inductive cell : Type :=
| Seconds (x : number)
| NA.

Record row : Type := mkRow {
  Duration : string;
  Operations : Z;
  Gage : string;
  MPI_Runtime : cell;
  Troute_Runtime : cell;
  Total_Runtime : cell
}.

(** [round(t, 3) if t else "N/A"] *)
Definition runtime_cell (t : pyval) : option cell :=
  if truthy t then option_map Seconds (py_round3 t) else Some NA.

(** [round(a + b, 3) if a and b else "N/A"] *)
Definition total_cell (a b : pyval) : option cell :=
  if truthy a && truthy b
  then option_map Seconds (bind (py_add a b) py_round3)
  else Some NA.

(** [int(ops)] on a text of decimal digits; [None] is [ValueError]. *)
Fixpoint int_digits (acc : Z) (s : string) : option Z :=
  match s with
  | EmptyString => Some acc
  | String c s' =>
      if is_digit c
      then int_digits (10 * acc + Z.of_nat (nat_of_ascii c - 48))%Z s'
      else None
  end.

Definition py_int (s : string) : option Z :=
  if is_empty s then None else int_digits 0%Z s.

(** One entry of [os.listdir(BENCHMARK_DIR)] with what the loop reads
    of it. *)
Record dir_entry : Type := mkEntry {
  entry_name : string;
  entry_is_dir : bool;
  mpirun_benchmark : json_file;
  troute_benchmark : json_file
}.

(** The dictionary appended to [results] for a qualifying directory;
    [None] when building it raises. *)
Definition make_row (duration ops gage : string) (e : dir_entry) : option row :=
  let mpirun_time := load_hyperfine_results (mpirun_benchmark e) in
  let troute_time := load_hyperfine_results (troute_benchmark e) in
  bind (py_int ops) (fun n =>
  bind (runtime_cell mpirun_time) (fun m =>
  bind (runtime_cell troute_time) (fun t =>
  bind (total_cell mpirun_time troute_time) (fun total =>
  Some (mkRow duration n gage m t total))))).

(** The body of the loop over the directory: [None] when it raises. *)
Fixpoint collect (entries : list dir_entry) (results : list row)
  : option (list row) :=
  match entries with
  | [] => Some results
  | e :: rest =>
      if entry_is_dir e then
        match parse_result_dir (entry_name e) with
        | Some (duration, ops, gage) =>
            if negb (is_empty duration) && negb (is_empty ops) then
              match make_row duration ops gage e with
              | Some r => collect rest (results ++ [r])
              | None => None
              end
            else collect rest results
        | None => collect rest results
        end
      else collect rest results
  end.

(** The order of [df.sort_values(["Operations", "Duration"])]:
    operation counts as integers, then duration tags as strings. *)
Definition key_leb (a b : row) : bool :=
  (Operations a <? Operations b)%Z
  || ((Operations a =? Operations b)%Z && String.leb (Duration a) (Duration b)).

(** pandas orders the rows by a stable sort on the key columns: rows
    with equal keys keep the order they had in the frame. *)
Fixpoint insert_row (x : row) (l : list row) : list row :=
  match l with
  | [] => [x]
  | y :: t => if key_leb x y then x :: y :: t else y :: insert_row x t
  end.

Definition sort_values (rows : list row) : list row :=
  fold_right insert_row [] rows.

(* ================================================================== *)
(** ** Environment fingerprinter *)

(** The dictionary [info]: keys in insertion order; assigning to a key
    that is present replaces its value in place. *)
Definition fact_table : Type := list (string * string).

Fixpoint set_fact (k v : string) (info : fact_table) : fact_table :=
  match info with
  | [] => [(k, v)]
  | (k', v') :: t =>
      if String.eqb k' k then (k, v) :: t else (k', v') :: set_fact k v t
  end.

Fixpoint get_fact (k : string) (info : fact_table) : option string :=
  match info with
  | [] => None
  | (k', v) :: t => if String.eqb k' k then Some v else get_fact k t
  end.

(** [k in info] *)
Definition has_fact (k : string) (info : fact_table) : bool :=
  match get_fact k info with Some _ => true | None => false end.

(** What the fingerprinter reads of the machine.  A command is the text
    [check_output(...).decode()] returned, or [None] when that raised;
    the values of [psutil] and [platform] are given as they are printed. *)
Record machine : Type := mkMachine {
  in_docker : bool;
  lscpu : option string;
  platform_processor : string;
  cpu_cores : string;
  cpu_threads : string;
  memory_total : string;             (* [f"{mem.total / (1024**3):.1f} GB"] *)
  dmidecode : option string;
  os_name : string;                  (* [f"{platform.system()} {platform.release()}"] *)
  df : option string;
  df_T : option string;
  nvme_list : option string;
  smartctl : string -> option string;   (* by device *)
  lshw : option string;
  lsblk : string -> option string;      (* by device *)
  docker_version : option string;
  hostname : option string
}.

(** A loop inside [try]: the body either updates the state or raises;
    the result is the state reached and whether the loop raised. *)
Fixpoint try_each {S X : Type} (body : X -> S -> option S)
         (l : list X) (st : S) : S * bool :=
  match l with
  | [] => (st, false)
  | x :: rest =>
      match body x st with
      | Some st' => try_each body rest st'
      | None => (st, true)
      end
  end.

(** [l[1]]; [None] is [IndexError]. *)
Definition item1 {A} (l : list A) : option A := nth_error l 1.

(** [line.split(":", 1)[1].strip()] and [line.split(":")[1].strip()] *)
Definition after_colon1 (line : string) : option string :=
  option_map strip (item1 (split1 ":" line)).
Definition after_colon (line : string) : option string :=
  option_map strip (item1 (split ":" line)).

Definition lines (text : string) : list string := split newline text.

(** [len(set(l)) == 1] *)
Definition one_value (l : list string) : bool :=
  match l with
  | [] => false
  | x :: t => forallb (String.eqb x) t
  end.

(** [base_device.split("/")[-1]] *)
Definition device_name (base_device : string) : string :=
  match last_item (split "/" base_device) with
  | Some n => n
  | None => EmptyString
  end.

(** [r"\d+$"], [r"p$"] and [r"n\d+$"] *)
Definition trailing_digits : regex := Seq (Plus is_digit) Eol.
Definition trailing_p : regex := Seq (Cls (lit "p")) Eol.
Definition trailing_n : regex := Seq (Cls (lit "n")) (Seq (Plus is_digit) Eol).

Definition base_device_of (device : string) : string :=
  let base_device := re_sub trailing_digits "" device in
  let base_device := re_sub trailing_p "" base_device in
  re_sub trailing_n "" base_device.

(** [r"^[^\s]+\s+[^\s]+\s+[^\s]+\s+"] *)
Definition three_columns : regex :=
  Seq Bol
 (Seq (Plus not_space) (Seq (Plus is_space)
 (Seq (Plus not_space) (Seq (Plus is_space)
 (Seq (Plus not_space) (Plus is_space)))))).

(** [r"\s{2,}"] *)
Definition wide_gap : regex := Seq (Cls is_space) (Plus is_space).

(** [r"\s+[0-9\.]+\s+[MTG]B"] *)
Definition capacity_pattern : regex :=
  Seq (Plus is_space)
 (Seq (Plus (fun c => is_digit c || lit "." c))
 (Seq (Plus is_space)
 (Seq (Cls (one_of ["M"; "T"; "G"]%char)) (Cls (lit "B"))))).

Section Fingerprinter.

(** [f"{float(s):.0f}"]; [None] when [float(s)] raises [ValueError]. *)
Variable format_float0 : string -> option string.

(** The order in which the [set] built from a list yields its
    elements. *)
Variable set_elements : list string -> list string.

Variable m : machine.

(** *** CPU *)

(** One line of [lscpu]; [None] when its branch raises. *)
Definition lscpu_line (line : string) (info : fact_table) : option fact_table :=
  if contains "Model name:" line then
    bind (after_colon1 line) (fun v => Some (set_fact "CPU Model" v info))
  else if contains "CPU MHz:" line then
    bind (after_colon line) (fun v =>
    bind (format_float0 v) (fun mhz =>
    Some (set_fact "CPU Clock" (mhz ++ " MHz")%string info)))
  else if contains "L1d cache:" line then
    bind (after_colon line) (fun v => Some (set_fact "L1d Cache" v info))
  else if contains "L1i cache:" line then
    bind (after_colon line) (fun v => Some (set_fact "L1i Cache" v info))
  else if contains "L2 cache:" line then
    bind (after_colon line) (fun v => Some (set_fact "L2 Cache" v info))
  else if contains "L3 cache:" line then
    bind (after_colon line) (fun v => Some (set_fact "L3 Cache" v info))
  else Some info.

(** [platform.processor() or "Unknown"] *)
Definition cpu_fallback : string :=
  if is_empty (platform_processor m) then "Unknown" else platform_processor m.

Definition cpu_except (info : fact_table) : fact_table :=
  set_fact "CPU Model" cpu_fallback info.

Definition cpu_stage (info : fact_table) : fact_table :=
  match lscpu m with
  | None => cpu_except info
  | Some text =>
      match try_each lscpu_line (lines text) info with
      | (info', true) => cpu_except info'
      | (info', false) => info'
      end
  end.

(** *** Memory details *)

Record dimms : Type := mkDimms {
  speeds : list string;
  types : list string;
  sizes : list string
}.

Definition dmidecode_line (line : string) (d : dimms) : option dimms :=
  if contains "Type:" line && contains "DDR" line then
    bind (after_colon line) (fun v =>
    Some (mkDimms (speeds d) (types d ++ [v]) (sizes d)))
  else if contains "Speed:" line && contains "MT/s" line then
    bind (after_colon line) (fun v =>
    Some (mkDimms (speeds d ++ [v]) (types d) (sizes d)))
  else if contains "Size:" line && (contains "GB" line || contains "MB" line) then
    if contains "Volatile" line then Some d
    else bind (after_colon line) (fun v =>
         Some (mkDimms (speeds d) (types d) (sizes d ++ [v])))
  else Some d.

Definition memory_facts (d : dimms) (info : fact_table) : fact_table :=
  match types d, speeds d with
  | t0 :: _, s0 :: _ =>
      let info :=
        set_fact "Memory Type"
          (if one_value (types d) then t0
           else join ", " (set_elements (types d))) info in
      let info :=
        set_fact "Memory Speed"
          (if one_value (speeds d) then s0
           else join ", " (set_elements (speeds d))) info in
      match sizes d with
      | z0 :: _ =>
          set_fact "Memory Config"
            (if one_value (sizes d)
             then (of_nat (List.length (sizes d)) ++ "x" ++ z0)%string
             else join ", " (sizes d)) info
      | [] => info
      end
  | _, _ => info
  end.

Definition memory_stage (info : fact_table) : fact_table :=
  if in_docker m then info
  else
    match dmidecode m with
    | None => info
    | Some text =>
        match try_each dmidecode_line (lines text) (mkDimms [] [] []) with
        | (d, false) => memory_facts d info
        | (_, true) => info
        end
    end.

(** *** Drive *)

(** The NVMe lister: the loop over the lines of [nvme list], left by
    [break] or by the [IndexError] of [re.findall(...)[-1]]. *)
Fixpoint nvme_lines (base_device : string) (l : list string)
         (info : fact_table) : fact_table :=
  match l with
  | [] => info
  | line :: rest =>
      if contains (device_name base_device) line then
        let line := re_sub three_columns "x  x  x  " line in
        let parts := re_split wide_gap (strip line) in
        if 4 <=? List.length parts then
          match nth_error parts 3 with
          | Some model =>
              let info := set_fact "Drive Model" model info in
              let info := set_fact "Drive Type" "NVMe SSD" info in
              let info := set_fact "Drive Interface" "NVMe" info in
              match last_item (re_findall capacity_pattern line) with
              | Some cap => set_fact "Drive Capacity" (strip cap) info
              | None => info
              end
          | None => info
          end
        else nvme_lines base_device rest info
      else nvme_lines base_device rest info
  end.

Definition nvme_probe (base_device : string) (info : fact_table) : fact_table :=
  if contains "nvme" base_device then
    match nvme_list m with
    | Some text => nvme_lines base_device (lines (strip text)) info
    | None => info
    end
  else info.

(** Method 1: [smartctl] *)
Definition smart_line (line : string) (info : fact_table) : option fact_table :=
  if contains "Device Model:" line || contains "Model Number:" line then
    bind (after_colon1 line) (fun v => Some (set_fact "Drive Model" v info))
  else if contains "Rotation Rate:" line then
    if contains "Solid State" line then Some (set_fact "Drive Type" "SSD" info)
    else bind (after_colon line) (fun v =>
         Some (set_fact "Drive Type" ("HDD (" ++ v ++ ")")%string info))
  else Some info.

Definition smart_probe (base_device : string) (info : fact_table) : fact_table :=
  match smartctl m base_device with
  | Some text => fst (try_each smart_line (lines text) info)
  | None => info
  end.

(** Method 2: [lshw] *)
Definition lshw_line (line : string) (info : fact_table) : option fact_table :=
  if contains "product:" line then
    bind (after_colon1 line) (fun v => Some (set_fact "Drive Model" v info))
  else if contains "vendor:" line && has_fact "Drive Model" info then
    bind (after_colon1 line) (fun v => Some (set_fact "Drive Vendor" v info))
  else if contains "size:" line && has_fact "Drive Model" info then
    bind (after_colon1 line) (fun v => Some (set_fact "Drive Size" v info))
  else Some info.

Fixpoint lshw_lines (base_device : string) (l : list string)
         (finish_up : bool) (info : fact_table) : fact_table :=
  match l with
  | [] => info
  | line :: rest =>
      match lshw_line line info with
      | None => info
      | Some info =>
          if finish_up && contains "*-" line && negb (contains "namespace" line)
          then info
          else if contains "logical name:" line
                  && contains (device_name base_device) line
          then lshw_lines base_device rest true info
          else lshw_lines base_device rest finish_up info
      end
  end.

Definition lshw_probe (base_device : string) (info : fact_table) : fact_table :=
  match lshw m with
  | Some text => lshw_lines base_device (lines text) false info
  | None => info
  end.

(** The block under [if "Drive Model" not in info and not in_docker] *)
Definition host_fallbacks (base_device : string) (info : fact_table) : fact_table :=
  if negb (has_fact "Drive Model" info) && negb (in_docker m)
  then lshw_probe base_device (smart_probe base_device info)
  else info.

(** Method 3: [lsblk] *)
Definition lsblk_facts (parts : list string) (info : fact_table) : fact_table :=
  match item1 parts with
  | Some p1 =>
      if (2 <=? List.length parts) && negb (String.eqb p1 "") then
        let info :=
          set_fact "Drive Model"
            (if 3 <? List.length parts then join " " (slice_1_m2 parts) else p1)
            info in
        let info :=
          if 3 <=? List.length parts then
            match last_but_one parts with
            | Some rota =>
                set_fact "Drive Type"
                  (if String.eqb rota "1" then "HDD" else "SSD") info
            | None => info
            end
          else info in
        if 4 <=? List.length parts then
          match last_item parts with
          | Some size => set_fact "Drive Capacity" size info
          | None => info
          end
        else info
      else info
  | None => info
  end.

Definition lsblk_probe (base_device : string) (info : fact_table) : fact_table :=
  if has_fact "Drive Model" info then info
  else
    match lsblk m base_device with
    | Some text => lsblk_facts (split_ws (strip text)) info
    | None => info
    end.

(** The probes under [if "/dev/" in device], in their order. *)
Definition drive_probes (base_device : string) (info : fact_table) : fact_table :=
  lsblk_probe base_device
    (host_fallbacks base_device (nvme_probe base_device info)).

(** [df] and [df -T]: the device and the file system type of the
    benchmark directory; [None] when a command or an index raises. *)
Definition mount_lookup : option (string * string) :=
  bind (df m) (fun df_output =>
  bind (item1 (lines df_output)) (fun row =>
  bind (nth_error (split_ws row) 0) (fun device =>
  bind (df_T m) (fun fs_output =>
  bind (item1 (lines fs_output)) (fun row' =>
  bind (item1 (split_ws row')) (fun fstype =>
  Some (device, fstype))))))).

Definition drive_stage (info : fact_table) : fact_table :=
  match mount_lookup with
  | None => set_fact "Drive" "Unknown" info
  | Some (device, fstype) =>
      let info := set_fact "Filesystem" fstype info in
      if contains "/dev/" device
      then drive_probes (base_device_of device) info
      else info
  end.

(** *** Docker *)

Definition docker_stage (info : fact_table) : fact_table :=
  match docker_version m with
  | Some v =>
      let info := set_fact "Docker" (strip v) info in
      if in_docker m then
        let info := set_fact "Environment" "Inside Docker Container" info in
        match hostname m with
        | Some h => set_fact "Container Hostname" (strip h) info
        | None => info
        end
      else set_fact "Environment" "Host System" info
  | None =>
      let info := set_fact "Docker" "Not detected" info in
      set_fact "Environment"
        (if in_docker m then "Docker Container" else "Host System") info
  end.

(** *** [get_system_info] *)

(** The table when the drive block starts. *)
Definition before_drive : fact_table :=
  let info := cpu_stage [] in
  let info := set_fact "CPU Cores" (cpu_cores m) info in
  let info := set_fact "CPU Threads" (cpu_threads m) info in
  let info := set_fact "Memory Total" (memory_total m) info in
  let info := memory_stage info in
  set_fact "OS" (os_name m) info.

Definition get_system_info : fact_table :=
  docker_stage (drive_stage before_drive).

End Fingerprinter.

(* ================================================================== *)
(** ** [main] *)

(** What a run leaves behind, in order: lines on the terminal, the two
    parts of the text report, and the file [benchmark_summary.csv]. *)
Inductive output : Type :=
| Message (text : string)
| SystemInformation (sys_info : fact_table)
| ResultsTable (df : list row)
| CsvFile (sys_info : fact_table) (df : list row).

(** What [main] finds at [BENCHMARK_DIR]: nothing
    ([os.path.exists] is false), something that [os.listdir] raises on
    (a file, a directory that may not be read), or the entries of the
    directory. *)
Inductive root : Type :=
| NoRoot
| Unlistable
| Listed (entries : list dir_entry).

(** A run returns, or an exception leaves [main]; either way with what
    it printed and wrote before. *)
Inductive outcome : Type :=
| Returned (out : list output)
| Raised (out : list output).

Section Main.
Variable format_float0 : string -> option string.
Variable set_elements : list string -> list string.
Variable m : machine.
Variable benchmark_dir : string.

(** Whether [benchmark_summary.csv] can be opened for writing and
    written; when it cannot, [open] raises. *)
Variable csv_writable : bool.

Definition main (r : root) : outcome :=
  match r with
  | NoRoot =>
      Returned [Message ("Error: Benchmark directory '" ++ benchmark_dir
                         ++ "' does not exist")%string]
  | Unlistable => Raised []
  | Listed entries =>
      match collect entries [] with
      | None => Raised []
      | Some [] => Returned [Message "No benchmark results found"]
      | Some results =>
          let df := sort_values results in
          let sys_info := get_system_info format_float0 set_elements m in
          if csv_writable then
            Returned [SystemInformation sys_info;
                      ResultsTable df;
                      CsvFile sys_info df;
                      Message ("CSV saved to: " ++ benchmark_dir
                               ++ "/benchmark_summary.csv")%string]
          else Raised [SystemInformation sys_info; ResultsTable df]
      end
  end.
End Main.

(* ================================================================== *)
(** * Vocabulary of the properties *)

(** ** The sort order *)

Definition sort_key (r : row) : Z * string := (Operations r, Duration r).

Definition key_le (a b : row) : Prop := key_leb a b = true.

(** ** Runs of a class, and the decoder as a scan *)

(** The longest prefix of [s] in the class [p], and the rest. *)
Fixpoint span (p : ascii -> bool) (s : string) : string * string :=
  match s with
  | EmptyString => (EmptyString, EmptyString)
  | String c s' =>
      if p c then let '(run, rest) := span p s' in (String c run, rest)
      else (EmptyString, s)
  end.

Definition is_unit : ascii -> bool := one_of ["d"; "m"; "y"]%char.
Definition is_underscore : ascii -> bool := lit "_".

(** The directory name read from left to right: the digits and the unit
    of the duration, an underscore, the digits of the operation count,
    an underscore, and the gage up to the end of the line; with the
    text left after the gage. *)
Definition scan_name (name : string) : option (string * list string) :=
  let '(ds, r1) := span is_digit name in
  if is_empty ds then None else
  match r1 with
  | String u (String c r2) =>
      if is_unit u && is_underscore c then
        let '(ops, r3) := span is_digit r2 in
        if is_empty ops then None else
        match r3 with
        | String c' r4 =>
            if is_underscore c' then
              let '(gage, rest) := span dot r4 in
              if is_empty gage then None
              else Some (rest, [(ds ++ String u "")%string; ops; gage])
            else None
        | EmptyString => None
        end
      else None
  | _ => None
  end.

Definition triple_of (caps : list string) : option (string * string * string) :=
  match caps with
  | [duration; ops; gage] => Some (duration, ops, gage)
  | _ => None
  end.

Fixpoint all_in (p : ascii -> bool) (s : string) : bool :=
  match s with
  | EmptyString => true
  | String c s' => p c && all_in p s'
  end.

(** [s] is empty or starts outside the class. *)
Definition stops (p : ascii -> bool) (s : string) : bool :=
  match s with
  | EmptyString => true
  | String c _ => negb (p c)
  end.

(** The text of [name] before its first newline. *)
Definition first_line (name : string) : string := fst (span dot name).

(** One or more digits, then one of [d], [m], [y]. *)
Definition duration_tag (d : string) : Prop :=
  exists ds u,
    d = (ds ++ String u "")%string /\ ds <> "" /\
    all_in is_digit ds = true /\ is_unit u = true.

(** One or more digits. *)
Definition digits (o : string) : Prop :=
  o <> "" /\ all_in is_digit o = true.

(** ** Records and their directories *)

(** A directory gives a record when it is a directory and its name
    decodes. *)
Definition qualifies (e : dir_entry) : bool :=
  entry_is_dir e
  && match parse_result_dir (entry_name e) with Some _ => true | None => false end.

(** A loaded value the record can hold: one that is taken as false (and
    shown as the marker), or a number. *)
Definition roundable (v : pyval) : bool :=
  negb (truthy v)
  || match as_number v with Some _ => true | None => false end.

(** An [int] too large for a float beside a [float]: their sum
    raises. *)
Definition overflows (a b : pyval) : bool :=
  match as_number a, as_number b with
  | Some (NInt n), Some (NFloat _) | Some (NFloat _), Some (NInt n) =>
      match float_of_int n with None => true | Some _ => false end
  | _, _ => false
  end.

(** The two loaded values of a directory give a record: each can be
    held, and when both are taken as true their sum does not raise. *)
Definition measurable (e : dir_entry) : bool :=
  let mpirun_time := load_hyperfine_results (mpirun_benchmark e) in
  let troute_time := load_hyperfine_results (troute_benchmark e) in
  roundable mpirun_time && roundable troute_time
  && negb (truthy mpirun_time && truthy troute_time
           && overflows mpirun_time troute_time).



(** The cell of the float written as the decimal [q]. *)
Definition seconds (q : Q) : cell := Seconds (NFloat (float_of q)).

(** The three runtime cells of a record. *)
Definition runtimes (r : row) : cell * cell * cell :=
  (MPI_Runtime r, Troute_Runtime r, Total_Runtime r).

(** What one entry adds to [results]: nothing, one record, or an
    exception ([None]). *)
Definition entry_rows (e : dir_entry) : option (list row) :=
  if entry_is_dir e then
    match parse_result_dir (entry_name e) with
    | Some (duration, ops, gage) =>
        if negb (is_empty duration) && negb (is_empty ops)
        then option_map (fun r => [r]) (make_row duration ops gage e)
        else Some []
    | None => Some []
    end
  else Some [].

Fixpoint collect_rows (entries : list dir_entry) : option (list row) :=
  match entries with
  | [] => Some []
  | e :: rest =>
      match entry_rows e, collect_rows rest with
      | Some a, Some b => Some (a ++ b)
      | _, _ => None
      end
  end.

(** The table of a run that printed one. *)
Definition results_table (o : outcome) : option (list row) :=
  match o with
  | Returned out | Raised out =>
      List.find (fun _ => true)
        (flat_map (fun x => match x with ResultsTable df => [df] | _ => [] end) out)
  end.

(** ** Keys of the fact table *)

(** [k] is none of the keys [keys]. *)
Definition outside (k : string) (keys : list string) : bool :=
  negb (existsb (String.eqb k) keys).

(** The stage [F] leaves the key [k] as it was. *)
Definition keeps (k : string) (F : fact_table -> fact_table) : Prop :=
  forall info, get_fact k (F info) = get_fact k info.

Definition cpu_keys : list string :=
  ["CPU Model"; "CPU Clock"; "L1d Cache"; "L1i Cache"; "L2 Cache"; "L3 Cache"].
Definition memory_keys : list string :=
  ["Memory Type"; "Memory Speed"; "Memory Config"].
Definition drive_keys : list string :=
  ["Filesystem"; "Drive Model"; "Drive Type"; "Drive Interface";
   "Drive Capacity"; "Drive Vendor"; "Drive Size"].
Definition docker_keys : list string :=
  ["Docker"; "Environment"; "Container Hostname"].

Fixpoint has_char (c : ascii) (s : string) : bool :=
  match s with
  | EmptyString => false
  | String a s' => Ascii.eqb a c || has_char c s'
  end.

(** ** Inputs of the examples *)

Definition nl : string := String newline EmptyString.

(** A directory name with a newline after the gage. *)
Definition two_line_name : string := ("1d_2_a" ++ nl ++ "b")%string.

(** The decoded file [{"results": [{"mean": mean}]}]. *)
Definition hyperfine_file (mean : pyval) : json_file :=
  Parsed (PDict [("results", PList [PDict [("mean", mean)]])]).

(** The entry of a directory with the two measurement files. *)
Definition run_dir (name : string) (mpirun troute : json_file) : dir_entry :=
  mkEntry name true mpirun troute.

(** A directory whose two measurements are 12.3 and 0.0004, and its
    record. *)
Definition sample_run : dir_entry :=
  run_dir "30d_1000_gageA" (hyperfine_file (PFloat (float_of 12.3)))
    (hyperfine_file (PFloat (float_of 0.0004))).

Definition sample_row : row :=
  mkRow "30d" 1000 "gageA" (seconds 12.3) (seconds 0.0) (seconds 12.3).

(** [float] and the [.0f] format on the texts of the examples: a run of
    digits (without a leading zero) is printed as it is written, and a
    text with a letter raises.  It is used on no other text. *)
Definition sample_float0 (s : string) : option string :=
  if negb (is_empty s) && all_in is_digit s then Some s else None.

(** A set that yields its elements in the order of first insertion. *)
Definition sample_set (l : list string) : list string := nodup string_dec l.

Definition text_of (l : list string) : string := join nl l.

(** A host with a SATA disk on [/dev/sda1], where [smartctl] and [lshw]
    both know a model. *)
Definition sample_host : machine := {|
  in_docker := false;
  lscpu := Some (text_of ["Architecture:  x86_64";
                          "Model name:    Xeon E5";
                          "L1d cache:     32 KiB";
                          "CPU MHz:       abc";
                          "L2 cache:      1 MiB"]);
  platform_processor := "x86_64";
  cpu_cores := "4";
  cpu_threads := "8";
  memory_total := "15.5 GB";
  dmidecode := None;
  os_name := "Linux 6.1";
  df := Some (text_of ["Filesystem 1K-blocks Used Available Use% Mounted on";
                       "/dev/sda1 100 50 50 50% /"]);
  df_T := Some (text_of ["Filesystem Type 1K-blocks Used Available Use% Mounted on";
                         "/dev/sda1 ext4 100 50 50 50% /"]);
  nvme_list := None;
  smartctl := fun _ => Some (text_of ["Device Model:     WDC WD10";
                                      "Rotation Rate:    7200 rpm"]);
  lshw := Some (text_of ["  *-disk";
                         "       product: ST1000DM";
                         "       vendor: Seagate"]);
  lsblk := fun _ => Some "sda ST1000DM 1 931.5G";
  docker_version := None;
  hostname := None
|}.

Definition sample_main : root -> outcome :=
  main sample_float0 sample_set sample_host "/ngen/bench/results" true.

(** Two directories that differ only in the gage. *)
Definition gage_a : dir_entry := run_dir "10d_500_a" Missing Missing.
Definition gage_b : dir_entry := run_dir "10d_500_b" Missing Missing.

Definition days_10 : dir_entry :=
  run_dir "10d_500_a" (hyperfine_file (PFloat (float_of 1.5))) Missing.
Definition days_30 : dir_entry :=
  run_dir "30d_500_a" Missing (hyperfine_file (PFloat (float_of 2.5))).


Definition sample_info : fact_table :=
  get_system_info sample_float0 sample_set sample_host.

(** The table of the host of the examples when its drive probes
    start. *)
Definition sample_start : fact_table :=
  set_fact "Filesystem" "ext4"
    (before_drive sample_float0 sample_set sample_host).

(** A host with an NVMe disk, on which every other probe knows another
    model. *)
Definition nvme_host : machine := {|
  in_docker := false;
  lscpu := None;
  platform_processor := "x86_64";
  cpu_cores := "4";
  cpu_threads := "8";
  memory_total := "15.5 GB";
  dmidecode := None;
  os_name := "Linux 6.1";
  df := Some (text_of ["Filesystem 1K-blocks Used Available Use% Mounted on";
                       "/dev/nvme0n1p2 100 50 50 50% /"]);
  df_T := Some (text_of ["Filesystem Type 1K-blocks Used Available Use% Mounted on";
                         "/dev/nvme0n1p2 ext4 100 50 50 50% /"]);
  nvme_list := Some (text_of
    ["Node          Generic     SN           Model             Namespace  Usage";
     "------------- ----------- ------------ ----------------- ---------- -------------------";
     "/dev/nvme0n1  /dev/ng0n1  S4EWNX0M123  Samsung SSD 970   0x1        250.06  GB / 500.11  GB"]);
  smartctl := fun _ => Some "Model Number:     from smartctl";
  lshw := Some "       product: from lshw";
  lsblk := fun _ => Some "nvme0n1 from-lsblk 0 465.8G";
  docker_version := None;
  hostname := None
|}.

(** A host on which [df] answers and no other command does. *)
Definition silent_host : machine := {|
  in_docker := false;
  lscpu := None;
  platform_processor := "";
  cpu_cores := "4";
  cpu_threads := "8";
  memory_total := "15.5 GB";
  dmidecode := None;
  os_name := "Linux 6.1";
  df := Some (text_of ["Filesystem 1K-blocks Used Available Use% Mounted on";
                       "/dev/sda1 100 50 50 50% /"]);
  df_T := Some (text_of ["Filesystem Type 1K-blocks Used Available Use% Mounted on";
                         "/dev/sda1 ext4 100 50 50 50% /"]);
  nvme_list := None;
  smartctl := fun _ => None;
  lshw := None;
  lsblk := fun _ => None;
  docker_version := None;
  hostname := None
|}.

Definition silent_info : fact_table :=
  get_system_info sample_float0 sample_set silent_host.

(** ** Runs of assignments *)

(** The keys of the dictionary, in insertion order. *)
Definition keys (info : fact_table) : list string := map fst info.

(** A run of assignments [info[k] = v], in order. *)
Fixpoint assign_all (kvs : list (string * string)) (info : fact_table)
  : fact_table :=
  match kvs with
  | [] => info
  | (k, v) :: rest => assign_all rest (set_fact k v info)
  end.

(** [after] is [before] after a run of assignments to keys of [K]. *)
Definition reaches (K : list string) (before after : fact_table) : Prop :=
  exists kvs,
    after = assign_all kvs before /\ Forall (fun kv => In (fst kv) K) kvs.

(** The keys the drive probes assign. *)
Definition probe_keys : list string :=
  ["Drive Model"; "Drive Type"; "Drive Interface"; "Drive Capacity";
   "Drive Vendor"; "Drive Size"].

(** The keys of the psutil and platform values. *)
Definition api_keys : list string :=
  ["CPU Cores"; "CPU Threads"; "Memory Total"; "OS"].

(** Every key the fingerprinter can assign. *)
Definition all_keys : list string :=
  cpu_keys ++ api_keys ++ memory_keys ++ ("Drive" :: drive_keys) ++ docker_keys.

(** ** Machines of the further examples *)

(** A container on an overlay file system, without the [docker]
    command. *)
Definition container : machine := {|
  in_docker := true;
  lscpu := Some (text_of ["Architecture:  x86_64";
                          "Model name:    Xeon E5";
                          "Model name:    Xeon E5 v2";
                          "CPU MHz:       2400"]);
  platform_processor := "x86_64";
  cpu_cores := "4";
  cpu_threads := "8";
  memory_total := "15.5 GB";
  dmidecode := Some (text_of ["Type: DDR4"; "Speed: 3200 MT/s"; "Size: 8 GB"]);
  os_name := "Linux 6.1";
  df := Some (text_of ["Filesystem 1K-blocks Used Available Use% Mounted on";
                       "overlay 100 50 50 50% /"]);
  df_T := Some (text_of ["Filesystem Type 1K-blocks Used Available Use% Mounted on";
                         "overlay overlay 100 50 50 50% /"]);
  nvme_list := None;
  smartctl := fun _ => Some "Device Model:     never asked";
  lshw := Some "       product: never asked";
  lsblk := fun _ => Some "sda never-asked 0 465.8G";
  docker_version := None;
  hostname := Some "bench-1"
|}.

Definition container_info : fact_table :=
  get_system_info sample_float0 sample_set container.

(** ** Drive details *)

(** The drive facts that describe a model. *)
Definition detail_keys : list string :=
  ["Drive Interface"; "Drive Capacity"; "Drive Vendor"; "Drive Size"].

(** The table has a drive model, or none of the details. *)
Definition model_first (info : fact_table) : Prop :=
  has_fact "Drive Model" info = true
  \/ forall k, In k detail_keys -> get_fact k info = None.

(** ** The lines of [lscpu] *)

(** The value of a [Model name:] line, and of no other line. *)
Definition model_name_of (line : string) : list string :=
  if contains "Model name:" line
  then match after_colon1 line with Some v => [v] | None => [] end
  else [].

(** The values of the [Model name:] lines, in order. *)
Definition model_names (l : list string) : list string :=
  flat_map model_name_of l.

(** ** Directory names and records *)

(** The name of the result directory of a run. *)
Definition dir_name (duration ops gage : string) : string :=
  (duration ++ "_" ++ ops ++ "_" ++ gage)%string.

(** What a record says of its directory. *)
Definition row_id (r : row) : string * Z * string :=
  (Duration r, Operations r, Gage r).

(** What the name of an entry says, when the entry is a directory and
    its name decodes. *)
Definition decoded (e : dir_entry) : list (string * Z * string) :=
  if entry_is_dir e then
    match parse_result_dir (entry_name e) with
    | Some (duration, ops, gage) =>
        match py_int ops with
        | Some n => [(duration, n, gage)]
        | None => []
        end
    | None => []
    end
  else [].

(** A listing with a file, a directory of another kind and two result
    directories. *)
Definition mixed_listing : list dir_entry :=
  [mkEntry "1d_1_file" false Missing Missing;
   run_dir "logs" Missing Missing;
   run_dir "5d_1000_gage_B" (hyperfine_file (PFloat (float_of 1.5))) Malformed;
   run_dir "10d_0500_a" Missing Missing].

(** ** The device name without its partition *)

(** The text of [s] before the first position from which the rest of
    [s] passes [test]; all of [s] when there is none. *)
Fixpoint cut_at (test : string -> bool) (s : string) : string :=
  match s with
  | EmptyString => EmptyString
  | String c s' => if test s then EmptyString else String c (cut_at test s')
  end.

(** One or more digits and nothing else; ["p"]; an ["n"] and then one
    or more digits and nothing else. *)
Definition digits_only (u : string) : bool :=
  negb (is_empty u) && all_in is_digit u.
Definition p_only (u : string) : bool := String.eqb u "p".
Definition n_digits_only (u : string) : bool :=
  match u with
  | String c u' => lit "n" c && digits_only u'
  | EmptyString => false
  end.

(** A disk and its first partition, and a mount point on an NVMe
    namespace. *)
Definition sda1 : string := "/dev/sda1".
Definition nvme0n1p2 : string := "/dev/nvme0n1p2".

(** ** The commands run through sudo *)

(** The machine [m] with other answers of [sudo dmidecode], [sudo
    smartctl] and [sudo lshw]. *)
Definition with_sudo (m : machine) (d : option string)
           (s : string -> option string) (l : option string) : machine := {|
  in_docker := in_docker m;
  lscpu := lscpu m;
  platform_processor := platform_processor m;
  cpu_cores := cpu_cores m;
  cpu_threads := cpu_threads m;
  memory_total := memory_total m;
  dmidecode := d;
  os_name := os_name m;
  df := df m;
  df_T := df_T m;
  nvme_list := nvme_list m;
  smartctl := s;
  lshw := l;
  lsblk := lsblk m;
  docker_version := docker_version m;
  hostname := hostname m
|}.

(** The keys the probes that need no sudo assign. *)
Definition plain_probe_keys : list string :=
  ["Drive Model"; "Drive Type"; "Drive Interface"; "Drive Capacity"].

(** ** The values of the drive type *)

(** The texts the probes give as a drive type. *)
Definition drive_type_value (v : string) : Prop :=
  v = "NVMe SSD" \/ v = "SSD" \/ v = "HDD"
  \/ exists rate, v = ("HDD (" ++ rate ++ ")")%string.

(** A drive type of the table is one of these texts, and a drive
    interface is "NVMe". *)
Definition typed (info : fact_table) : Prop :=
  (forall v, get_fact "Drive Type" info = Some v -> drive_type_value v)
  /\ (forall v, get_fact "Drive Interface" info = Some v -> v = "NVMe").

(** ** The comment block of the CSV file *)

(** What [main] writes to [benchmark_summary.csv] before the table:
    [f.write("# System Information\n")], one [f.write(f"# {key}:
    {value}\n")] for each fact, and [f.write("#\n")]. *)
Fixpoint write_facts (sys_info : fact_table) : string :=
  match sys_info with
  | [] => EmptyString
  | (key, value) :: rest =>
      ("# " ++ key ++ ": " ++ value ++ nl ++ write_facts rest)%string
  end.

Definition csv_metadata (sys_info : fact_table) : string :=
  ("# System Information" ++ nl ++ write_facts sys_info ++ "#" ++ nl)%string.

(** The comment line of a fact. *)
Definition fact_line (kv : string * string) : string :=
  ("# " ++ fst kv ++ ": " ++ snd kv)%string.

(** A text without a newline. *)
Definition one_line (s : string) : Prop := all_in dot s = true.

(** Every value of the table is one line. *)
Definition lined (info : fact_table) : Prop :=
  forall k v, get_fact k info = Some v -> one_line v.

(** A machine whose values from [platform] and [psutil] are one line
    each, and where [docker --version] and [hostname] print one line. *)
Definition plain_machine (m : machine) : Prop :=
  one_line (platform_processor m) /\ one_line (cpu_cores m)
  /\ one_line (cpu_threads m) /\ one_line (memory_total m)
  /\ one_line (os_name m)
  /\ (forall v, docker_version m = Some v -> one_line (strip v))
  /\ (forall v, hostname m = Some v -> one_line (strip v)).

(** The parts of a scan of a text of one line. *)
Definition piece_ok (p : piece) : Prop :=
  match p with
  | Keep c => dot c = true
  | Hit m => one_line m
  end.

(** The collected memory modules, each value one line. *)
Definition dimms_ok (d : dimms) : Prop :=
  Forall one_line (speeds d) /\ Forall one_line (types d)
  /\ Forall one_line (sizes d).

(** ** The columns of [nvme list] *)

(** A column without a blank, and a run of blanks. *)
Definition word (t : string) : bool :=
  negb (is_empty t) && all_in not_space t.
Definition blanks (g : string) : bool :=
  negb (is_empty g) && all_in is_space g.

(** Every blank of [s] is followed by a character of [s] that is not a
    blank: no two blanks in a row, and none at the end. *)
Fixpoint narrow (s : string) : bool :=
  match s with
  | EmptyString => true
  | String c s' =>
      (if is_space c then negb (is_empty s') && stops is_space s' else true)
      && narrow s'
  end.

(** [model] is the fourth column of [line]: three columns without
    blanks come before it, it starts without a blank and a gap of two
    or more blanks, with more text after it, ends it. *)
Definition fourth_column (line model : string) : Prop :=
  exists t1 g1 t2 g2 t3 g3 gap c rest,
    line = (t1 ++ g1 ++ t2 ++ g2 ++ t3 ++ g3
            ++ model ++ gap ++ String c rest)%string
    /\ word t1 = true /\ blanks g1 = true
    /\ word t2 = true /\ blanks g2 = true
    /\ word t3 = true /\ blanks g3 = true
    /\ is_empty model = false /\ stops is_space model = true
    /\ narrow model = true
    /\ all_in is_space gap = true /\ 2 <= String.length gap
    /\ is_space c = false.

(** The row of the namespace in the output of [nvme list]. *)
Definition nvme_row : string :=
  "/dev/nvme0n1  /dev/ng0n1  S4EWNX0M123  Samsung SSD 970   0x1        250.06  GB / 500.11  GB".

(** The file that a run leaves in the root, as the next run lists
    it. *)
Definition summary_file : dir_entry :=
  mkEntry "benchmark_summary.csv" false Missing Missing.

(** ** Measurements that are no number *)

(** The float NaN, as [json.load] reads the text [NaN]. *)
Definition nan : pyval := PFloat S754_nan.

(** A directory whose first mean is NaN. *)
Definition nan_dir : dir_entry :=
  run_dir "1d_2_g" (hyperfine_file nan) (hyperfine_file (PFloat (float_of 1.5))).

Definition nan_row : row :=
  mkRow "1d" 2 "g" (Seconds (NFloat S754_nan)) (seconds 1.5)
    (Seconds (NFloat S754_nan)).

(* ================================================================== *)
(** * Properties *)

(** ** The sort order *)

Lemma ascii_compare_trans (a b c : ascii) :
  Ascii.compare a b <> Gt -> Ascii.compare b c <> Gt -> Ascii.compare a c <> Gt.
Proof.
  unfold Ascii.compare. rewrite !N.compare_le_iff. intros H1 H2.
  eapply N.le_trans; eassumption.
Qed.

Lemma ascii_compare_Lt_Eq_trans (a b c : ascii) :
  Ascii.compare a b = Lt -> Ascii.compare b c <> Gt -> Ascii.compare a c = Lt.
Proof.
  unfold Ascii.compare. rewrite N.compare_le_iff, !N.compare_lt_iff. lia.
Qed.

Lemma ascii_compare_Eq_Lt_trans (a b c : ascii) :
  Ascii.compare a b <> Gt -> Ascii.compare b c = Lt -> Ascii.compare a c = Lt.
Proof.
  unfold Ascii.compare. rewrite N.compare_le_iff, !N.compare_lt_iff. lia.
Qed.

Lemma string_compare_trans :
  forall a b c : string,
    String.compare a b <> Gt -> String.compare b c <> Gt -> String.compare a c <> Gt.
Proof.
  induction a as [|x a IH]; intros [|y b] [|z c]; simpl; try congruence.
  destruct (Ascii.compare x y) eqn:Hxy; try congruence;
    destruct (Ascii.compare y z) eqn:Hyz; try congruence; intros H1 H2.
  - apply Ascii.compare_eq_iff in Hxy, Hyz. subst.
    assert (Hzz : Ascii.compare z z = Eq)
      by (unfold Ascii.compare; apply N.compare_refl).
    rewrite Hzz. eapply IH; eassumption.
  - rewrite (ascii_compare_Eq_Lt_trans x y z); congruence.
  - rewrite (ascii_compare_Lt_Eq_trans x y z); congruence.
  - rewrite (ascii_compare_Lt_Eq_trans x y z); congruence.
Qed.

Lemma string_leb_trans (a b c : string) :
  String.leb a b = true -> String.leb b c = true -> String.leb a c = true.
Proof.
  unfold String.leb. intros H1 H2.
  assert (H : String.compare a c <> Gt).
  { apply (string_compare_trans a b c).
    - destruct (String.compare a b); congruence.
    - destruct (String.compare b c); congruence. }
  destruct (String.compare a c); congruence.
Qed.

Lemma key_leb_total (a b : row) : key_leb a b = true \/ key_leb b a = true.
Proof.
  unfold key_leb.
  destruct (Z.ltb_spec (Operations a) (Operations b)); [now left|].
  destruct (Z.ltb_spec (Operations b) (Operations a)); [now right|].
  assert (E : Operations a = Operations b) by lia.
  rewrite E, Z.eqb_refl. simpl.
  apply String.leb_total.
Qed.

Lemma key_leb_trans (a b c : row) :
  key_leb a b = true -> key_leb b c = true -> key_leb a c = true.
Proof.
  unfold key_leb. intros H1 H2.
  apply orb_true_iff in H1, H2. apply orb_true_iff.
  rewrite !andb_true_iff, !Z.ltb_lt, !Z.eqb_eq in *.
  destruct H1 as [H1|[H1 L1]], H2 as [H2|[H2 L2]].
  - left; lia.
  - left; lia.
  - left; lia.
  - right; split; [lia|]. eapply string_leb_trans; eassumption.
Qed.

Lemma key_leb_antisym (a b : row) :
  key_leb a b = true -> key_leb b a = true -> sort_key a = sort_key b.
Proof.
  unfold key_leb, sort_key. intros H1 H2.
  apply orb_true_iff in H1, H2.
  rewrite !andb_true_iff, !Z.ltb_lt, !Z.eqb_eq in *.
  destruct H1 as [H1|[H1 L1]], H2 as [H2|[H2 L2]]; try lia.
  f_equal; [assumption|]. now apply String.leb_antisym.
Qed.

Lemma insert_row_perm (x : row) (l : list row) :
  Permutation (x :: l) (insert_row x l).
Proof.
  induction l as [|y t IH]; simpl.
  - apply Permutation_refl.
  - destruct (key_leb x y).
    + apply Permutation_refl.
    + eapply perm_trans; [apply perm_swap|]. now apply perm_skip.
Qed.

Lemma sort_values_perm (rows : list row) : Permutation rows (sort_values rows).
Proof.
  induction rows as [|x t IH]; simpl.
  - constructor.
  - eapply perm_trans; [|apply insert_row_perm]. now apply perm_skip.
Qed.

Lemma insert_row_sorted (x : row) (l : list row) :
  StronglySorted key_le l -> StronglySorted key_le (insert_row x l).
Proof.
  induction 1 as [|y t Hs IH Hall]; simpl.
  - repeat constructor.
  - destruct (key_leb x y) eqn:E.
    + constructor; [now constructor|].
      constructor; [exact E|].
      eapply Forall_impl; [|exact Hall].
      intros z Hz. eapply key_leb_trans; eassumption.
    + constructor; [exact IH|].
      assert (Hyx : key_le y x)
        by (destruct (key_leb_total x y); [congruence|assumption]).
      eapply Permutation_Forall; [apply insert_row_perm|].
      now constructor.
Qed.

Lemma sort_values_sorted (rows : list row) :
  StronglySorted key_le (sort_values rows).
Proof.
  induction rows as [|x t IH]; simpl.
  - constructor.
  - now apply insert_row_sorted.
Qed.

(** Rows with different keys can be inserted in either order. *)
Lemma insert_row_comm (x y : row) (l : list row) :
  sort_key x <> sort_key y ->
  insert_row x (insert_row y l) = insert_row y (insert_row x l).
Proof.
  intros Hne.
  assert (Hxy : key_leb x y = negb (key_leb y x)).
  { destruct (key_leb x y) eqn:E1, (key_leb y x) eqn:E2; try reflexivity.
    - exfalso. now apply Hne, key_leb_antisym.
    - destruct (key_leb_total x y); congruence. }
  induction l as [|z t IH]; simpl.
  - rewrite Hxy. destruct (key_leb y x); reflexivity.
  - destruct (key_leb y z) eqn:Eyz, (key_leb x z) eqn:Exz; simpl.
    + rewrite Hxy. destruct (key_leb y x); simpl; rewrite ?Exz, ?Eyz; reflexivity.
    + rewrite Eyz. destruct (key_leb x y) eqn:Exy.
      * now rewrite (key_leb_trans x y z Exy Eyz) in Exz.
      * rewrite Exz. reflexivity.
    + rewrite Exz. destruct (key_leb y x) eqn:Eyx.
      * now rewrite (key_leb_trans y x z Eyx Exz) in Eyz.
      * rewrite Eyz. reflexivity.
    + rewrite Eyz, Exz. now rewrite IH.
Qed.

Lemma sort_values_perm_eq (l1 l2 : list row) :
  Permutation l1 l2 ->
  NoDup (map sort_key l1) ->
  sort_values l1 = sort_values l2.
Proof.
  induction 1 as [|x l l' Hp IH|x y l|l l' l'' Hp1 IH1 Hp2 IH2]; intros Hnd; simpl.
  - reflexivity.
  - inversion Hnd; subst. now rewrite IH.
  - apply insert_row_comm.
    inversion Hnd as [|? ? Hin _]; subst. simpl in Hin.
    intros E. apply Hin. now left.
  - rewrite IH1 by assumption. apply IH2.
    eapply Permutation_NoDup; [|exact Hnd]. now apply Permutation_map.
Qed.

(** ** The matcher on a class followed by something else *)

Lemma span_append (p : ascii -> bool) (s : string) :
  (fst (span p s) ++ snd (span p s))%string = s.
Proof.
  induction s as [|c s IH]; simpl; [reflexivity|].
  destruct (p c); [|reflexivity].
  destruct (span p s) as [run rest]. simpl in *. now rewrite IH.
Qed.

Lemma span_empty (p : ascii -> bool) (s : string) :
  is_empty (fst (span p s)) = true -> snd (span p s) = s.
Proof.
  destruct s as [|c s]; simpl; [reflexivity|].
  destruct (p c); [|reflexivity].
  destruct (span p s); simpl. discriminate.
Qed.

Lemma span_nonempty_head (p : ascii -> bool) (s : string) :
  is_empty (fst (span p s)) = false ->
  exists c t, s = String c t /\ p c = true.
Proof.
  destruct s as [|c s]; simpl; [discriminate|].
  destruct (p c) eqn:E; [|discriminate]. eauto.
Qed.

(** When what follows cannot start with a character of the class, [p+]
    takes the whole run and never gives a character back. *)
Lemma many_greedy {A} (p : ascii -> bool) (k : string -> option A) (s : string) :
  (forall c t, p c = true -> k (String c t) = None) ->
  many p k s =
    if is_empty (fst (span p s)) then None else k (snd (span p s)).
Proof.
  intros Hk. induction s as [|c s IH]; simpl; [reflexivity|].
  destruct (p c) eqn:Ec; [|reflexivity].
  rewrite IH.
  destruct (is_empty (fst (span p s))) eqn:E.
  - rewrite <- (span_empty p s E) at 1.
    destruct (span p s) as [run rest]; reflexivity.
  - destruct (span_nonempty_head p s E) as (c' & t & -> & Hc').
    destruct (span p (String c' t)) as [run rest] eqn:Es. simpl.
    destruct (k rest); [reflexivity|]. now apply Hk.
Qed.

Lemma many_no_run {A} (p : ascii -> bool) (k : string -> option A) (s : string) :
  is_empty (fst (span p s)) = true -> many p k s = None.
Proof.
  destruct s as [|c s]; simpl; [reflexivity|].
  destruct (p c); [|reflexivity].
  destruct (span p s); discriminate.
Qed.

(** When what follows accepts the text after the whole run, [p+] takes
    the whole run. *)
Lemma many_longest {A} (p : ascii -> bool) (k : string -> option A) (s : string) (x : A) :
  is_empty (fst (span p s)) = false ->
  k (snd (span p s)) = Some x ->
  many p k s = Some x.
Proof.
  induction s as [|c s IH]; simpl; [discriminate|].
  destruct (p c) eqn:Ec; [|discriminate].
  intros _.
  destruct (is_empty (fst (span p s))) eqn:E.
  - pose proof (span_empty p s E) as Hs.
    rewrite (many_no_run p k s E).
    destruct (span p s) as [run rest]; simpl in *. now subst rest.
  - destruct (span p s) as [run rest] eqn:Es; simpl in *.
    intros Hk. now rewrite (IH eq_refl Hk).
Qed.

Lemma many_total {A} (p : ascii -> bool) (k : string -> option A) (s : string) :
  (forall t, k t <> None) ->
  many p k s =
    if is_empty (fst (span p s)) then None else k (snd (span p s)).
Proof.
  intros Hk. destruct (is_empty (fst (span p s))) eqn:E.
  - now apply many_no_run.
  - destruct (k (snd (span p s))) eqn:Ek; [|now apply Hk in Ek].
    now apply many_longest.
Qed.

(** ** Strings *)

Lemma append_nil_r (s : string) : (s ++ "")%string = s.
Proof. induction s; simpl; congruence. Qed.

Lemma append_assoc (a b c : string) :
  ((a ++ b) ++ c)%string = (a ++ (b ++ c))%string.
Proof. induction a; simpl; congruence. Qed.

Lemma length_append (a b : string) :
  String.length (a ++ b) = String.length a + String.length b.
Proof. induction a; simpl; congruence. Qed.

Lemma take_append (a b : string) :
  take (String.length (a ++ b) - String.length b) (a ++ b) = a.
Proof.
  rewrite length_append.
  replace (String.length a + String.length b - String.length b)
    with (String.length a) by lia.
  induction a; simpl; [now destruct b|congruence].
Qed.

Lemma take_span (p : ascii -> bool) (s : string) :
  take (String.length s - String.length (snd (span p s))) s = fst (span p s).
Proof.
  rewrite <- (span_append p s) at 1 3. apply take_append.
Qed.

(** ** The decoder as a scan of the name *)

Lemma digit_not_unit (c : ascii) : is_digit c = true -> is_unit c = false.
Proof.
  destruct c as [[] [] [] [] [] [] [] []]; vm_compute; congruence.
Qed.

Lemma digit_not_underscore (c : ascii) :
  is_digit c = true -> is_underscore c = false.
Proof.
  destruct c as [[] [] [] [] [] [] [] []]; vm_compute; congruence.
Qed.

(** The pattern followed by [k], when [k] either cannot start with a
    character of a line or never fails. *)
Lemma exec_result_dir_pattern {A} (bos : bool) (name : string) (k : @cont A) :
  (forall caps c t, dot c = true -> k false (String c t) caps = None)
  \/ (forall caps t, k false t caps <> None) ->
  exec result_dir_pattern bos name [] k =
    match scan_name name with
    | Some (rest, caps) => k false rest caps
    | None => None
    end.
Proof.
  intros Hk.
  unfold result_dir_pattern, scan_name. cbn [exec].
  rewrite many_greedy.
  2:{ intros c t Hc. fold is_unit. now rewrite (digit_not_unit c Hc). }
  pose proof (span_append is_digit name) as Hname.
  destruct (span is_digit name) as [ds r1]. cbn [fst snd] in *.
  destruct (is_empty ds); [reflexivity|].
  destruct r1 as [|u [|c r2]]; try reflexivity.
  { fold is_unit. destruct (is_unit u); reflexivity. }
  fold is_unit is_underscore.
  destruct (is_unit u); [|reflexivity].
  destruct (is_underscore c); [|reflexivity]. cbn [andb app].
  rewrite many_greedy.
  2:{ intros c0 t Hc. now rewrite (digit_not_underscore c0 Hc). }
  pose proof (take_span is_digit r2) as Hops.
  destruct (span is_digit r2) as [ops r3]. cbn [fst snd] in *.
  destruct (is_empty ops); [reflexivity|].
  destruct r3 as [|c' r4]; [reflexivity|].
  destruct (is_underscore c'); [|reflexivity].
  assert (Hd : take (String.length name - String.length (String c r2)) name
               = (ds ++ String u "")%string).
  { subst name.
    replace (ds ++ String u (String c r2))%string
      with ((ds ++ String u "") ++ String c r2)%string
      by (rewrite append_assoc; reflexivity).
    apply take_append. }
  rewrite Hd, Hops.
  pose proof (take_span dot r4) as Hgage.
  destruct Hk as [Hk|Hk].
  - rewrite many_greedy by (intros; now apply Hk).
    destruct (span dot r4) as [gage rest]. cbn [fst snd] in *.
    destruct (is_empty gage); [reflexivity|]. now rewrite Hgage.
  - rewrite many_total by (intros; now apply Hk).
    destruct (span dot r4) as [gage rest]. cbn [fst snd] in *.
    destruct (is_empty gage); [reflexivity|]. now rewrite Hgage.
Qed.

Lemma parse_result_dir_scan (name : string) :
  parse_result_dir name =
    match scan_name name with
    | Some (_, caps) => triple_of caps
    | None => None
    end.
Proof.
  unfold parse_result_dir, re_match, match_here.
  rewrite exec_result_dir_pattern by (right; discriminate).
  destruct (scan_name name) as [[rest caps]|]; reflexivity.
Qed.

Lemma grammar_decode_scan (name : string) :
  grammar_decode name =
    match scan_name name with
    | Some (rest, caps) => if at_eol rest then triple_of caps else None
    | None => None
    end.
Proof.
  unfold grammar_decode, re_match, match_here, grammar_pattern. cbn [exec].
  rewrite exec_result_dir_pattern.
  - destruct (scan_name name) as [[rest caps]|]; [|reflexivity].
    destruct (at_eol rest); reflexivity.
  - left. intros caps c t Hc.
    assert (E : at_eol (String c t) = false).
    { unfold dot in Hc. destruct t; simpl; [|reflexivity].
      now destruct (Ascii.eqb c newline). }
    now rewrite E.
Qed.

(** ** Runs of a class *)

Lemma all_in_append (p : ascii -> bool) (a b : string) :
  all_in p (a ++ b) = all_in p a && all_in p b.
Proof.
  induction a as [|c a IH]; simpl; [reflexivity|].
  now rewrite IH, andb_assoc.
Qed.

Lemma span_all_in (p : ascii -> bool) (s : string) :
  all_in p (fst (span p s)) = true.
Proof.
  induction s as [|c s IH]; simpl; [reflexivity|].
  destruct (p c) eqn:E; [|reflexivity].
  destruct (span p s); simpl in *. now rewrite E.
Qed.

Lemma span_stops (p : ascii -> bool) (s : string) :
  stops p (snd (span p s)) = true.
Proof.
  induction s as [|c s IH]; simpl; [reflexivity|].
  destruct (p c) eqn:E.
  - now destruct (span p s).
  - simpl. now rewrite E.
Qed.

Lemma span_run (p : ascii -> bool) (a b : string) :
  all_in p a = true -> stops p b = true -> span p (a ++ b) = (a, b).
Proof.
  intros Ha Hb. induction a as [|c a IH]; simpl in *.
  - destruct b as [|c b]; [reflexivity|]. simpl in *.
    now destruct (p c).
  - apply andb_true_iff in Ha as [Hc Ha]. now rewrite Hc, IH.
Qed.

Lemma all_in_weaken (p q : ascii -> bool) (s : string) :
  (forall c, p c = true -> q c = true) ->
  all_in p s = true -> all_in q s = true.
Proof.
  intros Hpq. induction s as [|c s IH]; simpl; [reflexivity|].
  rewrite !andb_true_iff. intros [H1 H2]. auto.
Qed.

Lemma is_empty_false (s : string) : is_empty s = false <-> s <> "".
Proof. destruct s; simpl; split; congruence. Qed.

Lemma digit_dot (c : ascii) : is_digit c = true -> dot c = true.
Proof. destruct c as [[] [] [] [] [] [] [] []]; vm_compute; congruence. Qed.

Lemma unit_dot (c : ascii) : is_unit c = true -> dot c = true.
Proof. destruct c as [[] [] [] [] [] [] [] []]; vm_compute; congruence. Qed.

Lemma unit_not_digit (c : ascii) : is_unit c = true -> is_digit c = false.
Proof. destruct c as [[] [] [] [] [] [] [] []]; vm_compute; congruence. Qed.

Lemma underscore_eq (c : ascii) : is_underscore c = true -> c = "_"%char.
Proof. unfold is_underscore, lit. apply Ascii.eqb_eq. Qed.

(** ** The shape of a decoded name *)

Lemma scan_name_shape (name rest d o g : string) :
  scan_name name = Some (rest, [d; o; g]) <->
  duration_tag d /\ digits o /\ g <> "" /\ all_in dot g = true /\
  stops dot rest = true /\
  name = (d ++ "_" ++ o ++ "_" ++ g ++ rest)%string.
Proof.
  unfold scan_name. split.
  - pose proof (span_append is_digit name) as Hname.
    pose proof (span_all_in is_digit name) as Hds.
    destruct (span is_digit name) as [ds r1]. cbn [fst snd] in *.
    destruct (is_empty ds) eqn:Eds; [discriminate|].
    destruct r1 as [|u [|c r2]]; try discriminate.
    destruct (is_unit u) eqn:Eu; [|discriminate].
    destruct (is_underscore c) eqn:Ec; [|discriminate]. cbn [andb].
    pose proof (span_append is_digit r2) as Hr2.
    pose proof (span_all_in is_digit r2) as Hops.
    destruct (span is_digit r2) as [ops r3]. cbn [fst snd] in *.
    destruct (is_empty ops) eqn:Eops; [discriminate|].
    destruct r3 as [|c' r4]; [discriminate|].
    destruct (is_underscore c') eqn:Ec'; [|discriminate].
    pose proof (span_append dot r4) as Hr4.
    pose proof (span_all_in dot r4) as Hg.
    pose proof (span_stops dot r4) as Hrest.
    destruct (span dot r4) as [gage rest']. cbn [fst snd] in *.
    destruct (is_empty gage) eqn:Eg; [discriminate|].
    intros H. injection H as -> <- <- <-.
    apply underscore_eq in Ec, Ec'. subst c c'.
    repeat split.
    + exists ds, u. repeat split; try assumption. now apply is_empty_false.
    + now apply is_empty_false.
    + assumption.
    + now apply is_empty_false.
    + assumption.
    + assumption.
    + rewrite <- Hname, <- Hr2, <- Hr4.
      rewrite !append_assoc. reflexivity.
  - intros ((ds & u & -> & Hne & Hds & Hu) & (Hone & Ho) & Hg & Hgd & Hrest & ->).
    rewrite !append_assoc. cbn [append].
    rewrite (span_run is_digit ds) by
      (try assumption; simpl; now rewrite (unit_not_digit u Hu)).
    apply is_empty_false in Hne, Hone, Hg. rewrite Hne, Hu. cbn [is_underscore lit andb].
    change (Ascii.eqb "_" "_") with true. cbn [andb].
    rewrite (span_run is_digit o) by (try assumption; reflexivity).
    rewrite Hone.
    change (is_underscore "_") with true. cbn.
    rewrite (span_run dot g) by assumption.
    now rewrite Hg.
Qed.

Lemma triple_of_inv (caps : list string) (d o g : string) :
  triple_of caps = Some (d, o, g) -> caps = [d; o; g].
Proof.
  destruct caps as [|a [|b [|c [|? ?]]]]; simpl; try discriminate.
  now intros [= -> -> ->].
Qed.

Lemma all_in_duration (d : string) : duration_tag d -> all_in dot d = true.
Proof.
  intros (ds & u & -> & _ & Hds & Hu).
  rewrite all_in_append. simpl.
  rewrite (all_in_weaken is_digit dot ds digit_dot Hds), (unit_dot u Hu).
  reflexivity.
Qed.

(** What [parse_result_dir] accepts, and what it returns. *)
Lemma parse_result_dir_shape (name d o g : string) :
  parse_result_dir name = Some (d, o, g) <->
  duration_tag d /\ digits o /\ g <> "" /\
  first_line name = (d ++ "_" ++ o ++ "_" ++ g)%string.
Proof.
  rewrite parse_result_dir_scan. unfold first_line. split.
  - destruct (scan_name name) as [[rest caps]|] eqn:E; [|discriminate].
    intros Ht. apply triple_of_inv in Ht. subst caps.
    apply scan_name_shape in E as (Hd & Ho & Hg & Hgd & Hrest & ->).
    repeat split; try assumption; try apply Ho.
    replace (d ++ "_" ++ o ++ "_" ++ g ++ rest)%string
      with ((d ++ "_" ++ o ++ "_" ++ g) ++ rest)%string
      by (rewrite !append_assoc; reflexivity).
    rewrite span_run; [reflexivity| |assumption].
    rewrite !all_in_append, (all_in_duration d Hd), Hgd.
    destruct Ho as [_ Ho].
    rewrite (all_in_weaken is_digit dot o digit_dot Ho). reflexivity.
  - intros (Hd & Ho & Hg & Hline).
    pose proof (span_append dot name) as Hname.
    pose proof (span_all_in dot name) as Hall.
    pose proof (span_stops dot name) as Hrest.
    rewrite Hline in Hname, Hall.
    assert (E : scan_name name = Some (snd (span dot name), [d; o; g])).
    { apply scan_name_shape. repeat split; try assumption; try apply Ho.
      - rewrite !all_in_append in Hall.
        repeat (apply andb_true_iff in Hall as [? Hall]). assumption.
      - rewrite <- Hname at 1. now rewrite !append_assoc. }
    rewrite E. reflexivity.
Qed.

Lemma first_line_stops (name : string) :
  forall rest, at_eol rest = true ->
    forall x, first_line name = (x ++ rest)%string -> rest = "".
Proof.
  intros rest Hr x Hx.
  pose proof (span_all_in dot name) as Hall. fold (first_line name) in Hall.
  rewrite Hx, all_in_append in Hall. apply andb_true_iff in Hall as [_ Hall].
  destruct rest as [|c [|c' t]]; simpl in *; try reflexivity; try discriminate.
  unfold dot in Hall. rewrite Hr in Hall. discriminate.
Qed.

(** The decoder gives what the anchored grammar gives on the first line
    of the name. *)
Lemma parse_result_dir_first_line (name : string) :
  parse_result_dir name = grammar_decode (first_line name).
Proof.
  destruct (parse_result_dir name) as [[[d o] g]|] eqn:E.
  - apply parse_result_dir_shape in E as (Hd & Ho & Hg & Hline).
    rewrite grammar_decode_scan.
    assert (Es : scan_name (first_line name) = Some ("", [d; o; g])).
    { apply scan_name_shape. repeat split; try assumption; try apply Ho.
      - pose proof (span_all_in dot name) as Hall. fold (first_line name) in Hall.
        rewrite Hline, !all_in_append in Hall.
        repeat (apply andb_true_iff in Hall as [? Hall]). assumption.
      - now rewrite Hline, append_nil_r. }
    rewrite Es. reflexivity.
  - rewrite grammar_decode_scan.
    destruct (scan_name (first_line name)) as [[rest caps]|] eqn:Es; [|reflexivity].
    destruct (at_eol rest) eqn:Er; [|reflexivity].
    destruct (triple_of caps) as [[[d o] g]|] eqn:Et; [|reflexivity].
    exfalso. apply triple_of_inv in Et. subst caps.
    apply scan_name_shape in Es as (Hd & Ho & Hg & Hgd & Hrest & Hline).
    assert (rest = "").
    { apply (first_line_stops name rest Er (d ++ "_" ++ o ++ "_" ++ g)%string).
      rewrite Hline, !append_assoc. reflexivity. }
    subst rest.
    assert (E' : parse_result_dir name = Some (d, o, g)).
    { apply parse_result_dir_shape. repeat split; try assumption; try apply Ho.
      now rewrite Hline, append_nil_r. }
    congruence.
Qed.

(* ================================================================== *)
(** ** Result directory decoder: the claims *)

(** C6, as stated, fails: [re.match] has no end anchor, so a name whose
    first line has the shape is decoded although the anchored grammar
    [^(\d+[dmy])_(\d+)_(.+)$] rejects the whole name. *)
Lemma parse_result_dir_not_anchored :
  parse_result_dir two_line_name = Some ("1d", "2", "a")
  /\ grammar_decode two_line_name = None.
Proof. split; vm_compute; reflexivity. Qed.

(** C6, amended: [parse_result_dir name] returns the triple
    (duration, operations, gage) exactly when the text of [name] before
    its first newline is one or more digits and one of d, m, y, an
    underscore, one or more digits, an underscore and a non-empty gage;
    this is what the anchored grammar gives on that first line (on the
    whole name when it has no newline); every other name gives none;
    and "30d_1000_gageA" decodes to ("30d", "1000", "gageA"). *)
Theorem parse_result_dir_grammar :
  forall name : string,
    (forall d o g,
        parse_result_dir name = Some (d, o, g) <->
        duration_tag d /\ digits o /\ g <> "" /\
        first_line name = (d ++ "_" ++ o ++ "_" ++ g)%string)
    /\ parse_result_dir name = grammar_decode (first_line name)
    /\ (first_line name = name -> parse_result_dir name = grammar_decode name)
    /\ parse_result_dir "30d_1000_gageA" = Some ("30d", "1000", "gageA").
Proof.
  intros name. split; [|split; [|split]].
  - intros d o g. apply parse_result_dir_shape.
  - apply parse_result_dir_first_line.
  - intros E. rewrite <- E at 2. apply parse_result_dir_first_line.
  - vm_compute. reflexivity.
Qed.

(** C7: [parse_result_dir] is total.  On every name, the empty one and
    names with blanks or newlines included, it returns none or a triple
    of a duration tag, a digit string and a non-empty gage; no input
    makes it raise. *)
Theorem parse_result_dir_total :
  forall name : string,
    (parse_result_dir name = None
     \/ exists d o g,
         parse_result_dir name = Some (d, o, g)
         /\ duration_tag d /\ digits o /\ g <> "")
    /\ parse_result_dir "" = None
    /\ parse_result_dir " " = None
    /\ parse_result_dir nl = None
    /\ parse_result_dir "30d 1000 gageA" = None
    /\ parse_result_dir "30d_1000_gage A" = Some ("30d", "1000", "gage A")
    /\ parse_result_dir ("30d_1000_gageA" ++ nl)%string = Some ("30d", "1000", "gageA").
Proof.
  intros name. split.
  - destruct (parse_result_dir name) as [[[d o] g]|] eqn:E; [right|now left].
    exists d, o, g. split; [reflexivity|].
    apply parse_result_dir_shape in E. tauto.
  - repeat split; vm_compute; reflexivity.
Qed.

(* ================================================================== *)
(** ** Result loader: the claims *)

(** C8, as stated, fails on a mean of the wrong type: the loader does
    not look at the type of the value it finds, and returns the text of
    [{"results": [{"mean": "fast"}]}] instead of no data. *)
Lemma load_returns_wrong_type :
  load_hyperfine_results (hyperfine_file (PStr "fast")) = PStr "fast".
Proof. reflexivity. Qed.

(** C8, amended: [load_hyperfine_results] never raises.  It returns no
    data ([None]) when the file is missing or is not JSON, when the
    decoded value is not an object or has no "results", when "results"
    has no first element (a number, a boolean, null, an object, an empty
    list or text), when that element is not an object or has no "mean".
    In every other case it returns the value stored under "mean" as it
    is: at full precision (12.3456 stays 12.3456 and becomes 12.346 only
    in the aggregator), and of whatever type it has. *)
Theorem load_hyperfine_results_cases :
  load_hyperfine_results Missing = PNone
  /\ load_hyperfine_results Malformed = PNone
  /\ (forall data,
         match data with PDict _ => False | _ => True end ->
         load_hyperfine_results (Parsed data) = PNone)
  /\ (forall items,
         dict_get "results" items = None ->
         load_hyperfine_results (Parsed (PDict items)) = PNone)
  /\ (forall items results,
         dict_get "results" items = Some results ->
         match results with
         | PList (_ :: _) | PStr (String _ _) => False
         | _ => True
         end ->
         load_hyperfine_results (Parsed (PDict items)) = PNone)
  /\ (forall items results first,
         dict_get "results" items = Some results ->
         getitem0 results = Some first ->
         match first with PDict _ => False | _ => True end ->
         load_hyperfine_results (Parsed (PDict items)) = PNone)
  /\ (forall items results fields,
         dict_get "results" items = Some results ->
         getitem0 results = Some (PDict fields) ->
         dict_get "mean" fields = None ->
         load_hyperfine_results (Parsed (PDict items)) = PNone)
  /\ (forall items results fields mean,
         dict_get "results" items = Some results ->
         getitem0 results = Some (PDict fields) ->
         dict_get "mean" fields = Some mean ->
         load_hyperfine_results (Parsed (PDict items)) = mean)
  /\ load_hyperfine_results (hyperfine_file (PFloat (float_of 12.3456)))
     = PFloat (float_of 12.3456)
  /\ runtime_cell
       (load_hyperfine_results (hyperfine_file (PFloat (float_of 12.3456))))
     = Some (seconds 12.346).
Proof.
  repeat match goal with |- _ /\ _ => split end;
    try (vm_compute; reflexivity).
  - intros data H. destruct data; simpl in *; tauto.
  - intros items H. simpl. now rewrite H.
  - intros items results H1 H2. simpl. rewrite H1. simpl.
    destruct results as [| | | | [|? ?] | [|? ?] |]; simpl in *; tauto.
  - intros items results first H1 H2 H3. simpl. rewrite H1. simpl. rewrite H2.
    destruct first; simpl in *; tauto.
  - intros items results fields H1 H2 H3. simpl. rewrite H1. simpl.
    rewrite H2. simpl. now rewrite H3.
  - intros items results fields mean H1 H2 H3. simpl. rewrite H1. simpl.
    rewrite H2. simpl. now rewrite H3.
Qed.

(* ================================================================== *)
(** ** Aggregator: the derived total *)

(** C3, as stated, fails on a measurement of 0.0: both files load, and
    the total is still the marker, because the record tests the values
    for truth and not for presence. *)
Lemma total_of_zero_is_not_available :
  load_hyperfine_results (hyperfine_file (PFloat (float_of 0.0)))
  = PFloat (float_of 0.0)
  /\ load_hyperfine_results (hyperfine_file (PFloat (float_of 1.5)))
     = PFloat (float_of 1.5)
  /\ option_map Total_Runtime
       (make_row "1d" "2" "g"
          (run_dir "1d_2_g" (hyperfine_file (PFloat (float_of 0.0)))
             (hyperfine_file (PFloat (float_of 1.5)))))
     = Some NA.
Proof. repeat split; vm_compute; reflexivity. Qed.

Lemma runtime_cell_number (v : pyval) (c : cell) :
  runtime_cell v = Some c -> truthy v = true ->
  exists x, as_number v = Some x /\ c = Seconds (round_number x).
Proof.
  unfold runtime_cell, py_round3. intros H Ht. rewrite Ht in H.
  destruct (as_number v) as [x|]; simpl in H; [|discriminate].
  exists x. split; [reflexivity|]. congruence.
Qed.

Lemma py_add_numbers (a b : pyval) (x y : number) :
  as_number a = Some x -> as_number b = Some y ->
  py_add a b = option_map of_number (add_numbers x y).
Proof.
  intros Ha Hb. unfold py_add. rewrite Ha, Hb.
  destruct a; try discriminate; destruct b; try discriminate; reflexivity.
Qed.

Lemma as_number_of_number (x : number) : as_number (of_number x) = Some x.
Proof. destruct x; reflexivity. Qed.

(** The total of two values taken as true that are numbers: the
    rounded sum, or the exception of the sum. *)
Lemma total_cell_numbers (a b : pyval) (x y : number) :
  truthy a = true -> truthy b = true ->
  as_number a = Some x -> as_number b = Some y ->
  total_cell a b
  = option_map (fun s => Seconds (round_number s)) (add_numbers x y).
Proof.
  intros Ta Tb Ha Hb. unfold total_cell. rewrite Ta, Tb. cbn [andb].
  rewrite (py_add_numbers a b x y Ha Hb).
  destruct (add_numbers x y) as [s|]; [|reflexivity].
  cbn [option_map bind]. unfold py_round3.
  now rewrite as_number_of_number.
Qed.

(** C3, amended: in every record the total is present exactly when both
    measurements loaded with a value that Python takes as true, which
    for a number means that it is not a zero (a loaded 0.0 counts as
    missing; NaN and the infinities count as present); when present it
    is [round(a + b, 3)] in Python's arithmetic, the sum of the two
    unrounded measurements rounded to 3 decimals, which is not the sum
    of the rounded ones; when a measurement is missing the total is the
    marker.  Means of 0.0004 and 0.0004 give the cells 0.0, 0.0 and
    0.001, and means of 0.0005 and 0.002 give 0.001, 0.002 and 0.003. *)
Theorem total_runtime_present :
  forall (duration ops gage : string) (e : dir_entry) (r : row),
    make_row duration ops gage e = Some r ->
    let mpirun_time := load_hyperfine_results (mpirun_benchmark e) in
    let troute_time := load_hyperfine_results (troute_benchmark e) in
    (truthy mpirun_time = true /\ truthy troute_time = true ->
     exists x y s,
       as_number mpirun_time = Some x /\ as_number troute_time = Some y
       /\ add_numbers x y = Some s
       /\ MPI_Runtime r = Seconds (round_number x)
       /\ Troute_Runtime r = Seconds (round_number y)
       /\ Total_Runtime r = Seconds (round_number s))
    /\ (truthy mpirun_time = false \/ truthy troute_time = false ->
        Total_Runtime r = NA)
    /\ (forall x, truthy (PFloat x) = true <-> forall sign, x <> S754_zero sign)
    /\ (forall n, truthy (PInt n) = true <-> n <> 0%Z)
    /\ (mpirun_time = PNone \/ troute_time = PNone -> Total_Runtime r = NA)
    /\ option_map runtimes
         (make_row "1d" "2" "g"
            (run_dir "1d_2_g" (hyperfine_file (PFloat (float_of 0.0004)))
               (hyperfine_file (PFloat (float_of 0.0004)))))
       = Some (seconds 0.0, seconds 0.0, seconds 0.001)
    /\ float_add (float_round3 (float_of 0.0004)) (float_round3 (float_of 0.0004))
       = float_of 0.0
    /\ option_map runtimes
         (make_row "1d" "2" "g"
            (run_dir "1d_2_g" (hyperfine_file (PFloat (float_of 0.0005)))
               (hyperfine_file (PFloat (float_of 0.002)))))
       = Some (seconds 0.001, seconds 0.002, seconds 0.003).
Proof.
  intros duration ops gage e r Hrow. cbv zeta.
  unfold make_row in Hrow.
  destruct (py_int ops) as [n|]; [|discriminate]. cbn [bind] in Hrow.
  destruct (runtime_cell (load_hyperfine_results (mpirun_benchmark e)))
    as [cm|] eqn:Em; [|discriminate]. cbn [bind] in Hrow.
  destruct (runtime_cell (load_hyperfine_results (troute_benchmark e)))
    as [ct|] eqn:Et; [|discriminate]. cbn [bind] in Hrow.
  destruct (total_cell (load_hyperfine_results (mpirun_benchmark e))
              (load_hyperfine_results (troute_benchmark e)))
    as [tot|] eqn:Etot; [|discriminate]. cbn [bind] in Hrow.
  injection Hrow as <-. cbn [MPI_Runtime Troute_Runtime Total_Runtime].
  assert (Hfalse :
            truthy (load_hyperfine_results (mpirun_benchmark e)) = false
            \/ truthy (load_hyperfine_results (troute_benchmark e)) = false ->
            tot = NA).
  { intros H. unfold total_cell in Etot.
    destruct H as [H|H]; rewrite H in Etot; rewrite ?andb_false_r in Etot;
      simpl in Etot; congruence. }
  split; [|split; [|split; [|split; [|split; [|split; [|split]]]]]].
  - intros [Ha Hb].
    destruct (runtime_cell_number _ _ Em Ha) as (x & Hx & ->).
    destruct (runtime_cell_number _ _ Et Hb) as (y & Hy & ->).
    rewrite (total_cell_numbers _ _ x y Ha Hb Hx Hy) in Etot.
    destruct (add_numbers x y) as [s|] eqn:Es; [|discriminate].
    exists x, y, s. repeat split; try assumption.
    cbn [option_map] in Etot. congruence.
  - exact Hfalse.
  - intros x. destruct x; cbn [truthy]; split; intros H;
      try reflexivity; try discriminate.
    now destruct (H s).
  - intros k. cbn [truthy]. rewrite negb_true_iff. apply Z.eqb_neq.
  - intros [H|H]; apply Hfalse; rewrite H; auto.
  - vm_compute. reflexivity.
  - vm_compute. reflexivity.
  - vm_compute. reflexivity.
Qed.

Lemma total_runtime_present_witness :
  make_row "30d" "1000" "gageA" sample_run = Some sample_row
  /\ Total_Runtime sample_row
     = Seconds (round_number
                  (NFloat (float_add (float_of 12.3) (float_of 0.0004)))).
Proof.
  assert (Hrow : make_row "30d" "1000" "gageA" sample_run = Some sample_row)
    by (vm_compute; reflexivity).
  split; [exact Hrow|].
  destruct (total_runtime_present _ _ _ _ _ Hrow) as [H _].
  destruct (H (conj eq_refl eq_refl)) as (x & y & s & Hx & Hy & Hs & _ & _ & Ht).
  change (Some (NFloat (float_of 12.3)) = Some x) in Hx.
  change (Some (NFloat (float_of 0.0004)) = Some y) in Hy.
  injection Hx as <-. injection Hy as <-.
  cbn [add_numbers] in Hs. injection Hs as <-. exact Ht.
Defined.

(* ================================================================== *)
(** ** Aggregator: the record set *)

Lemma collect_collect_rows (entries : list dir_entry) (results : list row) :
  collect entries results = option_map (app results) (collect_rows entries).
Proof.
  revert results. induction entries as [|e rest IH]; intros results; simpl.
  - now rewrite app_nil_r.
  - unfold entry_rows.
    destruct (entry_is_dir e); [|now rewrite IH; destruct (collect_rows rest)].
    destruct (parse_result_dir (entry_name e)) as [[[d o] g]|];
      [|now rewrite IH; destruct (collect_rows rest)].
    destruct (negb (is_empty d) && negb (is_empty o));
      [|now rewrite IH; destruct (collect_rows rest)].
    destruct (make_row d o g e) as [r|]; simpl; [|reflexivity].
    rewrite IH. destruct (collect_rows rest); simpl; [|reflexivity].
    now rewrite <- app_assoc.
Qed.

Lemma int_digits_some (s : string) :
  all_in is_digit s = true -> forall acc, int_digits acc s <> None.
Proof.
  induction s as [|c s IH]; simpl; intros H acc; [discriminate|].
  apply andb_true_iff in H as [Hc Hs]. rewrite Hc. now apply IH.
Qed.

Lemma py_int_digits (o : string) : digits o -> py_int o <> None.
Proof.
  intros [Hne Hd]. unfold py_int.
  apply is_empty_false in Hne. rewrite Hne. now apply int_digits_some.
Qed.

Lemma runtime_cell_roundable (v : pyval) :
  runtime_cell v = None <-> roundable v = false.
Proof.
  unfold runtime_cell, roundable, py_round3.
  destruct (truthy v); simpl; [|split; discriminate].
  destruct (as_number v); simpl; split; congruence.
Qed.

Lemma runtime_cell_some (v : pyval) (c : cell) :
  runtime_cell v = Some c -> roundable v = true.
Proof.
  intros H. destruct (roundable v) eqn:R; [reflexivity|].
  apply runtime_cell_roundable in R. congruence.
Qed.

Lemma total_cell_roundable (a b : pyval) :
  roundable a = true -> roundable b = true ->
  (total_cell a b = None <-> truthy a && truthy b && overflows a b = true).
Proof.
  unfold roundable. intros Ha Hb.
  destruct (truthy a) eqn:Ta, (truthy b) eqn:Tb; cbn [negb orb andb] in *;
    try (unfold total_cell; rewrite Ta, Tb; cbn [andb]; split; discriminate).
  destruct (as_number a) as [x|] eqn:Ea; [|discriminate].
  destruct (as_number b) as [y|] eqn:Eb; [|discriminate].
  rewrite (total_cell_numbers a b x y Ta Tb Ea Eb).
  unfold overflows. rewrite Ea, Eb.
  destruct x as [n|f], y as [n'|f']; cbn [add_numbers option_map];
    try (split; discriminate);
    destruct (float_of_int _); cbn [option_map]; split;
      first [discriminate | reflexivity].
Qed.

Lemma make_row_measurable (d o g : string) (e : dir_entry) :
  digits o -> (make_row d o g e = None <-> measurable e = false).
Proof.
  intros Ho. unfold make_row, measurable.
  destruct (py_int o) as [n|] eqn:En; [|now apply py_int_digits in En].
  cbn [bind].
  destruct (runtime_cell (load_hyperfine_results (mpirun_benchmark e)))
    as [cm|] eqn:Em.
  - pose proof (runtime_cell_some _ _ Em) as Ra.
    rewrite Ra. cbn [bind andb].
    destruct (runtime_cell (load_hyperfine_results (troute_benchmark e)))
      as [ct|] eqn:Et.
    + pose proof (runtime_cell_some _ _ Et) as Rb.
      rewrite Rb. cbn [bind andb].
      pose proof (total_cell_roundable _ _ Ra Rb) as Ht.
      destruct (total_cell _ _); cbn [bind].
      * split; [discriminate|]. intros H. apply negb_false_iff in H.
        apply Ht in H. discriminate.
      * split; [intros _|reflexivity]. apply negb_false_iff.
        now apply Ht.
    + apply runtime_cell_roundable in Et. rewrite Et. cbn [bind andb].
      rewrite ?andb_false_r. tauto.
  - apply runtime_cell_roundable in Em. rewrite Em. cbn [bind andb]. tauto.
Qed.

Lemma entry_rows_cases (e : dir_entry) :
  (qualifies e = false /\ entry_rows e = Some [])
  \/ (qualifies e = true /\ measurable e = false /\ entry_rows e = None)
  \/ (qualifies e = true /\ measurable e = true
      /\ exists r, entry_rows e = Some [r]).
Proof.
  unfold qualifies, entry_rows.
  destruct (entry_is_dir e); [|now left].
  destruct (parse_result_dir (entry_name e)) as [[[d o] g]|] eqn:E; [|now left].
  apply parse_result_dir_shape in E as ((ds & u & -> & Hds & _) & Ho & _).
  assert (E1 : is_empty (ds ++ String u "") = false) by (now destruct ds).
  assert (E2 : is_empty o = false) by (apply is_empty_false, Ho).
  rewrite E1, E2. cbn [negb andb]. right.
  pose proof (make_row_measurable (ds ++ String u "") o g e Ho) as Hm.
  destruct (make_row (ds ++ String u "") o g e) as [r|].
  - right. repeat split; [|now exists r].
    destruct (measurable e); [reflexivity|].
    destruct Hm as [_ Hm]. now specialize (Hm eq_refl).
  - left. repeat split. now apply Hm.
Qed.



Lemma collect_rows_perm (l1 l2 : list dir_entry) :
  Permutation l1 l2 ->
  match collect_rows l1, collect_rows l2 with
  | Some a, Some b => Permutation a b
  | None, None => True
  | _, _ => False
  end.
Proof.
  induction 1 as [|x l l' Hp IH|x y l|l l' l'' Hp1 IH1 Hp2 IH2]; simpl.
  - constructor.
  - destruct (entry_rows x) as [a|].
    + destruct (collect_rows l), (collect_rows l'); try tauto.
      now apply Permutation_app_head.
    + destruct (collect_rows l), (collect_rows l'); tauto.
  - destruct (entry_rows x) as [a|], (entry_rows y) as [b|],
      (collect_rows l) as [c|]; try exact I.
    rewrite !app_assoc. apply Permutation_app_tail, Permutation_app_comm.
  - destruct (collect_rows l), (collect_rows l'), (collect_rows l'');
      try tauto.
    eapply perm_trans; eassumption.
Qed.

(* ================================================================== *)
(** ** Aggregator: the sort and the exits *)

Lemma key_le_iff (a b : row) :
  key_le a b <->
  (Operations a < Operations b)%Z
  \/ (Operations a = Operations b /\ String.leb (Duration a) (Duration b) = true).
Proof.
  unfold key_le, key_leb.
  now rewrite orb_true_iff, andb_true_iff, Z.ltb_lt, Z.eqb_eq.
Qed.

Lemma main_reports (format_float0 : string -> option string)
      (set_elements : list string -> list string) (m : machine)
      (dir : string) (entries : list dir_entry) (results : list row) :
  collect entries [] = Some results -> results <> [] ->
  main format_float0 set_elements m dir true (Listed entries) =
    Returned [SystemInformation (get_system_info format_float0 set_elements m);
              ResultsTable (sort_values results);
              CsvFile (get_system_info format_float0 set_elements m)
                (sort_values results);
              Message ("CSV saved to: " ++ dir ++ "/benchmark_summary.csv")%string]
  /\ main format_float0 set_elements m dir false (Listed entries) =
       Raised [SystemInformation (get_system_info format_float0 set_elements m);
               ResultsTable (sort_values results)].
Proof.
  intros Hc Hne. unfold main. rewrite Hc.
  destruct results; [contradiction|split; reflexivity].
Qed.

(** The entries that do not qualify leave nothing. *)
Lemma collect_rows_filter (entries : list dir_entry) :
  collect_rows (filter qualifies entries) = collect_rows entries.
Proof.
  induction entries as [|e rest IH]; [reflexivity|].
  cbn [filter collect_rows].
  destruct (entry_rows_cases e)
    as [(Hq & E)|[(Hq & Hm & E)|(Hq & Hm & r & E)]]; rewrite Hq.
  - rewrite E, IH. now destruct (collect_rows rest).
  - cbn [collect_rows]. now rewrite IH.
  - cbn [collect_rows]. now rewrite IH.
Qed.



(** C4: the table the aggregator hands on is its record set sorted
    ascending by the pair (operation count as an integer, duration tag
    as a string, character by character): it has the same records, and
    each record is before every record with a greater pair.  The
    directories of 500, 1000 and 500 operations with durations "10d",
    "5d" and "30d" come out as (500,"10d"), (500,"30d"), (1000,"5d"). *)
Theorem sort_values_by_operations_then_duration :
  forall rows : list row,
    Permutation rows (sort_values rows)
    /\ StronglySorted key_le (sort_values rows)
    /\ (forall a b,
           key_le a b <->
           (Operations a < Operations b)%Z
           \/ (Operations a = Operations b
               /\ String.leb (Duration a) (Duration b) = true))
    /\ (forall format_float0 set_elements m dir csv_writable entries,
           collect entries [] = Some rows -> rows <> [] ->
           results_table
             (main format_float0 set_elements m dir csv_writable (Listed entries))
           = Some (sort_values rows))
    /\ option_map (fun rs => map sort_key (sort_values rs))
         (collect [run_dir "10d_500_g" Missing Missing;
                   run_dir "5d_1000_g" Missing Missing;
                   run_dir "30d_500_g" Missing Missing] [])
       = Some [(500%Z, "10d"); (500%Z, "30d"); (1000%Z, "5d")].
Proof.
  intros rows. split; [|split; [|split; [|split]]].
  - apply sort_values_perm.
  - apply sort_values_sorted.
  - apply key_le_iff.
  - intros f s m dir w entries Hc Hne.
    destruct (main_reports f s m dir entries rows Hc Hne) as [H1 H2].
    destruct w; [now rewrite H1|now rewrite H2].
  - vm_compute. reflexivity.
Qed.

(** C5, as stated, fails: records with the same (operation count,
    duration tag) stay in the order in which the directories were
    listed, so the two listings of the same two directories give two
    different tables. *)
Lemma table_follows_listing_order :
  Permutation [gage_a; gage_b] [gage_b; gage_a]
  /\ option_map (map Gage) (results_table (sample_main (Listed [gage_a; gage_b])))
     = Some ["a"; "b"]
  /\ option_map (map Gage) (results_table (sample_main (Listed [gage_b; gage_a])))
     = Some ["b"; "a"].
Proof.
  split; [apply perm_swap|]. split; vm_compute; reflexivity.
Qed.

(** C5, amended: two runs over the same qualifying directories with the
    same measurements print the same rows in the same order, whatever
    the order in which the directories were listed and whatever else
    the listings hold (files, other directories), on whatever machine,
    provided no two records have the same (operation count, duration
    tag); and one run raises in its loop exactly when the other does.
    Nothing is promised on the order of records that share the pair. *)
Theorem main_order_independent :
  forall (format_float1 format_float2 : string -> option string)
         (set_elements1 set_elements2 : list string -> list string)
         (m1 m2 : machine) (dir1 dir2 : string)
         (csv_writable1 csv_writable2 : bool)
         (listing1 listing2 : list dir_entry),
    Permutation (filter qualifies listing1) (filter qualifies listing2) ->
    (forall rows, collect listing1 [] = Some rows -> NoDup (map sort_key rows)) ->
    results_table
      (main format_float1 set_elements1 m1 dir1 csv_writable1 (Listed listing1))
    = results_table
        (main format_float2 set_elements2 m2 dir2 csv_writable2 (Listed listing2))
    /\ (main format_float1 set_elements1 m1 dir1 csv_writable1 (Listed listing1)
        = Raised []
        <-> main format_float2 set_elements2 m2 dir2 csv_writable2
              (Listed listing2)
            = Raised []).
Proof.
  intros f1 f2 s1 s2 m1 m2 d1 d2 w1 w2 l1 l2 Hp Hnd. unfold main.
  rewrite !collect_collect_rows in *.
  pose proof (collect_rows_perm _ _ Hp) as H.
  rewrite !collect_rows_filter in H.
  destruct (collect_rows l1) as [a|], (collect_rows l2) as [b|];
    simpl in *; try contradiction; [|split; [reflexivity|tauto]].
  rewrite (sort_values_perm_eq a b H (Hnd a eq_refl)).
  destruct a as [|x a], b as [|y b].
  - split; [reflexivity|split; discriminate].
  - apply Permutation_nil in H. discriminate.
  - apply Permutation_sym, Permutation_nil in H. discriminate.
  - destruct w1, w2; (split; [reflexivity|split; discriminate]).
Qed.

Lemma main_order_independent_witness :
  results_table (sample_main (Listed [days_30; days_10]))
  = results_table
      (main sample_float0 sample_set container "/ngen/bench/results" false
         (Listed [days_10; summary_file; days_30])).
Proof.
  refine (proj1 (main_order_independent sample_float0 sample_float0
                   sample_set sample_set sample_host container
                   "/ngen/bench/results" "/ngen/bench/results" true false
                   [days_30; days_10] [days_10; summary_file; days_30] _ _)).
  - apply perm_swap.
  - intros rows H. vm_compute in H. injection H as <-.
    repeat constructor; simpl; intuition discriminate.
Defined.



(* ================================================================== *)
(** ** Fingerprinter: which keys a stage writes *)

Lemma get_set_same (k v : string) (info : fact_table) :
  get_fact k (set_fact k v info) = Some v.
Proof.
  induction info as [|[k' v'] t IH]; simpl.
  - now rewrite String.eqb_refl.
  - destruct (String.eqb k' k) eqn:E; simpl.
    + now rewrite String.eqb_refl.
    + now rewrite E.
Qed.

Lemma get_set_other (k k' v : string) (info : fact_table) :
  k' <> k -> get_fact k (set_fact k' v info) = get_fact k info.
Proof.
  intros Hne. induction info as [|[k0 v0] t IH]; simpl.
  - apply String.eqb_neq in Hne. now rewrite Hne.
  - destruct (String.eqb k0 k') eqn:E; simpl.
    + apply String.eqb_eq in E. subst k0.
      apply String.eqb_neq in Hne. now rewrite Hne.
    + now rewrite IH.
Qed.

Lemma try_each_keeps {X} (k : string)
      (body : X -> fact_table -> option fact_table) (l : list X) :
  (forall x st st', body x st = Some st' -> get_fact k st' = get_fact k st) ->
  forall st, get_fact k (fst (try_each body l st)) = get_fact k st.
Proof.
  intros Hb. induction l as [|x rest IH]; intros st; simpl; [reflexivity|].
  destruct (body x st) as [st'|] eqn:E; [|reflexivity].
  rewrite IH. now apply (Hb x).
Qed.

(** From [outside k [k1; ...; kn] = true] to [ki <> k] for each [i]. *)
Ltac split_outside H :=
  unfold outside in H; simpl in H;
  rewrite ?negb_true_iff, ?orb_false_iff in H;
  repeat match type of H with
    | _ /\ _ => let H1 := fresh "Hk" in destruct H as [H1 H];
                apply String.eqb_neq in H1
    end;
  clear H.

(** A branch [bind (...) (fun v => Some (set_fact key v info))] of a
    line reader, and its relatives. *)
Ltac keep_key :=
  repeat match goal with
    | |- context [get_fact _ (set_fact _ _ _)] =>
        rewrite get_set_other by congruence
    end;
  try reflexivity.

Ltac line_branch :=
  match goal with
  | H : bind ?o _ = Some _ |- _ =>
      destruct o; simpl in H; [|discriminate]; line_branch
  | H : Some _ = Some _ |- _ => injection H as <-; keep_key
  end.

Section Frames.
Variable format_float0 : string -> option string.
Variable set_elements : list string -> list string.
Variable m : machine.
Variable k : string.

Lemma lscpu_line_keeps (line : string) (st st' : fact_table) :
  outside k cpu_keys = true ->
  lscpu_line format_float0 line st = Some st' -> get_fact k st' = get_fact k st.
Proof.
  intros Hk H. split_outside Hk. unfold lscpu_line in H.
  repeat match type of H with
    | (if ?c then _ else _) = _ => destruct c
    end; line_branch.
Qed.

Lemma cpu_stage_keeps :
  outside k cpu_keys = true -> keeps k (cpu_stage format_float0 m).
Proof.
  intros Hk info. unfold cpu_stage, cpu_except.
  pose proof (try_each_keeps k (lscpu_line format_float0)) as Hl.
  destruct (lscpu m) as [text|].
  - specialize (Hl (lines text)
                   (fun x st st' => lscpu_line_keeps x st st' Hk) info).
    destruct (try_each (lscpu_line format_float0) (lines text) info)
      as [info' []]; simpl in Hl; [|exact Hl].
    split_outside Hk. now rewrite get_set_other.
  - split_outside Hk. now rewrite get_set_other.
Qed.

Lemma memory_facts_keeps (d : dimms) :
  outside k memory_keys = true -> keeps k (memory_facts set_elements d).
Proof.
  intros Hk info. split_outside Hk. unfold memory_facts.
  destruct (types d), (speeds d), (sizes d); keep_key.
Qed.

Lemma memory_stage_keeps :
  outside k memory_keys = true -> keeps k (memory_stage set_elements m).
Proof.
  intros Hk info. unfold memory_stage.
  destruct (in_docker m); [reflexivity|].
  destruct (dmidecode m); [|reflexivity].
  destruct (try_each _ _ _) as [d []]; [reflexivity|].
  now apply memory_facts_keeps.
Qed.

Lemma nvme_lines_keeps (base : string) (l : list string) :
  outside k drive_keys = true -> keeps k (nvme_lines base l).
Proof.
  intros Hk. split_outside Hk.
  induction l as [|line rest IH]; intros info; cbn [nvme_lines];
    [reflexivity|].
  repeat match goal with
    | |- context [if ?c then _ else _] => destruct c
    | |- context [match ?o with Some _ => _ | None => _ end] => destruct o
    end; try apply IH; keep_key.
Qed.

Lemma nvme_probe_keeps (base : string) :
  outside k drive_keys = true -> keeps k (nvme_probe m base).
Proof.
  intros Hk info. unfold nvme_probe.
  destruct (contains "nvme" base); [|reflexivity].
  destruct (nvme_list m); [|reflexivity].
  now apply nvme_lines_keeps.
Qed.

Lemma smart_line_keeps (line : string) (st st' : fact_table) :
  outside k drive_keys = true ->
  smart_line line st = Some st' -> get_fact k st' = get_fact k st.
Proof.
  intros Hk H. split_outside Hk. unfold smart_line in H.
  repeat match type of H with
    | (if ?c then _ else _) = _ => destruct c
    end; line_branch.
Qed.

Lemma smart_probe_keeps (base : string) :
  outside k drive_keys = true -> keeps k (smart_probe m base).
Proof.
  intros Hk info. unfold smart_probe.
  destruct (smartctl m base); [|reflexivity].
  apply try_each_keeps. intros x st st'. now apply smart_line_keeps.
Qed.

Lemma lshw_line_keeps (line : string) (st st' : fact_table) :
  outside k drive_keys = true ->
  lshw_line line st = Some st' -> get_fact k st' = get_fact k st.
Proof.
  intros Hk H. split_outside Hk. unfold lshw_line in H.
  repeat match type of H with
    | (if ?c then _ else _) = _ => destruct c
    end; line_branch.
Qed.

Lemma lshw_lines_keeps (base : string) (l : list string) (finish_up : bool) :
  outside k drive_keys = true -> keeps k (lshw_lines base l finish_up).
Proof.
  intros Hk. revert finish_up.
  induction l as [|line rest IH]; intros finish_up info; cbn [lshw_lines];
    [reflexivity|].
  destruct (lshw_line line info) as [info'|] eqn:E; [|reflexivity].
  pose proof (lshw_line_keeps line info info' Hk E) as Hl.
  repeat match goal with
    | |- context [if ?c then _ else _] => destruct c
    end; rewrite ?IH; exact Hl.
Qed.

Lemma lshw_probe_keeps (base : string) :
  outside k drive_keys = true -> keeps k (lshw_probe m base).
Proof.
  intros Hk info. unfold lshw_probe.
  destruct (lshw m); [|reflexivity]. now apply lshw_lines_keeps.
Qed.

Lemma host_fallbacks_keeps (base : string) :
  outside k drive_keys = true -> keeps k (host_fallbacks m base).
Proof.
  intros Hk info. unfold host_fallbacks.
  destruct (_ && _); [|reflexivity].
  now rewrite lshw_probe_keeps, smart_probe_keeps.
Qed.

Lemma lsblk_facts_keeps (parts : list string) :
  outside k drive_keys = true -> keeps k (lsblk_facts parts).
Proof.
  intros Hk info. split_outside Hk. unfold lsblk_facts.
  repeat match goal with
    | |- context [if ?c then _ else _] => destruct c
    | |- context [match ?o with Some _ => _ | None => _ end] => destruct o
    end; keep_key.
Qed.

Lemma lsblk_probe_keeps (base : string) :
  outside k drive_keys = true -> keeps k (lsblk_probe m base).
Proof.
  intros Hk info. unfold lsblk_probe.
  destruct (has_fact _ info); [reflexivity|].
  destruct (lsblk m base); [|reflexivity]. now apply lsblk_facts_keeps.
Qed.

Lemma drive_probes_keeps (base : string) :
  outside k drive_keys = true -> keeps k (drive_probes m base).
Proof.
  intros Hk info. unfold drive_probes.
  now rewrite lsblk_probe_keeps, host_fallbacks_keeps, nvme_probe_keeps.
Qed.

Lemma docker_stage_keeps :
  outside k docker_keys = true -> keeps k (docker_stage m).
Proof.
  intros Hk info. split_outside Hk. unfold docker_stage.
  destruct (docker_version m), (in_docker m), (hostname m); keep_key.
Qed.
End Frames.

(** ** Lines with a colon *)

Lemma prefix_has_char (c : ascii) (sub s : string) :
  String.prefix sub s = true -> has_char c sub = true -> has_char c s = true.
Proof.
  revert s. induction sub as [|a sub IH]; intros s Hp Hc; [discriminate|].
  destruct s as [|b s]; [discriminate|]. simpl in *.
  destruct (ascii_dec a b) as [->|]; [|discriminate].
  destruct (Ascii.eqb b c); [reflexivity|]. simpl in *. now apply IH.
Qed.

Lemma contains_has_char (c : ascii) (sub s : string) :
  contains sub s = true -> has_char c sub = true -> has_char c s = true.
Proof.
  intros Hs Hc. induction s as [|b s IH].
  - simpl in Hs. rewrite orb_false_r in Hs.
    now apply (prefix_has_char c sub "").
  - cbn [contains] in Hs. apply orb_true_iff in Hs as [Hp|Hs].
    + now apply (prefix_has_char c sub).
    + simpl. rewrite (IH Hs). apply orb_true_r.
Qed.

Lemma split_item1 (sep : ascii) (s : string) :
  has_char sep s = true -> item1 (split sep s) <> None.
Proof.
  induction s as [|c s IH]; simpl; [discriminate|].
  destruct (Ascii.eqb c sep); simpl.
  - intros _. destruct s as [|c' s]; simpl; [discriminate|].
    destruct (Ascii.eqb c' sep); [discriminate|].
    destruct (split sep s); discriminate.
  - intros H. specialize (IH H).
    destruct (split sep s) as [|h t]; [exact IH|exact IH].
Qed.

Lemma split1_item1 (sep : ascii) (s : string) :
  has_char sep s = true -> item1 (split1 sep s) <> None.
Proof.
  induction s as [|c s IH]; simpl; [discriminate|].
  destruct (Ascii.eqb c sep); simpl; [discriminate|].
  intros H. specialize (IH H).
  destruct (split1 sep s) as [|h t]; [exact IH|exact IH].
Qed.

Lemma after_colon_some (sub line : string) :
  has_char ":" sub = true -> contains sub line = true ->
  after_colon line <> None /\ after_colon1 line <> None.
Proof.
  intros Hsub Hline.
  pose proof (contains_has_char ":" sub line Hline Hsub) as Hc.
  unfold after_colon, after_colon1.
  pose proof (split_item1 ":" line Hc). pose proof (split1_item1 ":" line Hc).
  destruct (item1 (split ":" line)), (item1 (split1 ":" line));
    simpl; split; congruence.
Qed.

(** The only line of [lscpu] that raises is a [CPU MHz:] line (that is
    not a [Model name:] line) whose value [float] rejects. *)
Lemma lscpu_line_raises (format_float0 : string -> option string)
      (line : string) (st : fact_table) :
  lscpu_line format_float0 line st = None <->
  contains "Model name:" line = false
  /\ contains "CPU MHz:" line = true
  /\ exists v, after_colon line = Some v /\ format_float0 v = None.
Proof.
  unfold lscpu_line.
  repeat match goal with
    | |- context [if contains ?p line then _ else _] =>
        let E := fresh "E" in
        destruct (contains p line) eqn:E;
        [ destruct (after_colon_some p line eq_refl E) as [? ?] | ]
    end;
  repeat match goal with
    | H : ?o <> None |- context [bind ?o _] =>
        destruct o; [clear H|contradiction]
    end; cbn [bind];
  try (split; [discriminate|intros (? & ? & _); discriminate]).
  - match goal with
    | |- context [format_float0 ?v] =>
        destruct (format_float0 v) eqn:Ef; cbn [bind];
        [ split; [discriminate|];
          intros (_ & _ & v' & [= <-] & Hv); congruence
        | split; [|reflexivity]; intros _; repeat split; now exists v ]
    end.
Qed.

(** No line of [dmidecode], [smartctl] or [lshw] raises: a line that
    fits no branch is passed over. *)
Lemma dmidecode_line_total (line : string) (d : dimms) :
  dmidecode_line line d <> None.
Proof.
  unfold dmidecode_line.
  repeat match goal with
    | |- context [contains ?p line && _] =>
        let E := fresh "E" in
        destruct (contains p line) eqn:E; cbn [andb];
        [ destruct (after_colon_some p line eq_refl E) as [? _] | ]
    end;
  repeat match goal with
    | |- context [if ?c then _ else _] => destruct c
    end;
  repeat match goal with
    | H : ?o <> None |- context [bind ?o _] =>
        destruct o; [clear H|contradiction]
    end; cbn [bind]; discriminate.
Qed.

Lemma smart_line_total (line : string) (st : fact_table) :
  smart_line line st <> None.
Proof.
  unfold smart_line.
  destruct (contains "Device Model:" line) eqn:E1; cbn [orb].
  - destruct (after_colon_some "Device Model:" line eq_refl E1) as [_ H].
    destruct (after_colon1 line); [discriminate|contradiction].
  - destruct (contains "Model Number:" line) eqn:E2.
    + destruct (after_colon_some "Model Number:" line eq_refl E2) as [_ H].
      destruct (after_colon1 line); [discriminate|contradiction].
    + destruct (contains "Rotation Rate:" line) eqn:E3; [|discriminate].
      destruct (contains "Solid State" line); [discriminate|].
      destruct (after_colon_some "Rotation Rate:" line eq_refl E3) as [H _].
      destruct (after_colon line); [discriminate|contradiction].
Qed.

Lemma lshw_line_total (line : string) (st : fact_table) :
  lshw_line line st <> None.
Proof.
  unfold lshw_line.
  destruct (contains "product:" line) eqn:E1.
  - destruct (after_colon_some "product:" line eq_refl E1) as [_ H].
    destruct (after_colon1 line); [discriminate|contradiction].
  - destruct (contains "vendor:" line) eqn:E2; cbn [andb].
    + destruct (after_colon_some "vendor:" line eq_refl E2) as [_ H].
      destruct (has_fact "Drive Model" st);
        [destruct (after_colon1 line); [discriminate|contradiction]|].
      destruct (contains "size:" line) eqn:E3; cbn [andb]; discriminate.
    + destruct (contains "size:" line) eqn:E3; cbn [andb]; [|discriminate].
      destruct (after_colon_some "size:" line eq_refl E3) as [_ H].
      destruct (has_fact "Drive Model" st); [|discriminate].
      destruct (after_colon1 line); [discriminate|contradiction].
Qed.

(** ** The table of a whole run *)

Section Run.
Variable format_float0 : string -> option string.
Variable set_elements : list string -> list string.
Variable m : machine.

Let final : fact_table := get_system_info format_float0 set_elements m.
Let start : fact_table := before_drive format_float0 set_elements m.

Lemma drive_stage_keeps (k : string) :
  outside k ("Drive" :: drive_keys) = true -> keeps k (drive_stage m).
Proof.
  intros Hk info.
  assert (Hd : outside k drive_keys = true).
  { unfold outside in *. simpl in *.
    destruct (String.eqb k "Drive"); [discriminate|exact Hk]. }
  unfold drive_stage.
  destruct (mount_lookup m) as [[device fstype]|].
  - destruct (contains "/dev/" device).
    + rewrite drive_probes_keeps by assumption.
      split_outside Hd. now rewrite get_set_other.
    + split_outside Hd. now rewrite get_set_other.
  - split_outside Hk. now rewrite get_set_other.
Qed.

(** Facts of the CPU block are final. *)
Lemma final_cpu_fact (k : string) :
  outside k (["CPU Cores"; "CPU Threads"; "Memory Total"] ++ memory_keys
             ++ ["OS"; "Drive"] ++ drive_keys ++ docker_keys) = true ->
  get_fact k final = get_fact k (cpu_stage format_float0 m []).
Proof.
  intros Hk. unfold final, get_system_info, before_drive.
  assert (H1 : outside k docker_keys = true)
    by (revert Hk; unfold outside; simpl;
        repeat (destruct (String.eqb k _); try discriminate); reflexivity).
  assert (H2 : outside k ("Drive" :: drive_keys) = true)
    by (revert Hk; unfold outside; simpl;
        repeat (destruct (String.eqb k _); try discriminate); reflexivity).
  assert (H3 : outside k memory_keys = true)
    by (revert Hk; unfold outside; simpl;
        repeat (destruct (String.eqb k _); try discriminate); reflexivity).
  rewrite docker_stage_keeps, drive_stage_keeps by assumption.
  split_outside Hk.
  rewrite get_set_other by congruence.
  rewrite memory_stage_keeps by assumption.
  now rewrite !get_set_other by congruence.
Qed.

(** Facts of the drive block are final. *)
Lemma final_drive_fact (k : string) :
  outside k docker_keys = true ->
  get_fact k final = get_fact k (drive_stage m start).
Proof.
  intros Hk. unfold final, get_system_info.
  now rewrite docker_stage_keeps.
Qed.

(** No fact of the drive block is there when the block starts. *)
Lemma start_without (k : string) :
  outside k (cpu_keys ++ ["CPU Cores"; "CPU Threads"; "Memory Total"]
             ++ memory_keys ++ ["OS"]) = true ->
  get_fact k start = None.
Proof.
  intros Hk. unfold start, before_drive.
  assert (H1 : outside k cpu_keys = true)
    by (revert Hk; unfold outside; simpl;
        repeat (destruct (String.eqb k _); try discriminate); reflexivity).
  assert (H2 : outside k memory_keys = true)
    by (revert Hk; unfold outside; simpl;
        repeat (destruct (String.eqb k _); try discriminate); reflexivity).
  split_outside Hk.
  rewrite get_set_other by congruence.
  rewrite memory_stage_keeps by assumption.
  rewrite !get_set_other by congruence.
  now rewrite cpu_stage_keeps.
Qed.

(** The memory keys of the final table are those of the memory block. *)
Lemma final_memory_fact (k : string) :
  In k memory_keys ->
  get_fact k final =
    get_fact k (memory_stage set_elements m
                  (set_fact "Memory Total" (memory_total m)
                     (set_fact "CPU Threads" (cpu_threads m)
                        (set_fact "CPU Cores" (cpu_cores m)
                           (cpu_stage format_float0 m []))))).
Proof.
  intros Hk. unfold final, get_system_info, before_drive.
  simpl in Hk.
  destruct Hk as [<-|[<-|[<-|[]]]];
    (rewrite docker_stage_keeps by reflexivity;
     rewrite drive_stage_keeps by reflexivity;
     now rewrite get_set_other by discriminate).
Qed.
End Run.

(* ================================================================== *)
(** ** Fingerprinter: a line of [lscpu] that does not parse *)

(** C2, as stated, fails: on the host of the examples [lscpu] prints a
    model name, a cache size, a [CPU MHz] that is no number and another
    cache size.  The model name that was read is replaced by the value
    of [platform.processor()], and the cache size after the bad line is
    missing, although both lines parse. *)
Lemma lscpu_failure_replaces_model :
  lscpu_line sample_float0 "Model name:    Xeon E5" [] = Some [("CPU Model", "Xeon E5")]
  /\ lscpu_line sample_float0 "CPU MHz:       abc" [] = None
  /\ lscpu_line sample_float0 "L2 cache:      1 MiB" [] = Some [("L2 Cache", "1 MiB")]
  /\ get_fact "CPU Model" sample_info = Some "x86_64"
  /\ get_fact "L1d Cache" sample_info = Some "32 KiB"
  /\ get_fact "L2 Cache" sample_info = None.
Proof. repeat split; vm_compute; reflexivity. Qed.

Lemma try_each_app {S X} (body : X -> S -> option S) (l1 l2 : list X) (st : S) :
  try_each body (l1 ++ l2) st =
    match try_each body l1 st with
    | (st', false) => try_each body l2 st'
    | (st', true) => (st', true)
    end.
Proof.
  revert st. induction l1 as [|x l1 IH]; intros st; simpl; [reflexivity|].
  destruct (body x st); [apply IH|reflexivity].
Qed.

(** C2, amended: the only line of a tool's output whose parsing can
    fail is a [CPU MHz] line of [lscpu] with a value that is no number
    (no line of [dmidecode], [smartctl] or [lshw] fails).  When there is
    one, reading stops at it: the facts of the lines before it stay in
    the table, except that "CPU Model" is set to the value of the OS API
    (or "Unknown"), also when a model name had been read; the facts of
    the lines after it are not read. *)
Theorem lscpu_failure_stops_reading :
  forall (format_float0 : string -> option string)
         (set_elements : list string -> list string) (m : machine),
    let final := get_system_info format_float0 set_elements m in
    (forall line st,
        lscpu_line format_float0 line st = None <->
        contains "Model name:" line = false
        /\ contains "CPU MHz:" line = true
        /\ exists v, after_colon line = Some v /\ format_float0 v = None)
    /\ (forall text before bad after read,
           lscpu m = Some text ->
           lines text = before ++ bad :: after ->
           try_each (lscpu_line format_float0) before [] = (read, false) ->
           lscpu_line format_float0 bad read = None ->
           get_fact "CPU Model" final = Some (cpu_fallback m)
           /\ (forall k, In k cpu_keys -> k <> "CPU Model" ->
                         get_fact k final = get_fact k read))
    /\ (forall line d, dmidecode_line line d <> None)
    /\ (forall line st, smart_line line st <> None)
    /\ (forall line st, lshw_line line st <> None).
Proof.
  intros f s m final.
  split; [intros line st; apply lscpu_line_raises|].
  split; [|split; [exact dmidecode_line_total|
                   split; [exact smart_line_total|exact lshw_line_total]]].
  intros text before bad after read Hl Hlines Hread Hbad.
  assert (Hstage : cpu_stage f m [] = set_fact "CPU Model" (cpu_fallback m) read).
  { unfold cpu_stage, cpu_except. rewrite Hl, Hlines, try_each_app, Hread.
    simpl. now rewrite Hbad. }
  split.
  - unfold final. rewrite final_cpu_fact by reflexivity.
    rewrite Hstage. apply get_set_same.
  - intros k Hk Hne. unfold final.
    rewrite final_cpu_fact.
    + rewrite Hstage. apply get_set_other. congruence.
    + simpl in Hk.
      destruct Hk as [<-|[<-|[<-|[<-|[<-|[<-|[]]]]]]]; reflexivity.
Qed.

Lemma lscpu_failure_stops_reading_witness :
  get_fact "CPU Model" sample_info = Some (cpu_fallback sample_host)
  /\ get_fact "L1d Cache" sample_info = Some "32 KiB"
  /\ get_fact "L2 Cache" sample_info = None.
Proof.
  destruct (lscpu_failure_stops_reading sample_float0 sample_set sample_host)
    as (_ & Hstop & _).
  destruct (Hstop
              (text_of ["Architecture:  x86_64"; "Model name:    Xeon E5";
                        "L1d cache:     32 KiB"; "CPU MHz:       abc";
                        "L2 cache:      1 MiB"])
              ["Architecture:  x86_64"; "Model name:    Xeon E5";
               "L1d cache:     32 KiB"]
              "CPU MHz:       abc"
              ["L2 cache:      1 MiB"]
              [("CPU Model", "Xeon E5"); ("L1d Cache", "32 KiB")]
              eq_refl eq_refl eq_refl eq_refl) as (Hmodel & Hrest).
  split; [exact Hmodel|]. unfold sample_info. split.
  - rewrite (Hrest "L1d Cache"); [reflexivity|simpl; tauto|discriminate].
  - rewrite (Hrest "L2 Cache"); [reflexivity|simpl; tauto|discriminate].
Defined.

(* ================================================================== *)
(** ** Fingerprinter: the drive chain *)

(** C1, as stated, fails: on the host of the examples [smartctl] sets
    the drive model, [lshw] runs all the same (it adds the vendor), and
    its product line replaces the model. *)
Lemma lshw_replaces_smart_model :
  mount_lookup sample_host = Some ("/dev/sda1", "ext4")
  /\ base_device_of "/dev/sda1" = "/dev/sda"
  /\ get_fact "Drive Model"
       (smart_probe sample_host "/dev/sda"
          (nvme_probe sample_host "/dev/sda" sample_start))
     = Some "WDC WD10"
  /\ get_fact "Drive Model" sample_info = Some "ST1000DM"
  /\ get_fact "Drive Vendor" sample_info = Some "Seagate".
Proof. repeat split; vm_compute; reflexivity. Qed.

Lemma has_fact_get (k : string) (info : fact_table) :
  has_fact k info = true <-> exists v, get_fact k info = Some v.
Proof.
  unfold has_fact. destruct (get_fact k info) as [v|].
  - split; [now exists v|reflexivity].
  - split; [discriminate|now intros [v Hv]].
Qed.

(** C1, amended: in the drive chain the NVMe lister comes first; the
    SMART inspector and the hardware lister run, one after the other,
    only when the NVMe lister left the drive model unset and the run is
    on a host (the hardware lister runs whether or not the SMART
    inspector set the model); the generic block-device lister runs only
    when all of them left the model unset.  So a model set by the NVMe
    lister, and a model in the table when the generic lister is reached,
    are the model of the final table. *)
Theorem drive_model_precedence :
  forall (format_float0 : string -> option string)
         (set_elements : list string -> list string) (m : machine)
         (device fstype : string),
    mount_lookup m = Some (device, fstype) ->
    contains "/dev/" device = true ->
    let final := get_system_info format_float0 set_elements m in
    let base := base_device_of device in
    let table0 :=
      set_fact "Filesystem" fstype (before_drive format_float0 set_elements m) in
    let table1 := nvme_probe m base table0 in
    let table2 := host_fallbacks m base table1 in
    let table3 := lsblk_probe m base table2 in
    get_fact "Drive Model" final = get_fact "Drive Model" table3
    /\ (has_fact "Drive Model" table1 = true -> table2 = table1 /\ table3 = table1)
    /\ (in_docker m = true -> table2 = table1)
    /\ (has_fact "Drive Model" table1 = false -> in_docker m = false ->
        table2 = lshw_probe m base (smart_probe m base table1))
    /\ (has_fact "Drive Model" table2 = true -> table3 = table2)
    /\ (forall v, get_fact "Drive Model" table1 = Some v ->
                  get_fact "Drive Model" final = Some v)
    /\ (forall v, get_fact "Drive Model" table2 = Some v ->
                  get_fact "Drive Model" final = Some v).
Proof.
  intros f s m device fstype Hmount Hdev final base table0 table1 table2 table3.
  assert (Hfinal : get_fact "Drive Model" final = get_fact "Drive Model" table3).
  { unfold final. rewrite final_drive_fact by reflexivity.
    unfold drive_stage. rewrite Hmount, Hdev. reflexivity. }
  assert (H1 : has_fact "Drive Model" table1 = true ->
               table2 = table1 /\ table3 = table1).
  { intros H. assert (E : table2 = table1).
    { unfold table2, host_fallbacks. now rewrite H. }
    split; [exact E|]. unfold table3, lsblk_probe. rewrite E. now rewrite H. }
  assert (H2 : has_fact "Drive Model" table2 = true -> table3 = table2).
  { intros H. unfold table3, lsblk_probe. now rewrite H. }
  split; [exact Hfinal|]. split; [exact H1|]. split; [|split; [|split; [|split]]].
  - intros Hd. unfold table2, host_fallbacks. rewrite Hd.
    now rewrite andb_false_r.
  - intros Hn Hd. unfold table2, host_fallbacks. now rewrite Hn, Hd.
  - exact H2.
  - intros v Hv. rewrite Hfinal.
    destruct H1 as [_ ->]; [|exact Hv].
    apply has_fact_get. now exists v.
  - intros v Hv. rewrite Hfinal, H2; [exact Hv|].
    apply has_fact_get. now exists v.
Qed.

Lemma drive_model_precedence_witness :
  get_fact "Drive Model" (get_system_info sample_float0 sample_set nvme_host)
  = Some "Samsung SSD 970".
Proof.
  destruct (drive_model_precedence sample_float0 sample_set nvme_host
              "/dev/nvme0n1p2" "ext4" eq_refl eq_refl)
    as (_ & _ & _ & _ & _ & Hnvme & _).
  apply Hnvme. vm_compute. reflexivity.
Defined.

(* ================================================================== *)
(** ** Fingerprinter: the sentinel of the drive block *)

(** C9, as stated, fails: where [df] answers and every drive probe
    fails, no drive model, type or capacity is known and there is no
    sentinel; and the CPU block, whose probe fails too, leaves the
    placeholder "Unknown". *)
Lemma no_drive_fact_and_no_sentinel :
  get_fact "Drive Model" silent_info = None
  /\ get_fact "Drive Type" silent_info = None
  /\ get_fact "Drive Capacity" silent_info = None
  /\ get_fact "Drive" silent_info = None
  /\ get_fact "CPU Model" silent_info = Some "Unknown".
Proof. repeat split; vm_compute; reflexivity. Qed.

(** C9, amended: the table has the entry "Drive" = "Unknown" exactly
    when the lookup of the benchmark directory fails ([df] or [df -T]
    raises, or its second line has no device or type field); then the
    table has no fact of the drive block, so the sentinel is absent
    whenever one was determined; when the lookup succeeds there is no
    sentinel, whatever the drive probes found.  A failing memory probe
    leaves no key and no placeholder; a failing CPU probe leaves
    "CPU Model" with the value of the OS API or "Unknown", and a failing
    Docker probe leaves "Docker" = "Not detected". *)
Theorem drive_sentinel_cases :
  forall (format_float0 : string -> option string)
         (set_elements : list string -> list string) (m : machine),
    let final := get_system_info format_float0 set_elements m in
    (get_fact "Drive" final = Some "Unknown" <-> mount_lookup m = None)
    /\ (has_fact "Drive" final = true <-> mount_lookup m = None)
    /\ (mount_lookup m = None ->
        forall k, In k drive_keys -> get_fact k final = None)
    /\ (forall k, In k drive_keys -> has_fact k final = true ->
                  has_fact "Drive" final = false)
    /\ (in_docker m = true \/ dmidecode m = None ->
        forall k, In k memory_keys -> get_fact k final = None)
    /\ (lscpu m = None ->
        get_fact "CPU Model" final = Some (cpu_fallback m)
        /\ forall k, In k cpu_keys -> k <> "CPU Model" -> get_fact k final = None)
    /\ (platform_processor m = "" -> cpu_fallback m = "Unknown")
    /\ (docker_version m = None -> get_fact "Docker" final = Some "Not detected").
Proof.
  intros f s m final.
  assert (Hsentinel :
            get_fact "Drive" final =
              match mount_lookup m with None => Some "Unknown" | Some _ => None end).
  { unfold final. rewrite final_drive_fact by reflexivity. unfold drive_stage.
    destruct (mount_lookup m) as [[device fstype]|].
    - destruct (contains "/dev/" device).
      + rewrite drive_probes_keeps by reflexivity.
        rewrite get_set_other by discriminate. now apply start_without.
      + rewrite get_set_other by discriminate. now apply start_without.
    - apply get_set_same. }
  assert (Hnone : mount_lookup m = None ->
                  forall k, In k drive_keys -> get_fact k final = None).
  { intros Hm k Hk. unfold final. simpl in Hk.
    destruct Hk as [<-|[<-|[<-|[<-|[<-|[<-|[<-|[]]]]]]]];
      (rewrite final_drive_fact by reflexivity;
       unfold drive_stage; rewrite Hm;
       rewrite get_set_other by discriminate;
       now apply start_without). }
  split; [|split; [|split; [|split; [|split; [|split; [|split]]]]]].
  - rewrite Hsentinel. destruct (mount_lookup m); split; congruence.
  - unfold has_fact. rewrite Hsentinel.
    destruct (mount_lookup m); split; congruence.
  - exact Hnone.
  - intros k Hk Hhas. unfold has_fact in *. rewrite Hsentinel.
    destruct (mount_lookup m) eqn:Hm; [reflexivity|].
    now rewrite (Hnone eq_refl k Hk) in Hhas.
  - intros Hmem k Hk. unfold final.
    rewrite final_memory_fact by assumption.
    assert (E : forall info, memory_stage s m info = info).
    { intros info. unfold memory_stage.
      destruct Hmem as [->| ->]; [reflexivity|].
      now destruct (in_docker m). }
    rewrite E. simpl in Hk.
    destruct Hk as [<-|[<-|[<-|[]]]];
      (rewrite !get_set_other by discriminate;
       now rewrite cpu_stage_keeps). 
  - intros Hl.
    assert (E : cpu_stage f m [] = [("CPU Model", cpu_fallback m)]).
    { unfold cpu_stage. now rewrite Hl. }
    split.
    + unfold final. rewrite final_cpu_fact by reflexivity.
      rewrite E. reflexivity.
    + intros k Hk Hne. unfold final. simpl in Hk.
      destruct Hk as [<-|[<-|[<-|[<-|[<-|[<-|[]]]]]]];
        try congruence;
        (rewrite final_cpu_fact by reflexivity; rewrite E; reflexivity).
  - intros Hp. unfold cpu_fallback. now rewrite Hp.
  - intros Hd. unfold final, get_system_info, docker_stage. rewrite Hd.
    rewrite get_set_other by discriminate. apply get_set_same.
Qed.

(* ================================================================== *)
(** * Further properties of the script *)

(** ** Runs of assignments to the table *)

Lemma assign_all_app (a b : list (string * string)) (info : fact_table) :
  assign_all (a ++ b) info = assign_all b (assign_all a info).
Proof.
  revert info. induction a as [|[k v] a IH]; intros info; simpl; auto.
Qed.

Lemma reaches_refl (K : list string) (info : fact_table) : reaches K info info.
Proof. exists []. split; [reflexivity|constructor]. Qed.

Lemma reaches_trans (K : list string) (a b c : fact_table) :
  reaches K a b -> reaches K b c -> reaches K a c.
Proof.
  intros (k1 & -> & F1) (k2 & -> & F2). exists (k1 ++ k2).
  split; [now rewrite assign_all_app|]. now apply Forall_app.
Qed.

Lemma reaches_set (K : list string) (k v : string) (info : fact_table) :
  In k K -> reaches K info (set_fact k v info).
Proof.
  intros H. exists [(k, v)]. split; [reflexivity|]. now repeat constructor.
Qed.

Lemma reaches_weaken (K K' : list string) (a b : fact_table) :
  incl K K' -> reaches K a b -> reaches K' a b.
Proof.
  intros Hi (kvs & -> & F). exists kvs. split; [reflexivity|].
  eapply Forall_impl; [|exact F]. intros kv. apply Hi.
Qed.

Lemma try_each_reaches {X} (K : list string)
      (body : X -> fact_table -> option fact_table) (l : list X) :
  (forall x st st', body x st = Some st' -> reaches K st st') ->
  forall st, reaches K st (fst (try_each body l st)).
Proof.
  intros Hb. induction l as [|x rest IH]; intros st; simpl.
  - apply reaches_refl.
  - destruct (body x st) as [st'|] eqn:E; [|apply reaches_refl].
    eapply reaches_trans; [exact (Hb x st st' E)|apply IH].
Qed.

(** Close a goal [reaches K info (set_fact .. (set_fact .. info))] with
    literal keys. *)
Ltac in_keys := simpl; repeat first [left; reflexivity | right].

Ltac reach :=
  repeat first
    [ apply reaches_refl
    | eapply reaches_trans; [|apply reaches_set; in_keys] ].

Ltac reach_branch :=
  match goal with
  | H : bind ?o _ = Some _ |- _ =>
      destruct o; simpl in H; [|discriminate]; reach_branch
  | H : Some _ = Some _ |- _ => injection H as <-; reach
  end.

Ltac split_cases :=
  repeat match goal with
    | |- context [if ?c then _ else _] => destruct c
    | |- context [match ?o with Some _ => _ | None => _ end] => destruct o
    end.

Section Writes.
Variable format_float0 : string -> option string.
Variable set_elements : list string -> list string.
Variable m : machine.

Lemma lscpu_line_reaches (line : string) (st st' : fact_table) :
  lscpu_line format_float0 line st = Some st' -> reaches cpu_keys st st'.
Proof.
  intros H. unfold lscpu_line in H.
  repeat match type of H with
    | (if ?c then _ else _) = _ => destruct c
    end; reach_branch.
Qed.

Lemma cpu_stage_reaches (info : fact_table) :
  reaches cpu_keys info (cpu_stage format_float0 m info).
Proof.
  unfold cpu_stage, cpu_except.
  destruct (lscpu m) as [text|]; [|reach].
  pose proof (try_each_reaches cpu_keys (lscpu_line format_float0)
                (lines text) lscpu_line_reaches info) as H.
  destruct (try_each _ _ info) as [info' []]; simpl in H; [|exact H].
  eapply reaches_trans; [exact H|reach].
Qed.

Lemma memory_stage_reaches (info : fact_table) :
  reaches memory_keys info (memory_stage set_elements m info).
Proof.
  unfold memory_stage, memory_facts.
  destruct (in_docker m); [reach|].
  destruct (dmidecode m); [|reach].
  destruct (try_each _ _ _) as [d []]; [reach|].
  destruct (types d), (speeds d), (sizes d); reach.
Qed.

Lemma nvme_lines_reaches (base : string) (l : list string) (info : fact_table) :
  reaches probe_keys info (nvme_lines base l info).
Proof.
  revert info. induction l as [|line rest IH]; intros info; cbn [nvme_lines];
    [reach|].
  split_cases; try apply IH; reach.
Qed.

Lemma nvme_probe_reaches (base : string) (info : fact_table) :
  reaches probe_keys info (nvme_probe m base info).
Proof.
  unfold nvme_probe. split_cases; try apply nvme_lines_reaches; reach.
Qed.

Lemma smart_line_reaches (line : string) (st st' : fact_table) :
  smart_line line st = Some st' -> reaches probe_keys st st'.
Proof.
  intros H. unfold smart_line in H.
  repeat match type of H with
    | (if ?c then _ else _) = _ => destruct c
    end; reach_branch.
Qed.

Lemma smart_probe_reaches (base : string) (info : fact_table) :
  reaches probe_keys info (smart_probe m base info).
Proof.
  unfold smart_probe. destruct (smartctl m base); [|reach].
  apply try_each_reaches. exact smart_line_reaches.
Qed.

Lemma lshw_line_reaches (line : string) (st st' : fact_table) :
  lshw_line line st = Some st' -> reaches probe_keys st st'.
Proof.
  intros H. unfold lshw_line in H.
  repeat match type of H with
    | (if ?c then _ else _) = _ => destruct c
    end; reach_branch.
Qed.

Lemma lshw_lines_reaches (base : string) (l : list string) (finish_up : bool)
      (info : fact_table) :
  reaches probe_keys info (lshw_lines base l finish_up info).
Proof.
  revert finish_up info.
  induction l as [|line rest IH]; intros finish_up info; cbn [lshw_lines];
    [reach|].
  destruct (lshw_line line info) as [info'|] eqn:E; [|reach].
  pose proof (lshw_line_reaches line info info' E) as Hl.
  repeat match goal with
    | |- context [if ?c then _ else _] => destruct c
    end; try exact Hl; (eapply reaches_trans; [exact Hl|apply IH]).
Qed.

Lemma lshw_probe_reaches (base : string) (info : fact_table) :
  reaches probe_keys info (lshw_probe m base info).
Proof.
  unfold lshw_probe. destruct (lshw m); [|reach]. apply lshw_lines_reaches.
Qed.

Lemma host_fallbacks_reaches (base : string) (info : fact_table) :
  reaches probe_keys info (host_fallbacks m base info).
Proof.
  unfold host_fallbacks. destruct (_ && _); [|reach].
  eapply reaches_trans; [apply smart_probe_reaches|apply lshw_probe_reaches].
Qed.

Lemma lsblk_facts_reaches (parts : list string) (info : fact_table) :
  reaches probe_keys info (lsblk_facts parts info).
Proof. unfold lsblk_facts. split_cases; reach. Qed.

Lemma lsblk_probe_reaches (base : string) (info : fact_table) :
  reaches probe_keys info (lsblk_probe m base info).
Proof.
  unfold lsblk_probe. destruct (has_fact _ info); [reach|].
  destruct (lsblk m base); [|reach]. apply lsblk_facts_reaches.
Qed.

Lemma drive_probes_reaches (base : string) (info : fact_table) :
  reaches probe_keys info (drive_probes m base info).
Proof.
  unfold drive_probes.
  eapply reaches_trans; [apply nvme_probe_reaches|].
  eapply reaches_trans; [apply host_fallbacks_reaches|apply lsblk_probe_reaches].
Qed.

Lemma drive_stage_reaches (info : fact_table) :
  reaches ("Drive" :: drive_keys) info (drive_stage m info).
Proof.
  unfold drive_stage.
  destruct (mount_lookup m) as [[device fstype]|]; [|reach].
  destruct (contains "/dev/" device); [|reach].
  apply reaches_trans with (set_fact "Filesystem" fstype info);
    [apply reaches_set; in_keys|].
  eapply reaches_weaken; [|apply drive_probes_reaches].
  intros k Hk. right. right. exact Hk.
Qed.

Lemma docker_stage_reaches (info : fact_table) :
  reaches docker_keys info (docker_stage m info).
Proof.
  unfold docker_stage.
  destruct (docker_version m), (in_docker m), (hostname m); reach.
Qed.
End Writes.

(** ** What a run of assignments does to the keys *)

Lemma has_fact_keys (k : string) (info : fact_table) :
  has_fact k info = true <-> In k (keys info).
Proof.
  unfold has_fact, keys. induction info as [|[k' v'] t IH]; simpl.
  - split; [discriminate|tauto].
  - destruct (String.eqb k' k) eqn:E.
    + apply String.eqb_eq in E. tauto.
    + apply String.eqb_neq in E. rewrite IH. tauto.
Qed.

Lemma keys_set_fact (k v : string) (info : fact_table) :
  keys (set_fact k v info) =
    if has_fact k info then keys info else keys info ++ [k].
Proof.
  unfold has_fact, keys. induction info as [|[k' v'] t IH]; simpl.
  - reflexivity.
  - destruct (String.eqb k' k) eqn:E; simpl.
    + apply String.eqb_eq in E. now subst.
    + rewrite IH. now destruct (get_fact k t).
Qed.

Lemma keys_set_new (k v : string) (info : fact_table) :
  ~ In k (keys info) -> keys (set_fact k v info) = keys info ++ [k].
Proof.
  intros H. rewrite keys_set_fact.
  destruct (has_fact k info) eqn:E; [|reflexivity].
  now apply has_fact_keys in E.
Qed.

Lemma reaches_keys (K : list string) (a b : fact_table) :
  reaches K a b ->
  exists added,
    keys b = keys a ++ added /\ incl added K /\ NoDup added
    /\ forall k, In k added -> ~ In k (keys a).
Proof.
  intros (kvs & -> & F). revert a.
  induction F as [|[k v] kvs Hk F IH]; intros a; simpl.
  - exists []. rewrite app_nil_r. repeat split; try constructor.
    + intros k [].
    + intros k [].
  - destruct (IH (set_fact k v a)) as (added & E & Hi & Hn & Hd).
    rewrite keys_set_fact in E, Hd.
    destruct (has_fact k a) eqn:Ea.
    + exists added. tauto.
    + exists (k :: added). rewrite E, <- app_assoc. simpl in *.
      assert (Hka : ~ In k (keys a)).
      { intros H. apply has_fact_keys in H. congruence. }
      split; [reflexivity|]. split; [|split].
      * intros x [<-|Hx]; [exact Hk|now apply Hi].
      * constructor; [|exact Hn].
        intros H. apply (Hd k H). apply in_or_app. right. now left.
      * intros x [<-|Hx]; [exact Hka|].
        intros H. apply (Hd x Hx). apply in_or_app. now left.
Qed.

Lemma reaches_NoDup (K : list string) (a b : fact_table) :
  reaches K a b -> NoDup (keys a) -> NoDup (keys b).
Proof.
  intros H Ha. destruct (reaches_keys K a b H) as (added & -> & _ & Hn & Hd).
  apply NoDup_app; try assumption.
  intros k Hk Hk'. now apply (Hd k Hk').
Qed.

Lemma reaches_get (K : list string) (k : string) (a b : fact_table) :
  reaches K a b -> ~ In k K -> get_fact k b = get_fact k a.
Proof.
  intros (kvs & -> & F) Hk. revert a.
  induction F as [|[k' v] kvs Hk' F IH]; intros a; simpl; [reflexivity|].
  rewrite IH. apply get_set_other. simpl in Hk'. congruence.
Qed.

(** No assignment removes a key. *)
Lemma reaches_has (K : list string) (k : string) (a b : fact_table) :
  reaches K a b -> has_fact k a = true -> has_fact k b = true.
Proof.
  intros H Ha. destruct (reaches_keys K a b H) as (added & E & _).
  apply has_fact_keys. rewrite E. apply in_or_app. left.
  now apply has_fact_keys.
Qed.

(** ** The keys of the final table *)

Lemma get_system_info_reaches (format_float0 : string -> option string)
      (set_elements : list string -> list string) (m : machine) :
  reaches all_keys [] (get_system_info format_float0 set_elements m).
Proof.
  unfold get_system_info, before_drive.
  assert (W : forall K a b, incl K all_keys ->
                            reaches K a b -> reaches all_keys a b)
    by (intros K a b Hi; now apply reaches_weaken).
  assert (I1 : incl docker_keys all_keys) by (intros k Hk; simpl in *; tauto).
  assert (I2 : incl ("Drive" :: drive_keys) all_keys)
    by (intros k Hk; simpl in *; tauto).
  assert (I3 : incl memory_keys all_keys) by (intros k Hk; simpl in *; tauto).
  assert (I4 : incl cpu_keys all_keys) by (intros k Hk; simpl in *; tauto).
  eapply reaches_trans; [|apply (W _ _ _ I1); apply docker_stage_reaches].
  eapply reaches_trans; [|apply (W _ _ _ I2); apply drive_stage_reaches].
  eapply reaches_trans; [|apply reaches_set; simpl; tauto].
  eapply reaches_trans; [|apply (W _ _ _ I3); apply memory_stage_reaches].
  eapply reaches_trans; [|apply reaches_set; simpl; tauto].
  eapply reaches_trans; [|apply reaches_set; simpl; tauto].
  eapply reaches_trans; [|apply reaches_set; simpl; tauto].
  apply (W _ _ _ I4); apply cpu_stage_reaches.
Qed.

(** A key of one block is no key of the lists before it. *)
Ltac fresh_key :=
  rewrite ?in_app_iff; simpl;
  repeat match goal with
    | Hi : incl ?l _ |- context [In ?k ?l] =>
        let H := fresh in
        assert (H : ~ In k l)
          by (let X := fresh in
              intros X; apply Hi in X; simpl in X; intuition discriminate);
        revert H; generalize (In k l); intros ? ?
    end;
  intuition discriminate.

(** X1: the keys of the fact table come block by block, in the order
    in which [get_system_info] runs its blocks: keys of the CPU probe,
    then "CPU Cores", "CPU Threads", "Memory Total", then keys of the
    memory probe, "OS", keys of the drive block and keys of the Docker
    block; every key is one of the fixed names of its block, and no key
    comes twice. *)
Theorem fact_table_layout :
  forall (format_float0 : string -> option string)
         (set_elements : list string -> list string) (m : machine),
  exists kc km kd kk,
    keys (get_system_info format_float0 set_elements m)
    = kc ++ ["CPU Cores"; "CPU Threads"; "Memory Total"] ++ km ++ ["OS"]
         ++ kd ++ kk
    /\ incl kc cpu_keys /\ incl km memory_keys
    /\ incl kd ("Drive" :: drive_keys) /\ incl kk docker_keys
    /\ NoDup (keys (get_system_info format_float0 set_elements m)).
Proof.
  intros f s m.
  pose proof (reaches_NoDup _ _ _ (get_system_info_reaches f s m)
                (NoDup_nil _)) as Hnd.
  revert Hnd. unfold get_system_info, before_drive. intros Hnd.
  destruct (reaches_keys _ _ _ (cpu_stage_reaches f m []))
    as (kc & Ec & Hc & _ & _). simpl in Ec.
  set (i0 := cpu_stage f m []) in *.
  assert (E1 : keys (set_fact "CPU Cores" (cpu_cores m) i0)
               = kc ++ ["CPU Cores"]).
  { rewrite keys_set_new; rewrite Ec; [reflexivity|fresh_key]. }
  set (i1 := set_fact "CPU Cores" (cpu_cores m) i0) in *.
  assert (E2 : keys (set_fact "CPU Threads" (cpu_threads m) i1)
               = kc ++ ["CPU Cores"; "CPU Threads"]).
  { rewrite keys_set_new; rewrite E1;
      [now rewrite <- app_assoc|fresh_key]. }
  set (i2 := set_fact "CPU Threads" (cpu_threads m) i1) in *.
  assert (E3 : keys (set_fact "Memory Total" (memory_total m) i2)
               = kc ++ ["CPU Cores"; "CPU Threads"; "Memory Total"]).
  { rewrite keys_set_new; rewrite E2;
      [now rewrite <- app_assoc|fresh_key]. }
  set (i3 := set_fact "Memory Total" (memory_total m) i2) in *.
  destruct (reaches_keys _ _ _ (memory_stage_reaches s m i3))
    as (km & Em & Hm & _ & _). rewrite E3 in Em.
  set (i4 := memory_stage s m i3) in *.
  assert (E5 : keys (set_fact "OS" (os_name m) i4)
               = (kc ++ ["CPU Cores"; "CPU Threads"; "Memory Total"]) ++ km
                 ++ ["OS"]).
  { rewrite keys_set_new; rewrite Em;
      [now rewrite <- app_assoc|fresh_key]. }
  set (i5 := set_fact "OS" (os_name m) i4) in *.
  destruct (reaches_keys _ _ _ (drive_stage_reaches m i5))
    as (kd & Ed & Hd & _ & _). rewrite E5 in Ed.
  set (i6 := drive_stage m i5) in *.
  destruct (reaches_keys _ _ _ (docker_stage_reaches m i6))
    as (kk & Ek & Hk & _ & _). rewrite Ed in Ek.
  exists kc, km, kd, kk.
  split; [|tauto]. rewrite Ek. rewrite <- !app_assoc. reflexivity.
Qed.

(** ** Facts that every run reports *)

(** X2: whatever the probes print or fail to do, the table gives the
    values of [psutil] and [platform] under "CPU Cores", "CPU Threads",
    "Memory Total" and "OS": no probe assigns one of these keys. *)
Theorem api_facts_always_reported :
  forall (format_float0 : string -> option string)
         (set_elements : list string -> list string) (m : machine),
    let final := get_system_info format_float0 set_elements m in
    get_fact "CPU Cores" final = Some (cpu_cores m)
    /\ get_fact "CPU Threads" final = Some (cpu_threads m)
    /\ get_fact "Memory Total" final = Some (memory_total m)
    /\ get_fact "OS" final = Some (os_name m).
Proof.
  intros f s m final. unfold final, get_system_info, before_drive.
  repeat split;
    rewrite docker_stage_keeps by reflexivity;
    rewrite drive_stage_keeps by reflexivity;
    rewrite ?get_set_same; try reflexivity;
    rewrite get_set_other by discriminate;
    rewrite memory_stage_keeps by reflexivity;
    rewrite ?get_set_other by discriminate;
    apply get_set_same.
Qed.

Lemma docker_keys_before (format_float0 : string -> option string)
      (set_elements : list string -> list string) (m : machine) (k : string) :
  In k docker_keys ->
  get_fact k (drive_stage m (before_drive format_float0 set_elements m)) = None.
Proof.
  intros Hk. simpl in Hk.
  destruct Hk as [<-|[<-|[<-|[]]]];
    (rewrite drive_stage_keeps by reflexivity; now apply start_without).
Qed.

(** X3: the Docker block always leaves "Docker" and "Environment".
    "Docker" is the stripped output of [docker --version], or "Not
    detected".  "Environment" is "Host System" outside a container;
    inside one it is "Inside Docker Container" when the [docker] command
    answers and "Docker Container" when it does not.  "Container
    Hostname" is there only inside a container where both [docker
    --version] and [hostname] answer. *)
Theorem docker_block_cases :
  forall (format_float0 : string -> option string)
         (set_elements : list string -> list string) (m : machine),
    let final := get_system_info format_float0 set_elements m in
    get_fact "Docker" final
    = Some (match docker_version m with
            | Some v => strip v
            | None => "Not detected"
            end)
    /\ get_fact "Environment" final
       = Some (if in_docker m
               then match docker_version m with
                    | Some _ => "Inside Docker Container"
                    | None => "Docker Container"
                    end
               else "Host System")
    /\ get_fact "Container Hostname" final
       = (if in_docker m
          then match docker_version m, hostname m with
               | Some _, Some h => Some (strip h)
               | _, _ => None
               end
          else None).
Proof.
  intros f s m final. unfold final, get_system_info.
  pose proof (docker_keys_before f s m "Container Hostname") as Hh.
  set (t := drive_stage m (before_drive f s m)) in *.
  unfold docker_stage.
  destruct (docker_version m), (in_docker m), (hostname m);
    repeat split;
    rewrite ?get_set_same; try reflexivity;
    repeat (rewrite get_set_other by discriminate);
    rewrite ?get_set_same; try reflexivity;
    apply Hh; simpl; tauto.
Qed.

(** ** The file system and the device *)

Lemma final_probe_fact (format_float0 : string -> option string)
      (set_elements : list string -> list string) (m : machine) (k : string) :
  In k probe_keys ->
  get_fact k (get_system_info format_float0 set_elements m)
  = get_fact k (drive_stage m (before_drive format_float0 set_elements m)).
Proof.
  intros Hk. simpl in Hk.
  destruct Hk as [<-|[<-|[<-|[<-|[<-|[<-|[]]]]]]];
    now apply final_drive_fact.
Qed.

Lemma start_without_probe (format_float0 : string -> option string)
      (set_elements : list string -> list string) (m : machine) (k : string) :
  In k probe_keys ->
  get_fact k (before_drive format_float0 set_elements m) = None.
Proof.
  intros Hk. simpl in Hk.
  destruct Hk as [<-|[<-|[<-|[<-|[<-|[<-|[]]]]]]];
    now apply start_without.
Qed.

(** X4: "Filesystem" is the type that [df -T] gave whenever the lookup
    of the benchmark directory succeeded, and no probe changes it.  When
    the device of the directory has no "/dev/" in its name (an overlay,
    a tmpfs, a network share), no drive probe runs: the table has no
    drive model, type, interface, capacity, vendor or size. *)
Theorem filesystem_fact :
  forall (format_float0 : string -> option string)
         (set_elements : list string -> list string) (m : machine),
    let final := get_system_info format_float0 set_elements m in
    get_fact "Filesystem" final = option_map snd (mount_lookup m)
    /\ (forall device fstype,
           mount_lookup m = Some (device, fstype) ->
           contains "/dev/" device = false ->
           forall k, In k probe_keys -> get_fact k final = None).
Proof.
  intros f s m final. split.
  - unfold final. rewrite final_drive_fact by reflexivity. unfold drive_stage.
    destruct (mount_lookup m) as [[device fstype]|]; simpl.
    + destruct (contains "/dev/" device); [|apply get_set_same].
      rewrite (reaches_get probe_keys "Filesystem" _ _
                 (drive_probes_reaches m _ _)); [apply get_set_same|].
      simpl. intuition discriminate.
    + rewrite get_set_other by discriminate. now apply start_without.
  - intros device fstype Hm Hd k Hk. unfold final.
    rewrite final_probe_fact by assumption.
    unfold drive_stage. rewrite Hm, Hd.
    rewrite get_set_other.
    + now apply start_without_probe.
    + intros <-. simpl in Hk. intuition discriminate.
Qed.

Lemma filesystem_fact_witness :
  get_fact "Filesystem" container_info = Some "overlay"
  /\ get_fact "Drive Model" container_info = None.
Proof.
  destruct (filesystem_fact sample_float0 sample_set container) as [Hfs Hno].
  split; [exact Hfs|].
  apply (Hno "overlay" "overlay" eq_refl eq_refl). simpl. tauto.
Defined.

(** ** Drive details come with a model *)

Lemma try_each_invariant {X} (P : fact_table -> Prop)
      (body : X -> fact_table -> option fact_table) (l : list X) :
  (forall x st st', body x st = Some st' -> P st -> P st') ->
  forall st, P st -> P (fst (try_each body l st)).
Proof.
  intros Hb. induction l as [|x rest IH]; intros st Hst; simpl; [exact Hst|].
  destruct (body x st) as [st'|] eqn:E; [|exact Hst].
  apply IH. exact (Hb x st st' E Hst).
Qed.

Lemma model_first_set_model (v : string) (info : fact_table) :
  model_first (set_fact "Drive Model" v info).
Proof. left. unfold has_fact. now rewrite get_set_same. Qed.

(** With a model in the table, any further assignment keeps one. *)
Lemma model_first_detail (k v : string) (info : fact_table) :
  has_fact "Drive Model" info = true -> model_first (set_fact k v info).
Proof.
  intros H. left.
  apply (reaches_has [k] "Drive Model" info); [|exact H].
  apply reaches_set. now left.
Qed.

(** An assignment to a key that is no detail keeps the invariant. *)
Lemma model_first_other (k v : string) (info : fact_table) :
  ~ In k detail_keys -> model_first info -> model_first (set_fact k v info).
Proof.
  intros Hk [H|H]; [now apply model_first_detail|].
  right. intros k' Hk'. rewrite get_set_other; [now apply H|].
  intros <-. contradiction.
Qed.

Ltac not_detail := simpl; intuition discriminate.

Lemma model_first_smart_line (line : string) (st st' : fact_table) :
  smart_line line st = Some st' -> model_first st -> model_first st'.
Proof.
  intros H Hst. unfold smart_line in H.
  repeat match type of H with
    | (if ?c then _ else _) = _ => destruct c
    end;
  repeat match type of H with
    | bind ?o _ = Some _ => destruct o; simpl in H; [|discriminate]
    end;
  injection H as <-;
  first [ apply model_first_set_model
        | apply model_first_other; [not_detail|exact Hst]
        | exact Hst ].
Qed.

Lemma model_first_lshw_line (line : string) (st st' : fact_table) :
  lshw_line line st = Some st' -> model_first st -> model_first st'.
Proof.
  intros H Hst. unfold lshw_line in H.
  destruct (contains "product:" line).
  { destruct (after_colon1 line); simpl in H; [|discriminate].
    injection H as <-. apply model_first_set_model. }
  destruct (has_fact "Drive Model" st) eqn:Hm.
  - repeat match type of H with
      | (if ?c then _ else _) = _ => destruct c
      end;
    repeat match type of H with
      | bind ?o _ = Some _ => destruct o; simpl in H; [|discriminate]
      end;
    injection H as <-; first [now apply model_first_detail|exact Hst].
  - rewrite !andb_false_r in H. simpl in H. now injection H as <-.
Qed.

Lemma model_first_lshw_lines (base : string) (l : list string)
      (finish_up : bool) (info : fact_table) :
  model_first info -> model_first (lshw_lines base l finish_up info).
Proof.
  revert finish_up info.
  induction l as [|line rest IH]; intros finish_up info Hi; cbn [lshw_lines];
    [exact Hi|].
  destruct (lshw_line line info) as [info'|] eqn:E; [|exact Hi].
  pose proof (model_first_lshw_line line info info' E Hi) as Hl.
  repeat match goal with
    | |- context [if ?c then _ else _] => destruct c
    end; try exact Hl; now apply IH.
Qed.

Lemma model_first_nvme_lines (base : string) (l : list string)
      (info : fact_table) :
  model_first info -> model_first (nvme_lines base l info).
Proof.
  revert info. induction l as [|line rest IH]; intros info Hi;
    cbn [nvme_lines]; [exact Hi|].
  split_cases; try (now apply IH); try exact Hi;
    left; unfold has_fact;
    repeat (rewrite get_set_other by discriminate);
    now rewrite get_set_same.
Qed.

Lemma model_first_lsblk_facts (parts : list string) (info : fact_table) :
  model_first info -> model_first (lsblk_facts parts info).
Proof.
  intros Hi. unfold lsblk_facts.
  split_cases; try exact Hi;
    left; unfold has_fact;
    repeat (rewrite get_set_other by discriminate);
    now rewrite get_set_same.
Qed.

Lemma model_first_drive_probes (m : machine) (base : string)
      (info : fact_table) :
  model_first info -> model_first (drive_probes m base info).
Proof.
  intros Hi. unfold drive_probes.
  assert (H1 : model_first (nvme_probe m base info)).
  { unfold nvme_probe. split_cases; try exact Hi.
    now apply model_first_nvme_lines. }
  assert (H2 : model_first (host_fallbacks m base (nvme_probe m base info))).
  { unfold host_fallbacks. destruct (_ && _); [|exact H1].
    unfold lshw_probe. destruct (lshw m).
    - apply model_first_lshw_lines.
      unfold smart_probe. destruct (smartctl m base); [|exact H1].
      apply try_each_invariant; [exact model_first_smart_line|exact H1].
    - unfold smart_probe. destruct (smartctl m base); [|exact H1].
      apply try_each_invariant; [exact model_first_smart_line|exact H1]. }
  unfold lsblk_probe. destruct (has_fact _ _); [exact H2|].
  destruct (lsblk m base); [|exact H2]. now apply model_first_lsblk_facts.
Qed.

Lemma model_first_drive_stage (format_float0 : string -> option string)
      (set_elements : list string -> list string) (m : machine) :
  model_first (drive_stage m (before_drive format_float0 set_elements m)).
Proof.
  assert (Hs : model_first (before_drive format_float0 set_elements m)).
  { right. intros k Hk. apply start_without_probe. simpl in *. tauto. }
  unfold drive_stage.
  destruct (mount_lookup m) as [[device fstype]|].
  - destruct (contains "/dev/" device).
    + apply model_first_drive_probes.
      apply model_first_other; [not_detail|exact Hs].
    + apply model_first_other; [not_detail|exact Hs].
  - apply model_first_other; [not_detail|exact Hs].
Qed.

(** X5: a drive interface, capacity, vendor or size is in the table
    only together with a drive model: the NVMe lister and [lsblk] assign
    the model before the details, and [lshw] assigns vendor and size
    only when a model is in the table. *)
Theorem drive_details_need_model :
  forall (format_float0 : string -> option string)
         (set_elements : list string -> list string) (m : machine)
         (k : string),
    In k detail_keys ->
    has_fact k (get_system_info format_float0 set_elements m) = true ->
    has_fact "Drive Model" (get_system_info format_float0 set_elements m) = true.
Proof.
  intros f s m k Hk Hhas. unfold has_fact in *.
  rewrite final_probe_fact in * by (simpl in *; tauto).
  destruct (model_first_drive_stage f s m) as [H|H].
  - exact H.
  - now rewrite (H k Hk) in Hhas.
Qed.

Lemma drive_details_need_model_witness :
  has_fact "Drive Model" sample_info = true.
Proof.
  apply (drive_details_need_model sample_float0 sample_set sample_host
           "Drive Vendor").
  - simpl. tauto.
  - vm_compute. reflexivity.
Defined.

(** ** The model name of the CPU *)

Lemma last_item_app {A} (a b : list A) :
  last_item (a ++ b) =
    match last_item b with Some x => Some x | None => last_item a end.
Proof.
  unfold last_item. rewrite rev_app_distr.
  destruct (rev b) as [|x t]; simpl; reflexivity.
Qed.

Lemma lscpu_line_model (format_float0 : string -> option string)
      (line : string) (st st' : fact_table) :
  lscpu_line format_float0 line st = Some st' ->
  get_fact "CPU Model" st' =
    match last_item (model_name_of line) with
    | Some v => Some v
    | None => get_fact "CPU Model" st
    end.
Proof.
  intros H. unfold model_name_of.
  unfold lscpu_line in H.
  destruct (contains "Model name:" line).
  - destruct (after_colon1 line); simpl in *; [|discriminate].
    injection H as <-. apply get_set_same.
  - simpl.
    repeat match type of H with
      | (if ?c then _ else _) = _ => destruct c
      end;
    repeat match type of H with
      | bind ?o _ = Some _ => destruct o; simpl in H; [|discriminate]
      end;
    injection H as <-; try reflexivity; now rewrite get_set_other.
Qed.

Lemma lscpu_lines_model (format_float0 : string -> option string)
      (l : list string) (st st' : fact_table) :
  try_each (lscpu_line format_float0) l st = (st', false) ->
  get_fact "CPU Model" st' =
    match last_item (model_names l) with
    | Some v => Some v
    | None => get_fact "CPU Model" st
    end.
Proof.
  revert st. induction l as [|line rest IH]; intros st; simpl.
  - now intros [= <-].
  - destruct (lscpu_line format_float0 line st) as [st1|] eqn:E;
      [|discriminate].
    intros H. rewrite (IH st1 H).
    change (model_names (line :: rest))
      with (model_name_of line ++ model_names rest).
    rewrite last_item_app.
    destruct (last_item (model_names rest)); [reflexivity|].
    exact (lscpu_line_model format_float0 line st st1 E).
Qed.

(** X6: when [lscpu] answers and every line parses, "CPU Model" is the
    value of the last [Model name:] line of its output, and it is absent
    when there is no such line: the value of [platform.processor()] is
    used only when the probe raises. *)
Theorem cpu_model_is_last_model_name :
  forall (format_float0 : string -> option string)
         (set_elements : list string -> list string) (m : machine)
         (text : string),
    lscpu m = Some text ->
    snd (try_each (lscpu_line format_float0) (lines text) []) = false ->
    get_fact "CPU Model" (get_system_info format_float0 set_elements m)
    = last_item (model_names (lines text)).
Proof.
  intros f s m text Hl Hok.
  rewrite final_cpu_fact by reflexivity.
  unfold cpu_stage. rewrite Hl.
  destruct (try_each (lscpu_line f) (lines text) []) as [st' raised] eqn:E.
  simpl in Hok. subst raised.
  rewrite (lscpu_lines_model f _ _ _ E).
  now destruct (last_item (model_names (lines text))).
Qed.

Lemma cpu_model_is_last_model_name_witness :
  get_fact "CPU Model" container_info = Some "Xeon E5 v2".
Proof.
  exact (cpu_model_is_last_model_name sample_float0 sample_set container
           _ eq_refl eq_refl).
Defined.

(** ** Memory details *)

Lemma memory_keys_before (format_float0 : string -> option string)
      (m : machine) (k : string) :
  In k memory_keys ->
  get_fact k (set_fact "Memory Total" (memory_total m)
                (set_fact "CPU Threads" (cpu_threads m)
                   (set_fact "CPU Cores" (cpu_cores m)
                      (cpu_stage format_float0 m [])))) = None.
Proof.
  intros Hk. simpl in Hk.
  destruct Hk as [<-|[<-|[<-|[]]]];
    (rewrite !get_set_other by discriminate; now rewrite cpu_stage_keeps).
Qed.

(** X7: "Memory Type" and "Memory Speed" are in the table together or
    not at all, "Memory Config" only with them; and inside a container,
    where [dmidecode] is not asked, none of them is. *)
Theorem memory_facts_together :
  forall (format_float0 : string -> option string)
         (set_elements : list string -> list string) (m : machine),
    let final := get_system_info format_float0 set_elements m in
    has_fact "Memory Type" final = has_fact "Memory Speed" final
    /\ (has_fact "Memory Config" final = true ->
        has_fact "Memory Type" final = true)
    /\ (in_docker m = true ->
        has_fact "Memory Type" final = false
        /\ has_fact "Memory Config" final = false).
Proof.
  intros f s m final. unfold final, has_fact.
  rewrite !final_memory_fact by (simpl; tauto).
  pose proof (memory_keys_before f m "Memory Type") as H1.
  pose proof (memory_keys_before f m "Memory Speed") as H2.
  pose proof (memory_keys_before f m "Memory Config") as H3.
  set (t := set_fact "Memory Total" _ _) in *.
  specialize (H1 ltac:(simpl; tauto)).
  specialize (H2 ltac:(simpl; tauto)).
  specialize (H3 ltac:(simpl; tauto)).
  unfold memory_stage.
  destruct (in_docker m).
  { rewrite H1, H2, H3. repeat split; congruence. }
  assert (Hd : forall d,
             let r := memory_facts s d t in
             has_fact "Memory Type" r = has_fact "Memory Speed" r
             /\ (has_fact "Memory Config" r = true ->
                 has_fact "Memory Type" r = true)).
  { intros d. unfold memory_facts, has_fact.
    destruct (types d), (speeds d), (sizes d); simpl;
      repeat (rewrite ?get_set_same; rewrite ?get_set_other by discriminate);
      rewrite ?H1, ?H2, ?H3; split; congruence. }
  destruct (dmidecode m) as [text|].
  - destruct (try_each _ _ _) as [d []].
    + rewrite H1, H2, H3. repeat split; congruence.
    + destruct (Hd d) as [Ha Hb]. unfold has_fact in Ha, Hb.
      repeat split; try assumption; discriminate.
  - rewrite H1, H2, H3. repeat split; congruence.
Qed.

(** ** The fields of [lsblk] *)

Lemma fields_nonempty (s : string) :
  Forall (fun t => is_empty t = false) (snd (fields s)).
Proof.
  induction s as [|c s IH]; simpl; [constructor|].
  destruct (fields s) as [tok rest]. simpl in *.
  destruct (is_space c); simpl; [|exact IH].
  destruct (is_empty tok) eqn:E; [exact IH|]. now constructor.
Qed.

(** [s.split()] has no empty field. *)
Lemma split_ws_nonempty (s : string) :
  Forall (fun t => is_empty t = false) (split_ws s).
Proof.
  unfold split_ws. pose proof (fields_nonempty s) as H.
  destruct (fields s) as [tok rest]. simpl in H.
  destruct (is_empty tok) eqn:E; [exact H|]. now constructor.
Qed.

Lemma slice_middle {A} (x : A) (l tail2 : list A) :
  List.length tail2 = 2 -> slice_1_m2 (x :: l ++ tail2) = l.
Proof.
  intros H. unfold slice_1_m2.
  change (skipn 1 (x :: l ++ tail2)) with (l ++ tail2).
  change (List.length (x :: l ++ tail2)) with (S (List.length (l ++ tail2))).
  rewrite length_app, H.
  replace (S (List.length l + 2) - 3) with (List.length l + 0) by lia.
  rewrite firstn_app_2. simpl. now rewrite app_nil_r.
Qed.

Lemma last_two {A} (x : A) (l : list A) (a b : A) :
  last_but_one (x :: l ++ [a; b]) = Some a
  /\ last_item (x :: l ++ [a; b]) = Some b.
Proof.
  unfold last_but_one, last_item. simpl. rewrite rev_app_distr. simpl. auto.
Qed.

(** X8: [lsblk] is asked only when no probe before it left a drive
    model.  Of its fields, the first is the device, the last two are the
    rotation flag and the size, and the fields between them, joined by
    single blanks, are the model: a model of several words is kept
    whole.  When there are only three fields (no model column), the
    second field, the rotation flag, is taken as the model, and no
    capacity is recorded. *)
Theorem lsblk_model_words :
  forall (m : machine) (base text : string) (info : fact_table),
    has_fact "Drive Model" info = false ->
    lsblk m base = Some text ->
    (forall name w ws rota size,
        split_ws (strip text) = name :: (w :: ws) ++ [rota; size] ->
        lsblk_probe m base info
        = set_fact "Drive Capacity" size
            (set_fact "Drive Type" (if String.eqb rota "1" then "HDD" else "SSD")
               (set_fact "Drive Model" (join " " (w :: ws)) info)))
    /\ (forall name rota size,
           split_ws (strip text) = [name; rota; size] ->
           lsblk_probe m base info
           = set_fact "Drive Type" (if String.eqb rota "1" then "HDD" else "SSD")
               (set_fact "Drive Model" rota info)).
Proof.
  intros m base text info Hno Hl.
  pose proof (split_ws_nonempty (strip text)) as Hne.
  unfold lsblk_probe. rewrite Hno, Hl. split.
  - intros name w ws rota size E. rewrite E in *.
    inversion Hne as [|? ? _ Hne']; subst.
    inversion Hne' as [|? ? Hw _]; subst.
    unfold lsblk_facts.
    destruct (last_two name (w :: ws) rota size) as [L2 L1].
    rewrite L2, L1, (slice_middle name (w :: ws) [rota; size] eq_refl).
    change (item1 (name :: (w :: ws) ++ [rota; size])) with (Some w).
    cbv iota.
    assert (Ew : String.eqb w "" = false) by (now destruct w).
    rewrite Ew.
    assert (Elen : List.length (name :: (w :: ws) ++ [rota; size])
                   = 4 + List.length ws)
      by (simpl; rewrite length_app; simpl; lia).
    rewrite Elen. reflexivity.
  - intros name rota size E. rewrite E in *.
    inversion Hne as [|? ? _ Hne']; subst.
    inversion Hne' as [|? ? Hw _]; subst.
    unfold lsblk_facts. cbn.
    assert (Ew : String.eqb rota "" = false) by (now destruct rota).
    now rewrite Ew.
Qed.

Lemma lsblk_model_words_witness :
  lsblk_probe sample_host "/dev/sda"
    [("Drive Type", "HDD (7200 rpm)")]
  = [("Drive Type", "HDD"); ("Drive Model", "ST1000DM");
     ("Drive Capacity", "931.5G")].
Proof.
  destruct (lsblk_model_words sample_host "/dev/sda" "sda ST1000DM 1 931.5G"
              [("Drive Type", "HDD (7200 rpm)")] eq_refl eq_refl) as [H _].
  rewrite (H "sda" "ST1000DM" [] "1" "931.5G" eq_refl). reflexivity.
Defined.

(** ** Directory names and the records made of them *)

Lemma int_digits_nonneg (s : string) :
  all_in is_digit s = true ->
  forall acc, (0 <= acc)%Z ->
    exists n, int_digits acc s = Some n /\ (0 <= n)%Z.
Proof.
  induction s as [|c s IH]; cbn [int_digits all_in]; intros H acc Hacc.
  - now exists acc.
  - apply andb_true_iff in H as [Hc Hs]. rewrite Hc.
    apply IH; [exact Hs|].
    apply Z.add_nonneg_nonneg; [lia|apply Nat2Z.is_nonneg].
Qed.

(** X9: the operation count of a decoded name is always read as an
    integer, which is not negative: for every name that
    [parse_result_dir] accepts, [int(ops)] does not raise, and the test
    [duration and ops] of [main] holds. *)
Theorem decoded_operations_are_integers :
  forall name duration ops gage : string,
    parse_result_dir name = Some (duration, ops, gage) ->
    (exists n, py_int ops = Some n /\ (0 <= n)%Z)
    /\ negb (is_empty duration) && negb (is_empty ops) = true.
Proof.
  intros name d o g H.
  apply parse_result_dir_shape in H
    as ((ds & u & -> & Hds & _) & [Hne Ho] & _).
  split.
  - unfold py_int. apply is_empty_false in Hne. rewrite Hne.
    apply int_digits_nonneg; [exact Ho|lia].
  - apply is_empty_false in Hne. rewrite Hne.
    now destruct ds.
Qed.

Lemma decoded_operations_are_integers_witness :
  (exists n, py_int "0500" = Some n /\ (0 <= n)%Z)
  /\ negb (is_empty "10d") && negb (is_empty "0500") = true.
Proof.
  exact (decoded_operations_are_integers "10d_0500_a" "10d" "0500" "a" eq_refl).
Defined.

Lemma first_line_whole (s : string) :
  all_in dot s = true -> first_line s = s.
Proof.
  intros H. unfold first_line.
  rewrite <- (append_nil_r s) at 1.
  now rewrite span_run.
Qed.

(** X10: decoding undoes naming.  For a duration tag, a digit string
    and a non-empty gage without a newline (underscores and blanks are
    allowed in it), the name [duration_ops_gage] decodes to these three
    parts; and it is the only name without a newline that does. *)
Theorem dir_name_round_trip :
  forall duration ops gage : string,
    duration_tag duration -> digits ops ->
    gage <> "" -> all_in dot gage = true ->
    parse_result_dir (dir_name duration ops gage) = Some (duration, ops, gage)
    /\ (forall name,
           all_in dot name = true ->
           parse_result_dir name = Some (duration, ops, gage) ->
           name = dir_name duration ops gage).
Proof.
  intros d o g Hd Ho Hg Hgd. split.
  - apply parse_result_dir_shape. repeat split; try assumption; try apply Ho.
    apply first_line_whole. unfold dir_name.
    rewrite !all_in_append, (all_in_duration d Hd), Hgd.
    destruct Ho as [_ Ho].
    now rewrite (all_in_weaken is_digit dot o digit_dot Ho).
  - intros name Hn H. apply parse_result_dir_shape in H as (_ & _ & _ & H).
    now rewrite first_line_whole in H.
Qed.

Lemma dir_name_round_trip_witness :
  parse_result_dir (dir_name "30d" "1000" "gage_A 1")
  = Some ("30d", "1000", "gage_A 1").
Proof.
  apply (dir_name_round_trip "30d" "1000" "gage_A 1").
  - exists "30", "d"%char. repeat split; discriminate.
  - split; [discriminate|reflexivity].
  - discriminate.
  - reflexivity.
Defined.

Lemma entry_rows_decoded (e : dir_entry) (rows : list row) :
  entry_rows e = Some rows -> map row_id rows = decoded e.
Proof.
  unfold entry_rows, decoded.
  destruct (entry_is_dir e); [|now intros [= <-]].
  destruct (parse_result_dir (entry_name e)) as [[[d o] g]|] eqn:E;
    [|now intros [= <-]].
  destruct (decoded_operations_are_integers _ _ _ _ E) as [(n & Hn & _) Hg].
  rewrite Hg, Hn. unfold make_row. rewrite Hn. cbn [bind].
  destruct (runtime_cell _); cbn [bind option_map]; [|discriminate].
  destruct (runtime_cell _); cbn [bind option_map]; [|discriminate].
  destruct (total_cell _ _); cbn [bind option_map]; [|discriminate].
  now intros [= <-].
Qed.

(** X11: before it is sorted, the table has one record for each entry
    of the listing that is a directory with a name that decodes, in the
    order of the listing, with the duration, the operation count as an
    integer and the gage of the name; files and other directories leave
    nothing, and neither does a missing or broken measurement file
    remove a record. *)
Theorem records_follow_listing :
  forall (listing : list dir_entry) (rows : list row),
    collect listing [] = Some rows ->
    map row_id rows = flat_map decoded listing.
Proof.
  intros listing rows. rewrite collect_collect_rows.
  destruct (collect_rows listing) as [rs|] eqn:E; [|discriminate].
  simpl. intros [= <-]. revert rs E.
  induction listing as [|e rest IH]; intros rs; simpl.
  - now intros [= <-].
  - destruct (entry_rows e) as [a|] eqn:Ea; [|discriminate].
    destruct (collect_rows rest) as [b|]; [|discriminate].
    intros [= <-]. rewrite map_app, (entry_rows_decoded e a Ea).
    now rewrite (IH b eq_refl).
Qed.

Lemma records_follow_listing_witness :
  option_map (map row_id) (collect mixed_listing [])
  = Some [("5d", 1000%Z, "gage_B"); ("10d", 500%Z, "a")].
Proof.
  destruct (collect mixed_listing []) as [rows|] eqn:E.
  - simpl. rewrite (records_follow_listing mixed_listing rows E).
    vm_compute. reflexivity.
  - vm_compute in E. discriminate.
Defined.

(** ** A mean that is NaN *)

Lemma float_add_nan (x : float) :
  float_add S754_nan x = S754_nan /\ float_add x S754_nan = S754_nan.
Proof. split; destruct x; reflexivity. Qed.

Lemma add_numbers_nan (x s : number) :
  (add_numbers (NFloat S754_nan) x = Some s -> s = NFloat S754_nan)
  /\ (add_numbers x (NFloat S754_nan) = Some s -> s = NFloat S754_nan).
Proof.
  destruct x as [n|f]; cbn [add_numbers]; split; intros H;
    try (destruct (float_of_int n) as [f|]; [|discriminate];
         cbn [option_map] in H);
    injection H as <-;
    now rewrite ?(proj1 (float_add_nan f)), ?(proj2 (float_add_nan f)).
Qed.

Lemma total_cell_false (a b : pyval) :
  truthy a = false \/ truthy b = false -> total_cell a b = Some NA.
Proof.
  unfold total_cell. intros [H|H]; rewrite H, ?andb_false_r; reflexivity.
Qed.

(** X21: a mean of NaN is not shown as the marker: NaN is taken as
    true, [round] returns it, and a sum with NaN is NaN.  In a record
    whose first or second mean is NaN, that runtime is NaN, and the
    total is NaN when the other mean is taken as true, and the marker
    when it is not. *)
Theorem nan_is_shown :
  forall (duration ops gage : string) (e : dir_entry) (r : row),
    make_row duration ops gage e = Some r ->
    let mpirun_time := load_hyperfine_results (mpirun_benchmark e) in
    let troute_time := load_hyperfine_results (troute_benchmark e) in
    (mpirun_time = nan ->
     MPI_Runtime r = Seconds (NFloat S754_nan)
     /\ Total_Runtime r
        = if truthy troute_time then Seconds (NFloat S754_nan) else NA)
    /\ (troute_time = nan ->
        Troute_Runtime r = Seconds (NFloat S754_nan)
        /\ Total_Runtime r
           = if truthy mpirun_time then Seconds (NFloat S754_nan) else NA).
Proof.
  intros duration ops gage e r Hrow. cbv zeta.
  unfold make_row in Hrow.
  destruct (py_int ops) as [n|]; [|discriminate]. cbn [bind] in Hrow.
  destruct (runtime_cell (load_hyperfine_results (mpirun_benchmark e)))
    as [cm|] eqn:Em; [|discriminate]. cbn [bind] in Hrow.
  destruct (runtime_cell (load_hyperfine_results (troute_benchmark e)))
    as [ct|] eqn:Et; [|discriminate]. cbn [bind] in Hrow.
  destruct (total_cell (load_hyperfine_results (mpirun_benchmark e))
              (load_hyperfine_results (troute_benchmark e)))
    as [tot|] eqn:Etot; [|discriminate]. cbn [bind] in Hrow.
  injection Hrow as <-. cbn [MPI_Runtime Troute_Runtime Total_Runtime].
  split; intros H; rewrite H in *.
  - split; [cbn in Em; congruence|].
    destruct (truthy (load_hyperfine_results (troute_benchmark e))) eqn:Tb.
    + destruct (runtime_cell_number _ _ Et Tb) as (y & Hy & _).
      rewrite (total_cell_numbers nan _ (NFloat S754_nan) y
                 eq_refl Tb eq_refl Hy) in Etot.
      destruct (add_numbers (NFloat S754_nan) y) as [s|] eqn:Es;
        [|discriminate].
      apply (proj1 (add_numbers_nan y s)) in Es. subst s.
      cbn in Etot. congruence.
    + rewrite total_cell_false in Etot by now right. congruence.
  - split; [cbn in Et; congruence|].
    destruct (truthy (load_hyperfine_results (mpirun_benchmark e))) eqn:Ta.
    + destruct (runtime_cell_number _ _ Em Ta) as (x & Hx & _).
      rewrite (total_cell_numbers _ nan x (NFloat S754_nan)
                 Ta eq_refl Hx eq_refl) in Etot.
      destruct (add_numbers x (NFloat S754_nan)) as [s|] eqn:Es;
        [|discriminate].
      apply (proj2 (add_numbers_nan x s)) in Es. subst s.
      cbn in Etot. congruence.
    + rewrite total_cell_false in Etot by now left. congruence.
Qed.

Lemma nan_is_shown_witness :
  make_row "1d" "2" "g" nan_dir = Some nan_row
  /\ MPI_Runtime nan_row = Seconds (NFloat S754_nan)
  /\ Total_Runtime nan_row = Seconds (NFloat S754_nan).
Proof.
  assert (Hrow : make_row "1d" "2" "g" nan_dir = Some nan_row)
    by (vm_compute; reflexivity).
  split; [exact Hrow|].
  destruct (nan_is_shown _ _ _ _ _ Hrow) as [H _].
  exact (H eq_refl).
Defined.

(** ** The base device *)

Lemma scan_skip (r : regex) (s : string) :
  forall (b : bool) (n : nat), String.length s <= n -> scan r b n s = [].
Proof.
  induction s as [|c s IH]; intros b n H; [reflexivity|].
  destruct n as [|n]; simpl in H; [lia|].
  simpl. apply IH. lia.
Qed.

(** A pattern that, wherever it matches, matches up to the end of the
    text: substituting nothing for it cuts the text at the first
    match. *)
Lemma re_sub_cut (r : regex) (test : string -> bool) :
  (forall b c u, all_in dot (String c u) = true ->
     match_here r b (String c u) =
       if test (String c u) then Some (EmptyString, []) else None) ->
  forall s, all_in dot s = true -> re_sub r "" s = cut_at test s.
Proof.
  intros Hr s Hs. unfold re_sub.
  enough (H : forall b, subst_pieces "" (scan r b 0 s) = cut_at test s)
    by apply H.
  induction s as [|c s IH]; intros b; [reflexivity|].
  cbn [scan cut_at]. rewrite (Hr b c s Hs).
  destruct (test (String c s)).
  - cbn [String.length]. rewrite Nat.sub_0_r.
    rewrite scan_skip by lia. reflexivity.
  - cbn [subst_pieces]. f_equal. apply IH.
    simpl in Hs. apply andb_true_iff in Hs. apply Hs.
Qed.

Lemma at_eol_dot (s : string) : all_in dot s = true -> at_eol s = is_empty s.
Proof.
  destruct s as [|c [|c' s]]; simpl; try reflexivity.
  unfold dot. destruct (Ascii.eqb c newline); [discriminate|reflexivity].
Qed.

Lemma many_digits_only {A} (f : string -> A) (s : string) :
  all_in dot s = true ->
  many is_digit (fun s' => if at_eol s' then Some (f s') else None) s =
    if digits_only s then Some (f EmptyString) else None.
Proof.
  unfold digits_only.
  induction s as [|c s IH]; intros Hs; [reflexivity|].
  simpl in Hs. apply andb_true_iff in Hs. destruct Hs as [_ Hs].
  cbn [many is_empty negb all_in andb].
  destruct (is_digit c); [|reflexivity].
  rewrite (IH Hs), (at_eol_dot s Hs).
  destruct s as [|c' s]; [reflexivity|].
  cbn [is_empty negb andb]. destruct (all_in is_digit (String c' s)); reflexivity.
Qed.

Lemma trailing_digits_here (b : bool) (c : ascii) (u : string) :
  all_in dot (String c u) = true ->
  match_here trailing_digits b (String c u) =
    if digits_only (String c u) then Some (EmptyString, []) else None.
Proof.
  intros H. unfold match_here, trailing_digits. cbn [exec].
  apply (many_digits_only (fun s' => (s', [])) (String c u) H).
Qed.

Lemma trailing_p_here (b : bool) (c : ascii) (u : string) :
  all_in dot (String c u) = true ->
  match_here trailing_p b (String c u) =
    if p_only (String c u) then Some (EmptyString, []) else None.
Proof.
  intros H. simpl in H. apply andb_true_iff in H. destruct H as [_ H].
  unfold match_here, trailing_p, p_only. cbn [exec String.eqb].
  unfold lit. destruct (Ascii.eqb c "p"); [|reflexivity].
  rewrite (at_eol_dot u H). destruct u; reflexivity.
Qed.

Lemma trailing_n_here (b : bool) (c : ascii) (u : string) :
  all_in dot (String c u) = true ->
  match_here trailing_n b (String c u) =
    if n_digits_only (String c u) then Some (EmptyString, []) else None.
Proof.
  intros H. simpl in H. apply andb_true_iff in H. destruct H as [_ H].
  unfold match_here, trailing_n, n_digits_only. cbn [exec].
  destruct (lit "n" c); [|reflexivity]. cbn [andb].
  apply (many_digits_only (fun s' => (s', [])) u H).
Qed.

(** The three substitutions of the base device, on a text of one
    line. *)
Lemma base_device_of_cut (device : string) :
  all_in dot device = true ->
  all_in dot (cut_at digits_only device) = true ->
  all_in dot (cut_at p_only (cut_at digits_only device)) = true ->
  base_device_of device =
    cut_at n_digits_only (cut_at p_only (cut_at digits_only device)).
Proof.
  intros H1 H2 H3. unfold base_device_of.
  rewrite (re_sub_cut trailing_digits digits_only trailing_digits_here _ H1).
  rewrite (re_sub_cut trailing_p p_only trailing_p_here _ H2).
  apply (re_sub_cut trailing_n n_digits_only trailing_n_here _ H3).
Qed.

Lemma all_in_cons_false (p : ascii -> bool) (a : string) (c : ascii) (b : string) :
  p c = false -> all_in p (a ++ String c b) = false.
Proof.
  intros H. rewrite all_in_append. cbn [all_in]. rewrite H.
  apply andb_false_r.
Qed.

Lemma cut_at_all (test : string -> bool) (s : string) :
  s <> "" -> test s = true -> cut_at test s = "".
Proof. destruct s; [congruence|]. intros _ H. cbn [cut_at]. now rewrite H. Qed.

(** A text that ends outside the digits has no digits to lose, and no
    ["n"] with digits either. *)
Lemma cut_digits_none (s : string) (c : ascii) :
  is_digit c = false ->
  cut_at digits_only (s ++ String c "") = (s ++ String c "")%string
  /\ cut_at n_digits_only (s ++ String c "") = (s ++ String c "")%string.
Proof.
  intros Hc. induction s as [|a s [IH1 IH2]].
  - cbn. unfold digits_only. cbn. rewrite Hc.
    split; [reflexivity|]. now rewrite andb_false_r.
  - cbn [append cut_at]. rewrite IH1, IH2.
    unfold digits_only, n_digits_only. fold digits_only.
    cbn [all_in is_empty negb andb].
    change (String a (s ++ String c "")) with (String a s ++ String c "")%string.
    pose proof (all_in_cons_false is_digit s c "" Hc) as E.
    rewrite E, andb_false_r.
    unfold digits_only. rewrite E, !andb_false_r. split; reflexivity.
Qed.

Lemma cut_digits_run (s : string) (c : ascii) (d : string) :
  is_digit c = false -> all_in is_digit d = true ->
  cut_at digits_only (s ++ String c d) = (s ++ String c "")%string.
Proof.
  intros Hc Hd. induction s as [|a s IH].
  - cbn [append cut_at]. unfold digits_only at 1.
    cbn [all_in is_empty negb andb]. rewrite Hc. cbn [andb]. f_equal.
    destruct d as [|x d]; [reflexivity|].
    apply cut_at_all; [discriminate|].
    unfold digits_only. now rewrite Hd.
  - cbn [append cut_at]. rewrite IH.
    unfold digits_only. cbn [all_in is_empty negb andb].
    now rewrite (all_in_cons_false is_digit s c d Hc), andb_false_r.
Qed.

Lemma cut_p_none (s : string) (c : ascii) :
  c <> "p"%char ->
  cut_at p_only (s ++ String c "") = (s ++ String c "")%string.
Proof.
  intros Hc. apply Ascii.eqb_neq in Hc. induction s as [|a s IH].
  - cbn. now rewrite Hc.
  - cbn [append cut_at]. rewrite IH. unfold p_only. cbn [String.eqb].
    destruct (Ascii.eqb a "p"); [|reflexivity].
    destruct s; reflexivity.
Qed.

Lemma cut_p_last (s : string) : cut_at p_only (s ++ "p") = s.
Proof.
  induction s as [|a s IH]; [reflexivity|].
  cbn [append cut_at]. rewrite IH. unfold p_only. cbn [String.eqb].
  destruct (Ascii.eqb a "p"); [|reflexivity].
  destruct s; reflexivity.
Qed.

Lemma cut_n_run (s d : string) :
  digits d ->
  cut_at n_digits_only (s ++ String "n" d) = s.
Proof.
  intros [Hne Hd]. induction s as [|a s IH].
  - apply cut_at_all; [discriminate|].
    unfold n_digits_only, digits_only.
    destruct d; [congruence|]. cbn [append]. now rewrite Hd.
  - cbn [append cut_at]. rewrite IH.
    unfold n_digits_only, digits_only.
    rewrite (all_in_cons_false is_digit s "n" d eq_refl), !andb_false_r.
    reflexivity.
Qed.

Lemma all_in_dot_end (s : string) (c : ascii) (d : string) :
  all_in dot s = true -> dot c = true -> all_in is_digit d = true ->
  all_in dot (s ++ String c d) = true.
Proof.
  intros Hs Hc Hd. rewrite all_in_append. cbn [all_in].
  now rewrite Hs, Hc, (all_in_weaken is_digit dot d digit_dot Hd).
Qed.

Lemma digit_not_n (a : ascii) : is_digit a = true -> lit "n" a = false.
Proof. destruct a as [[] [] [] [] [] [] [] []]; vm_compute; congruence. Qed.

Lemma cut_n_digits (d : string) :
  all_in is_digit d = true -> cut_at n_digits_only d = d.
Proof.
  induction d as [|a d IH]; intros H; [reflexivity|].
  cbn [all_in] in H. apply andb_true_iff in H. destruct H as [Ha Hd].
  cbn [cut_at n_digits_only]. now rewrite (digit_not_n a Ha), (IH Hd).
Qed.

(** After a character that is no digit and no ["n"], digits are not
    taken by the third pattern. *)
Lemma cut_n_none (s : string) (c : ascii) (d : string) :
  is_digit c = false -> c <> "n"%char -> all_in is_digit d = true ->
  cut_at n_digits_only (s ++ String c d) = (s ++ String c d)%string.
Proof.
  intros Hc Hn Hd. apply Ascii.eqb_neq in Hn. induction s as [|a s IH].
  - cbn [append cut_at n_digits_only]. unfold lit at 1. rewrite Hn.
    cbn [andb]. now rewrite (cut_n_digits d Hd).
  - cbn [append cut_at]. rewrite IH.
    unfold n_digits_only, digits_only.
    now rewrite (all_in_cons_false is_digit s c d Hc), !andb_false_r.
Qed.

(** X14: the base device of a device name of one line.  A name that
    ends in digits after a character other than ["p"] loses the
    digits, and a name without digits at its end is kept: /dev/sda1
    gives /dev/sda, /dev/nvme0n1 gives /dev/nvme0n.  A ["p"] before
    the last digits, or at the end, is removed with them when the
    digits before it do not follow an ["n"]: /dev/mmcblk0p1 gives
    /dev/mmcblk0, and the disk /dev/sdp gives /dev/sd. *)
Theorem base_device_of_partition :
  forall (s : string) (c : ascii) (d0 d : string),
    all_in dot s = true -> dot c = true -> is_digit c = false ->
    all_in is_digit d0 = true -> all_in is_digit d = true ->
    (c <> "p"%char ->
     base_device_of (s ++ String c d) = (s ++ String c "")%string)
    /\ (c <> "n"%char ->
        base_device_of (s ++ String c (d0 ++ String "p" d))
        = (s ++ String c d0)%string).
Proof.
  intros s c d0 d Hs Hc Hn Hd0 Hd.
  assert (Hsc : all_in dot (s ++ String c "") = true)
    by now apply all_in_dot_end.
  assert (Hsd : all_in dot (s ++ String c d0) = true)
    by now apply all_in_dot_end.
  split; [intros Hp|intros Hnn].
  - rewrite base_device_of_cut; rewrite ?(cut_digits_run s c d Hn Hd),
      ?(cut_p_none s c Hp); try assumption.
    + apply (cut_digits_none s c Hn).
    + now apply all_in_dot_end.
  - assert (E : (s ++ String c (d0 ++ String "p" d))%string
                = ((s ++ String c d0) ++ String "p" d)%string)
      by now rewrite append_assoc.
    rewrite E, base_device_of_cut;
      rewrite ?(cut_digits_run (s ++ String c d0) "p" d eq_refl Hd),
        ?cut_p_last; try assumption.
    + now apply cut_n_none.
    + now apply all_in_dot_end.
    + now apply all_in_dot_end.
Qed.

Lemma base_device_of_partition_witness :
  base_device_of sda1 = "/dev/sda"
  /\ base_device_of "/dev/mmcblk0p1" = "/dev/mmcblk0".
Proof.
  destruct (base_device_of_partition "/dev/sd" "a" "" "1"
              eq_refl eq_refl eq_refl eq_refl eq_refl) as [H _].
  destruct (base_device_of_partition "/dev/mmcbl" "k" "0" "1"
              eq_refl eq_refl eq_refl eq_refl eq_refl) as [_ H'].
  split; [apply H; discriminate|apply H'; discriminate].
Defined.

(** X15: of the name of a partition of an NVMe namespace, a text
    followed by ["n"], digits, ["p"] and digits, the base device is
    the text alone, the controller: /dev/nvme0n1p2 gives
    /dev/nvme0. *)
Theorem base_device_of_nvme_partition :
  forall (s d1 d2 : string),
    all_in dot s = true -> digits d1 -> digits d2 ->
    base_device_of (s ++ "n" ++ d1 ++ "p" ++ d2) = s.
Proof.
  intros s d1 d2 Hs [N1 H1] [N2 H2].
  assert (Hsn : all_in dot (s ++ String "n" d1) = true)
    by now apply all_in_dot_end.
  assert (E : (s ++ "n" ++ d1 ++ "p" ++ d2)%string
              = ((s ++ String "n" d1) ++ String "p" d2)%string).
  { cbn [append]. rewrite append_assoc. reflexivity. }
  rewrite E, base_device_of_cut;
    rewrite ?(cut_digits_run (s ++ String "n" d1) "p" d2 eq_refl H2),
      ?cut_p_last; try assumption.
  - apply cut_n_run. now split.
  - now apply all_in_dot_end.
  - now apply all_in_dot_end.
Qed.

Lemma base_device_of_nvme_partition_witness :
  base_device_of nvme0n1p2 = "/dev/nvme0".
Proof.
  apply (base_device_of_nvme_partition "/dev/nvme0" "1" "2" eq_refl);
    split; [discriminate|reflexivity|discriminate|reflexivity].
Defined.

(** ** Inside a container *)

Lemma nvme_lines_plain (base : string) (l : list string) (info : fact_table) :
  reaches plain_probe_keys info (nvme_lines base l info).
Proof.
  revert info. induction l as [|line rest IH]; intros info; cbn [nvme_lines];
    [reach|].
  split_cases; try apply IH; reach.
Qed.

Lemma nvme_probe_plain (m : machine) (base : string) (info : fact_table) :
  reaches plain_probe_keys info (nvme_probe m base info).
Proof.
  unfold nvme_probe. split_cases; try apply nvme_lines_plain; reach.
Qed.

Lemma lsblk_probe_plain (m : machine) (base : string) (info : fact_table) :
  reaches plain_probe_keys info (lsblk_probe m base info).
Proof.
  unfold lsblk_probe. destruct (has_fact _ info); [reach|].
  destruct (lsblk m base); [|reach].
  unfold lsblk_facts. split_cases; reach.
Qed.

(** X16: inside a container the commands run through sudo are not
    asked: whatever [dmidecode], [smartctl] and [lshw] would answer,
    the fact table is the same, and it has no "Drive Vendor" and no
    "Drive Size", which only [lshw] gives. *)
Theorem container_asks_no_sudo :
  forall (format_float0 : string -> option string)
         (set_elements : list string -> list string) (m : machine)
         (d : option string) (s : string -> option string) (l : option string),
    in_docker m = true ->
    get_system_info format_float0 set_elements (with_sudo m d s l)
    = get_system_info format_float0 set_elements m
    /\ get_fact "Drive Vendor" (get_system_info format_float0 set_elements m)
       = None
    /\ get_fact "Drive Size" (get_system_info format_float0 set_elements m)
       = None.
Proof.
  intros ff se m d s l H. split.
  - unfold get_system_info.
    assert (B : before_drive ff se (with_sudo m d s l) = before_drive ff se m).
    { unfold before_drive, memory_stage.
      cbn [with_sudo in_docker]. now rewrite H. }
    rewrite B. set (info := before_drive ff se m).
    assert (D : drive_stage (with_sudo m d s l) info = drive_stage m info).
    { unfold drive_stage.
      change (mount_lookup (with_sudo m d s l)) with (mount_lookup m).
      destruct (mount_lookup m) as [[device fstype]|]; [|reflexivity].
      destruct (contains "/dev/" device); [|reflexivity].
      unfold drive_probes, host_fallbacks.
      cbn [with_sudo in_docker]. rewrite H. cbn [negb].
      rewrite !andb_false_r. reflexivity. }
    rewrite D. reflexivity.
  - assert (P : forall k, In k ["Drive Vendor"; "Drive Size"] ->
                  get_fact k (get_system_info ff se m) = None).
    { intros k Hk.
      assert (Hp : In k probe_keys) by (simpl in *; tauto).
      assert (Hn : ~ In k plain_probe_keys)
        by (simpl in *; intuition (subst; discriminate)).
      rewrite final_probe_fact by assumption.
      unfold drive_stage.
      destruct (mount_lookup m) as [[device fstype]|].
      - assert (E : get_fact k (set_fact "Filesystem" fstype
                                  (before_drive ff se m)) = None).
        { rewrite get_set_other by (intros <-; simpl in Hk;
                                    intuition discriminate).
          now apply start_without_probe. }
        destruct (contains "/dev/" device); [|exact E].
        unfold drive_probes, host_fallbacks.
        rewrite H. cbn [negb]. rewrite andb_false_r.
        rewrite (reaches_get _ k _ _ (lsblk_probe_plain m _ _) Hn).
        now rewrite (reaches_get _ k _ _ (nvme_probe_plain m _ _) Hn).
      - rewrite get_set_other by (intros <-; simpl in Hk;
                                  intuition discriminate).
        now apply start_without_probe. }
    split; apply P; simpl; tauto.
Qed.

Lemma container_asks_no_sudo_witness :
  get_system_info sample_float0 sample_set
    (with_sudo container None (fun _ => None) None)
  = container_info
  /\ get_fact "Drive Vendor" container_info = None
  /\ get_fact "Drive Size" container_info = None.
Proof.
  exact (container_asks_no_sudo sample_float0 sample_set container
           None (fun _ => None) None eq_refl).
Defined.

(** ** The drive type *)

Lemma typed_set (k v : string) (info : fact_table) :
  typed info ->
  (k = "Drive Type" -> drive_type_value v) ->
  (k = "Drive Interface" -> v = "NVMe") ->
  typed (set_fact k v info).
Proof.
  intros [Ht Hi] Hkt Hki. split; intros w.
  - destruct (String.eqb_spec k "Drive Type") as [->|Hne].
    + rewrite get_set_same. intros E. injection E as <-. now apply Hkt.
    + rewrite get_set_other by exact Hne. apply Ht.
  - destruct (String.eqb_spec k "Drive Interface") as [->|Hne].
    + rewrite get_set_same. intros E. injection E as <-. now apply Hki.
    + rewrite get_set_other by exact Hne. apply Hi.
Qed.

Ltac type_value :=
  let E := fresh in
  intros E;
  first [ discriminate E
        | reflexivity
        | left; reflexivity
        | right; left; reflexivity
        | right; right; left; reflexivity
        | right; right; right; eexists; reflexivity ].

Ltac typed_step :=
  repeat match goal with
    | |- typed (set_fact _ _ _) => apply typed_set; [|type_value|type_value]
    end;
  try assumption.

Lemma typed_smart_line (line : string) (st st' : fact_table) :
  smart_line line st = Some st' -> typed st -> typed st'.
Proof.
  intros H Hst. unfold smart_line in H.
  repeat match type of H with
    | (if ?c then _ else _) = _ => destruct c
    end;
  repeat match type of H with
    | bind ?o _ = Some _ => destruct o; simpl in H; [|discriminate]
    end;
  injection H as <-; typed_step.
Qed.

Lemma typed_lshw_line (line : string) (st st' : fact_table) :
  lshw_line line st = Some st' -> typed st -> typed st'.
Proof.
  intros H Hst. unfold lshw_line in H.
  repeat match type of H with
    | (if ?c then _ else _) = _ => destruct c
    end;
  repeat match type of H with
    | bind ?o _ = Some _ => destruct o; simpl in H; [|discriminate]
    end;
  injection H as <-; typed_step.
Qed.

Lemma typed_lshw_lines (base : string) (l : list string)
      (finish_up : bool) (info : fact_table) :
  typed info -> typed (lshw_lines base l finish_up info).
Proof.
  revert finish_up info.
  induction l as [|line rest IH]; intros finish_up info Hi; cbn [lshw_lines];
    [exact Hi|].
  destruct (lshw_line line info) as [info'|] eqn:E; [|exact Hi].
  pose proof (typed_lshw_line line info info' E Hi) as Hl.
  repeat match goal with
    | |- context [if ?c then _ else _] => destruct c
    end; try exact Hl; now apply IH.
Qed.

Lemma typed_nvme_lines (base : string) (l : list string) (info : fact_table) :
  typed info -> typed (nvme_lines base l info).
Proof.
  revert info. induction l as [|line rest IH]; intros info Hi;
    cbn [nvme_lines]; [exact Hi|].
  split_cases; try (now apply IH); typed_step.
Qed.

Lemma typed_lsblk_facts (parts : list string) (info : fact_table) :
  typed info -> typed (lsblk_facts parts info).
Proof. intros Hi. unfold lsblk_facts. split_cases; typed_step. Qed.

Lemma typed_drive_probes (m : machine) (base : string) (info : fact_table) :
  typed info -> typed (drive_probes m base info).
Proof.
  intros Hi. unfold drive_probes.
  assert (H1 : typed (nvme_probe m base info)).
  { unfold nvme_probe. split_cases; try exact Hi.
    now apply typed_nvme_lines. }
  assert (Hs : typed (smart_probe m base (nvme_probe m base info))).
  { unfold smart_probe. destruct (smartctl m base); [|exact H1].
    apply try_each_invariant; [exact typed_smart_line|exact H1]. }
  assert (H2 : typed (host_fallbacks m base (nvme_probe m base info))).
  { unfold host_fallbacks. destruct (_ && _); [|exact H1].
    unfold lshw_probe. destruct (lshw m); [|exact Hs].
    now apply typed_lshw_lines. }
  unfold lsblk_probe. destruct (has_fact _ _); [exact H2|].
  destruct (lsblk m base); [|exact H2]. now apply typed_lsblk_facts.
Qed.

(** X17: a "Drive Type" of the fact table is "NVMe SSD" (from the NVMe
    lister), "SSD", "HDD" or "HDD (" with the rotation rate and ")";
    a "Drive Interface" is "NVMe": the commands give the other facts as
    free text, these two are chosen by the script. *)
Theorem drive_type_values :
  forall (format_float0 : string -> option string)
         (set_elements : list string -> list string) (m : machine)
         (v : string),
    let final := get_system_info format_float0 set_elements m in
    (get_fact "Drive Type" final = Some v -> drive_type_value v)
    /\ (get_fact "Drive Interface" final = Some v -> v = "NVMe").
Proof.
  intros ff se m v final. unfold final.
  rewrite !final_probe_fact by (simpl; tauto).
  assert (Hs : typed (before_drive ff se m)).
  { split; intros w; rewrite start_without_probe by (simpl; tauto);
      discriminate. }
  assert (Hd : typed (drive_stage m (before_drive ff se m))).
  { unfold drive_stage.
    destruct (mount_lookup m) as [[device fstype]|]; [|typed_step].
    destruct (contains "/dev/" device); [|typed_step].
    apply typed_drive_probes. typed_step. }
  destruct Hd as [Ht Hi]. split; [apply Ht|apply Hi].
Qed.

(** ** Texts of one line *)

Lemma not_space_dot (c : ascii) : not_space c = true -> dot c = true.
Proof. destruct c as [[] [] [] [] [] [] [] []]; vm_compute; congruence. Qed.

Lemma one_line_cons (c : ascii) (s : string) :
  one_line (String c s) <-> dot c = true /\ one_line s.
Proof. unfold one_line. cbn [all_in]. apply andb_true_iff. Qed.

Lemma one_line_app (a b : string) :
  one_line (a ++ b) <-> one_line a /\ one_line b.
Proof. unfold one_line. rewrite all_in_append. apply andb_true_iff. Qed.

Lemma take_dot (n : nat) (s : string) : one_line s -> one_line (take n s).
Proof.
  revert s. induction n as [|n IH]; intros [|c s] H; try reflexivity.
  apply one_line_cons in H. cbn [take]. apply one_line_cons.
  split; [apply H|apply IH, H].
Qed.

Lemma lstrip_dot (s : string) : one_line s -> one_line (lstrip s).
Proof.
  induction s as [|c s IH]; intros H; [exact H|].
  cbn [lstrip]. destruct (is_space c); [|exact H].
  apply IH. now apply one_line_cons in H.
Qed.

Lemma rstrip_dot (s : string) : one_line s -> one_line (rstrip s).
Proof.
  induction s as [|c s IH]; intros H; [exact H|].
  apply one_line_cons in H. cbn [rstrip].
  destruct (is_empty (rstrip s) && is_space c); [reflexivity|].
  apply one_line_cons. split; [apply H|apply IH, H].
Qed.

Lemma strip_dot (s : string) : one_line s -> one_line (strip s).
Proof. intros H. unfold strip. now apply rstrip_dot, lstrip_dot. Qed.

Lemma split_dot (sep : ascii) (s : string) :
  one_line s -> Forall one_line (split sep s).
Proof.
  induction s as [|c s IH]; intros H; [now repeat constructor|].
  apply one_line_cons in H. destruct H as [Hc Hs]. specialize (IH Hs).
  cbn [split]. destruct (Ascii.eqb c sep).
  - constructor; [reflexivity|exact IH].
  - destruct (split sep s) as [|h t].
    + repeat constructor. now apply one_line_cons.
    + inversion IH; subst. constructor; [|assumption].
      now apply one_line_cons.
Qed.

Lemma split1_dot (sep : ascii) (s : string) :
  one_line s -> Forall one_line (split1 sep s).
Proof.
  induction s as [|c s IH]; intros H; [now repeat constructor|].
  apply one_line_cons in H. destruct H as [Hc Hs]. specialize (IH Hs).
  cbn [split1]. destruct (Ascii.eqb c sep).
  - repeat constructor. exact Hs.
  - destruct (split1 sep s) as [|h t].
    + repeat constructor. now apply one_line_cons.
    + inversion IH; subst. constructor; [|assumption].
      now apply one_line_cons.
Qed.

(** The lines of a text are one line each. *)
Lemma lines_dot (text : string) : Forall one_line (lines text).
Proof.
  unfold lines. induction text as [|c s IH]; [now repeat constructor|].
  cbn [split]. destruct (Ascii.eqb c newline) eqn:E.
  - constructor; [reflexivity|exact IH].
  - assert (Hc : dot c = true) by (unfold dot; now rewrite E).
    destruct (split newline s) as [|h t].
    + repeat constructor. now apply one_line_cons.
    + inversion IH; subst. constructor; [|assumption].
      now apply one_line_cons.
Qed.

Lemma Forall_nth_error {A} (P : A -> Prop) (l : list A) (n : nat) (x : A) :
  Forall P l -> nth_error l n = Some x -> P x.
Proof.
  intros H E. apply nth_error_In in E.
  rewrite Forall_forall in H. now apply H.
Qed.

Lemma Forall_last_item {A} (P : A -> Prop) (l : list A) (x : A) :
  Forall P l -> last_item l = Some x -> P x.
Proof.
  intros H E. unfold last_item in E. apply nth_error_In in E.
  rewrite Forall_forall in H. apply H. now apply in_rev.
Qed.

Lemma Forall_last_but_one {A} (P : A -> Prop) (l : list A) (x : A) :
  Forall P l -> last_but_one l = Some x -> P x.
Proof.
  intros H E. unfold last_but_one in E. apply nth_error_In in E.
  rewrite Forall_forall in H. apply H. now apply in_rev.
Qed.

Lemma Forall_slice {A} (P : A -> Prop) (l : list A) :
  Forall P l -> Forall P (slice_1_m2 l).
Proof.
  intros H. unfold slice_1_m2.
  assert (Hs : Forall P (skipn 1 l)) by (destruct l; [exact H|now inversion H]).
  revert Hs. generalize (skipn 1 l) (List.length l - 3). clear.
  intros l n H. revert n. induction H as [|x l Hx H IH]; intros [|n];
    simpl; constructor; auto.
Qed.

Lemma after_colon_dot (line v : string) :
  one_line line ->
  (after_colon line = Some v -> one_line v)
  /\ (after_colon1 line = Some v -> one_line v).
Proof.
  intros H. unfold after_colon, after_colon1, item1. split; intros E.
  - destruct (nth_error (split ":" line) 1) as [x|] eqn:Ex; [|discriminate].
    injection E as <-. apply strip_dot.
    exact (Forall_nth_error _ _ _ _ (split_dot ":" line H) Ex).
  - destruct (nth_error (split1 ":" line) 1) as [x|] eqn:Ex; [|discriminate].
    injection E as <-. apply strip_dot.
    exact (Forall_nth_error _ _ _ _ (split1_dot ":" line H) Ex).
Qed.

Lemma join_dot (sep : string) (l : list string) :
  one_line sep -> Forall one_line l -> one_line (join sep l).
Proof.
  intros Hs H. unfold join. induction H as [|x l Hx H IH]; [reflexivity|].
  destruct l as [|y l]; [exact Hx|].
  change (one_line (x ++ sep ++ String.concat sep (y :: l))).
  apply one_line_app. split; [exact Hx|].
  apply one_line_app. split; [exact Hs|exact IH].
Qed.

Lemma string_of_uint_dot (d : Decimal.uint) :
  one_line (NilEmpty.string_of_uint d).
Proof. induction d; simpl; try reflexivity; now apply one_line_cons. Qed.

Lemma of_nat_dot (n : nat) : one_line (of_nat n).
Proof.
  unfold of_nat, NilZero.string_of_uint.
  destruct (Nat.to_uint n); try reflexivity; apply string_of_uint_dot.
Qed.

Lemma fields_dot (s : string) :
  all_in not_space (fst (fields s)) = true
  /\ Forall (fun t => all_in not_space t = true) (snd (fields s)).
Proof.
  induction s as [|c s [IH1 IH2]]; [now repeat constructor|].
  cbn [fields]. destruct (fields s) as [tok rest]. cbn [fst snd] in *.
  destruct (is_space c) eqn:E; cbn [fst snd].
  - split; [reflexivity|]. destruct (is_empty tok); [exact IH2|].
    now constructor.
  - split; [|exact IH2]. cbn [all_in]. unfold not_space at 1.
    now rewrite E, IH1.
Qed.

(** A field of [s.split()] is one line. *)
Lemma split_ws_dot (s : string) : Forall one_line (split_ws s).
Proof.
  unfold split_ws. destruct (fields_dot s) as [H1 H2].
  destruct (fields s) as [tok rest]. cbn [fst snd] in *.
  assert (W : forall t, all_in not_space t = true -> one_line t)
    by (intros t; apply all_in_weaken; exact not_space_dot).
  assert (H2' : Forall one_line rest)
    by (eapply Forall_impl; [exact W|exact H2]).
  destruct (is_empty tok); [exact H2'|]. constructor; [now apply W|exact H2'].
Qed.

Lemma scan_dot (r : regex) (s : string) :
  one_line s -> forall b n, Forall piece_ok (scan r b n s).
Proof.
  induction s as [|c s IH]; intros H b n; [constructor|].
  pose proof H as Hcs. apply one_line_cons in H. destruct H as [Hc Hs].
  cbn [scan]. destruct n as [|n]; [|now apply IH].
  destruct (match_here r b (String c s)) as [[rest caps]|].
  - destruct (String.length (String c s) - String.length rest) as [|k].
    + constructor; [exact Hc|now apply IH].
    + constructor; [now apply take_dot|now apply IH].
  - constructor; [exact Hc|now apply IH].
Qed.

Lemma subst_pieces_dot (repl : string) (l : list piece) :
  one_line repl -> Forall piece_ok l -> one_line (subst_pieces repl l).
Proof.
  intros Hr H. induction H as [|[c|m0] l Hp H IH]; [reflexivity| |].
  - cbn [subst_pieces]. apply one_line_cons. now split.
  - cbn [subst_pieces]. apply one_line_app. now split.
Qed.

Lemma hits_dot (l : list piece) : Forall piece_ok l -> Forall one_line (hits l).
Proof.
  intros H. induction H as [|[c|m0] l Hp H IH]; cbn [hits];
    [constructor|exact IH|now constructor].
Qed.

Lemma split_pieces_dot (l : list piece) :
  Forall piece_ok l -> Forall one_line (split_pieces l).
Proof.
  intros H. induction H as [|[c|m0] l Hp H IH]; cbn [split_pieces].
  - now repeat constructor.
  - destruct (split_pieces l) as [|h t].
    + repeat constructor. now apply one_line_cons.
    + inversion IH; subst. constructor; [|assumption].
      now apply one_line_cons.
  - constructor; [reflexivity|exact IH].
Qed.

Lemma re_sub_dot (r : regex) (repl s : string) :
  one_line repl -> one_line s -> one_line (re_sub r repl s).
Proof. intros Hr Hs. now apply subst_pieces_dot, scan_dot. Qed.

Lemma re_findall_dot (r : regex) (s : string) :
  one_line s -> Forall one_line (re_findall r s).
Proof. intros Hs. now apply hits_dot, scan_dot. Qed.

Lemma re_split_dot (r : regex) (s : string) :
  one_line s -> Forall one_line (re_split r s).
Proof. intros Hs. now apply split_pieces_dot, scan_dot. Qed.

(** ** One line for each fact *)

Lemma lined_set (k v : string) (info : fact_table) :
  one_line v -> lined info -> lined (set_fact k v info).
Proof.
  intros Hv Hi k' w. destruct (String.eqb_spec k k') as [->|Hne].
  - rewrite get_set_same. intros E. now injection E as <-.
  - rewrite get_set_other by exact Hne. apply Hi.
Qed.

Lemma try_each_invariant_on {S X} (Q : X -> Prop) (P : S -> Prop)
      (body : X -> S -> option S) (l : list X) :
  Forall Q l ->
  (forall x st st', Q x -> body x st = Some st' -> P st -> P st') ->
  forall st, P st -> P (fst (try_each body l st)).
Proof.
  intros Hl Hb. induction Hl as [|x rest Hx Hl IH]; intros st Hst; simpl;
    [exact Hst|].
  destruct (body x st) as [st'|] eqn:E; [|exact Hst].
  apply IH. exact (Hb x st st' Hx E Hst).
Qed.

Ltac one_line_value :=
  repeat first
    [ assumption
    | reflexivity
    | apply strip_dot
    | apply of_nat_dot
    | apply one_line_cons; split; [reflexivity|]
    | apply one_line_app; split ].

(** Take the value of a line out of a branch that returned. *)
Ltac line_value Hl :=
  repeat match goal with
    | H : (if ?c then _ else _) = Some _ |- _ => destruct c
    | H : bind (after_colon ?l) _ = Some _ |- _ =>
        let E := fresh "E" in
        destruct (after_colon l) eqn:E; cbn [bind] in H; [|discriminate H];
        apply (proj1 (after_colon_dot l _ Hl)) in E
    | H : bind (after_colon1 ?l) _ = Some _ |- _ =>
        let E := fresh "E" in
        destruct (after_colon1 l) eqn:E; cbn [bind] in H; [|discriminate H];
        apply (proj2 (after_colon_dot l _ Hl)) in E
    end.

Ltac lined_step :=
  repeat match goal with
    | |- lined (set_fact _ _ _) => apply lined_set; [one_line_value|]
    end;
  try assumption.

Section OneLine.
Variable format_float0 : string -> option string.
Variable set_elements : list string -> list string.
Variable m : machine.
Hypothesis float_one_line : forall s v, format_float0 s = Some v -> one_line v.
Hypothesis set_of_list : forall l, incl (set_elements l) l.
Hypothesis plain : plain_machine m.

Lemma lscpu_line_lined (line : string) (st st' : fact_table) :
  one_line line ->
  lscpu_line format_float0 line st = Some st' -> lined st -> lined st'.
Proof.
  intros Hl H Hst. unfold lscpu_line in H. line_value Hl;
    try (destruct (format_float0 s) as [mhz|] eqn:F; cbn [bind] in H;
         [apply float_one_line in F|discriminate H]);
    injection H as <-; lined_step.
Qed.

Lemma cpu_stage_lined (info : fact_table) :
  lined info -> lined (cpu_stage format_float0 m info).
Proof.
  intros Hi. destruct plain as (Hp & _).
  assert (Hf : one_line (cpu_fallback m)).
  { unfold cpu_fallback. destruct (is_empty _); [reflexivity|exact Hp]. }
  unfold cpu_stage, cpu_except.
  destruct (lscpu m) as [text|]; [|lined_step].
  pose proof (try_each_invariant_on one_line lined (lscpu_line format_float0)
                (lines text) (lines_dot text) lscpu_line_lined info Hi) as H.
  destruct (try_each _ _ _) as [info' []]; cbn [fst] in H; lined_step.
Qed.

Lemma dmidecode_line_ok (line : string) (d d' : dimms) :
  one_line line -> dmidecode_line line d = Some d' -> dimms_ok d -> dimms_ok d'.
Proof.
  intros Hl H (H1 & H2 & H3). unfold dmidecode_line in H. line_value Hl;
    injection H as <-; unfold dimms_ok; cbn [speeds types sizes];
    repeat split; try assumption;
    (apply Forall_app; split; [assumption|now repeat constructor]).
Qed.

Lemma set_elements_dot (l : list string) :
  Forall one_line l -> Forall one_line (set_elements l).
Proof.
  rewrite !Forall_forall. intros H x Hx. apply H. now apply set_of_list.
Qed.

Lemma memory_facts_lined (d : dimms) (info : fact_table) :
  dimms_ok d -> lined info -> lined (memory_facts set_elements d info).
Proof.
  intros (H1 & H2 & H3) Hi. unfold memory_facts.
  destruct (types d) as [|t0 ts] eqn:Et; [exact Hi|].
  destruct (speeds d) as [|s0 ss] eqn:Es; [exact Hi|].
  assert (Ht : one_line (if one_value (t0 :: ts) then t0
                         else join ", " (set_elements (t0 :: ts)))).
  { destruct (one_value (t0 :: ts)); [now inversion H2|].
    apply join_dot; [reflexivity|now apply set_elements_dot]. }
  assert (Hs : one_line (if one_value (s0 :: ss) then s0
                         else join ", " (set_elements (s0 :: ss)))).
  { destruct (one_value (s0 :: ss)); [now inversion H1|].
    apply join_dot; [reflexivity|now apply set_elements_dot]. }
  destruct (sizes d) as [|z0 zs] eqn:Ez; cbv zeta.
  - now apply lined_set, lined_set.
  - apply lined_set; [|now apply lined_set, lined_set].
    destruct (one_value (z0 :: zs)).
    + apply one_line_app. split; [apply of_nat_dot|].
      apply one_line_app. split; [reflexivity|now inversion H3].
    + apply join_dot; [reflexivity|exact H3].
Qed.

Lemma memory_stage_lined (info : fact_table) :
  lined info -> lined (memory_stage set_elements m info).
Proof.
  intros Hi. unfold memory_stage.
  destruct (in_docker m); [exact Hi|].
  destruct (dmidecode m) as [text|]; [|exact Hi].
  pose proof (try_each_invariant_on one_line dimms_ok dmidecode_line
                (lines text) (lines_dot text) dmidecode_line_ok
                (mkDimms [] [] [])) as H.
  destruct (try_each _ _ _) as [d []]; [exact Hi|].
  apply memory_facts_lined; [|exact Hi].
  apply H. now repeat split.
Qed.

Lemma nvme_lines_lined (base : string) (l : list string) (info : fact_table) :
  Forall one_line l -> lined info -> lined (nvme_lines base l info).
Proof.
  intros Hl. revert info.
  induction Hl as [|line rest Hline Hl IH]; intros info Hi; cbn [nvme_lines];
    [exact Hi|].
  destruct (contains _ line); [|now apply IH].
  assert (Hsub : one_line (re_sub three_columns "x  x  x  " line))
    by now apply re_sub_dot.
  destruct (4 <=? _); [|now apply IH].
  destruct (nth_error _ 3) as [model|] eqn:Em; [|exact Hi].
  apply (Forall_nth_error one_line) in Em;
    [|now apply re_split_dot, strip_dot].
  destruct (last_item _) as [cap|] eqn:Ec.
  - apply (Forall_last_item one_line) in Ec; [|now apply re_findall_dot].
    lined_step.
  - lined_step.
Qed.

Lemma smart_line_lined (line : string) (st st' : fact_table) :
  one_line line -> smart_line line st = Some st' -> lined st -> lined st'.
Proof.
  intros Hl H Hst. unfold smart_line in H. line_value Hl;
    injection H as <-; lined_step.
Qed.

Lemma lshw_line_lined (line : string) (st st' : fact_table) :
  one_line line -> lshw_line line st = Some st' -> lined st -> lined st'.
Proof.
  intros Hl H Hst. unfold lshw_line in H. line_value Hl;
    injection H as <-; lined_step.
Qed.

Lemma lshw_lines_lined (base : string) (l : list string) (finish_up : bool)
      (info : fact_table) :
  Forall one_line l -> lined info -> lined (lshw_lines base l finish_up info).
Proof.
  intros Hl. revert finish_up info.
  induction Hl as [|line rest Hline Hl IH]; intros finish_up info Hi;
    cbn [lshw_lines]; [exact Hi|].
  destruct (lshw_line line info) as [info'|] eqn:E; [|exact Hi].
  pose proof (lshw_line_lined line info info' Hline E Hi) as H.
  repeat match goal with
    | |- context [if ?c then _ else _] => destruct c
    end; try exact H; now apply IH.
Qed.

Lemma lsblk_facts_lined (parts : list string) (info : fact_table) :
  Forall one_line parts -> lined info -> lined (lsblk_facts parts info).
Proof.
  intros Hp Hi. unfold lsblk_facts.
  destruct (item1 parts) as [p1|] eqn:E1; [|exact Hi].
  apply (Forall_nth_error one_line) in E1; [|exact Hp].
  destruct (_ && _); [|exact Hi].
  assert (Hm : one_line (join " " (slice_1_m2 parts)))
    by (apply join_dot; [reflexivity|now apply Forall_slice]).
  cbv zeta.
  destruct (last_item parts) as [size|] eqn:El;
    [apply (Forall_last_item one_line) in El; [|exact Hp]|];
    destruct (last_but_one parts) as [rota|];
    split_cases; lined_step.
Qed.

Lemma drive_probes_lined (base : string) (info : fact_table) :
  lined info -> lined (drive_probes m base info).
Proof.
  intros Hi. unfold drive_probes.
  assert (H1 : lined (nvme_probe m base info)).
  { unfold nvme_probe. destruct (contains "nvme" base); [|exact Hi].
    destruct (nvme_list m) as [text|]; [|exact Hi].
    apply nvme_lines_lined; [apply lines_dot|exact Hi]. }
  assert (Hs : lined (smart_probe m base (nvme_probe m base info))).
  { unfold smart_probe. destruct (smartctl m base) as [text|]; [|exact H1].
    apply (try_each_invariant_on one_line lined smart_line (lines text)
             (lines_dot text) smart_line_lined). exact H1. }
  assert (H2 : lined (host_fallbacks m base (nvme_probe m base info))).
  { unfold host_fallbacks. destruct (_ && _); [|exact H1].
    unfold lshw_probe. destruct (lshw m) as [text|]; [|exact Hs].
    apply lshw_lines_lined; [apply lines_dot|exact Hs]. }
  unfold lsblk_probe. destruct (has_fact _ _); [exact H2|].
  destruct (lsblk m base) as [text|]; [|exact H2].
  apply lsblk_facts_lined; [apply split_ws_dot|exact H2].
Qed.

Lemma mount_lookup_dot (device fstype : string) :
  mount_lookup m = Some (device, fstype) -> one_line fstype.
Proof.
  unfold mount_lookup. intros H.
  repeat match type of H with
    | bind ?o _ = Some _ =>
        let E := fresh "E" in
        destruct o eqn:E; cbn [bind] in H; [|discriminate H]
    end.
  injection H as _ <-.
  match goal with
  | E : item1 (split_ws _) = Some _ |- _ =>
      exact (Forall_nth_error one_line _ _ _ (split_ws_dot _) E)
  end.
Qed.

Lemma drive_stage_lined (info : fact_table) :
  lined info -> lined (drive_stage m info).
Proof.
  intros Hi. unfold drive_stage.
  destruct (mount_lookup m) as [[device fstype]|] eqn:E; [|lined_step].
  apply mount_lookup_dot in E.
  destruct (contains "/dev/" device); [apply drive_probes_lined|]; lined_step.
Qed.

Lemma docker_stage_lined (info : fact_table) :
  lined info -> lined (docker_stage m info).
Proof.
  intros Hi. destruct plain as (_ & _ & _ & _ & _ & Hd & Hh).
  unfold docker_stage.
  destruct (docker_version m) as [v|].
  - specialize (Hd v eq_refl). destruct (in_docker m); [|now lined_step].
    destruct (hostname m) as [h|]; [specialize (Hh h eq_refl)|];
      now lined_step.
  - destruct (in_docker m); lined_step.
Qed.

Lemma get_system_info_lined :
  lined (get_system_info format_float0 set_elements m).
Proof.
  destruct plain as (_ & H1 & H2 & H3 & H4 & _).
  unfold get_system_info, before_drive.
  apply docker_stage_lined, drive_stage_lined, lined_set; [exact H4|].
  apply memory_stage_lined.
  repeat (apply lined_set; [assumption|]).
  apply cpu_stage_lined. intros k v. discriminate.
Qed.
End OneLine.

(** ** The comment block *)

Lemma lines_line (a b : string) :
  one_line a -> lines (a ++ nl ++ b) = a :: lines b.
Proof.
  unfold lines. induction a as [|c a IH]; intros H.
  - reflexivity.
  - apply one_line_cons in H. destruct H as [Hc Ha].
    cbn [append split]. rewrite (IH Ha).
    unfold dot in Hc. now destruct (Ascii.eqb c newline).
Qed.

Lemma lines_head (s : string) :
  exists t, lines s = first_line s :: t.
Proof.
  unfold lines, first_line. induction s as [|c s [t IH]].
  - now exists [].
  - cbn [split span]. unfold dot at 1.
    destruct (Ascii.eqb c newline); cbn [negb].
    + now exists (split newline s).
    + rewrite IH. destruct (span dot s). now exists t.
Qed.

(** A first line is one line. *)
Lemma lines_head_dot (s a : string) (t : list string) :
  lines s = a :: t -> one_line a.
Proof.
  intros E. destruct (lines_head s) as [t' E']. rewrite E' in E.
  injection E as <- _. apply span_all_in.
Qed.

Lemma write_facts_lines (info : fact_table) :
  (forall kv, In kv info -> one_line (fst kv) /\ one_line (snd kv))
  <-> lines (write_facts info ++ "#" ++ nl)
      = map fact_line info ++ ["#"; ""].
Proof.
  induction info as [|[k v] rest IH].
  - split; [reflexivity|intros _ kv []].
  - assert (E : (write_facts ((k, v) :: rest) ++ "#" ++ nl)%string
                = (fact_line (k, v) ++ nl
                   ++ (write_facts rest ++ "#" ++ nl))%string).
    { unfold fact_line. cbn [write_facts fst snd].
      now rewrite !append_assoc. }
    rewrite E. cbn [map app]. split.
    + intros H.
      destruct (H (k, v) (or_introl eq_refl)) as [Hk Hv]. cbn [fst snd] in *.
      rewrite lines_line.
      * f_equal. apply IH. intros kv Hkv. apply H. now right.
      * unfold fact_line. cbn [fst snd]. now one_line_value.
    + intros H. pose proof (lines_head_dot _ _ _ H) as Hl.
      rewrite (lines_line _ _ Hl) in H. injection H as H.
      unfold fact_line in Hl. cbn [fst snd] in Hl.
      apply one_line_app in Hl. destruct Hl as [_ Hl].
      apply one_line_app in Hl. destruct Hl as [Hk Hl].
      apply one_line_app in Hl. destruct Hl as [_ Hv].
      intros kv [<-|Hkv]; [now split|].
      now apply (proj2 IH H).
Qed.

Lemma metadata_lines (info : fact_table) :
  (forall kv, In kv info -> one_line (fst kv) /\ one_line (snd kv))
  -> lines (csv_metadata info)
     = "# System Information" :: map fact_line info ++ ["#"; ""].
Proof.
  intros H. unfold csv_metadata.
  rewrite (lines_line "# System Information" _ eq_refl).
  f_equal. now apply write_facts_lines.
Qed.

(** X18: the comment block at the head of the CSV file is the line "#
    System Information", one line "# key: value" for each fact in the
    order of the table, and a line "#", exactly when no key and no
    value of the table contains a newline. *)
Theorem csv_metadata_lines :
  forall (sys_info : fact_table),
    (forall kv, In kv sys_info -> one_line (fst kv) /\ one_line (snd kv))
    <-> lines (csv_metadata sys_info)
        = "# System Information" :: map fact_line sys_info ++ ["#"; ""].
Proof.
  intros info. split; [apply metadata_lines|].
  unfold csv_metadata.
  rewrite (lines_line "# System Information" _ eq_refl).
  intros H. injection H as H. now apply write_facts_lines.
Qed.

Lemma get_fact_In (info : fact_table) (k v : string) :
  NoDup (keys info) -> In (k, v) info -> get_fact k info = Some v.
Proof.
  induction info as [|[k' v'] t IH]; intros Hn H; [destruct H|].
  cbn [keys map fst] in Hn. inversion Hn as [|x l Hx Hn']; subst.
  cbn [get_fact]. destruct H as [E|H].
  - injection E as -> ->. now rewrite String.eqb_refl.
  - destruct (String.eqb_spec k' k) as [->|Hne]; [|now apply IH].
    exfalso. apply Hx. change (In (fst (k, v)) (map fst t)). now apply in_map.
Qed.

(** X19: on a machine whose values from [platform] and [psutil] are one
    line each and where [docker --version] and [hostname] print one
    line, every value of the fact table is one line, whatever the
    probes print: a fact parsed from a command is cut out of one line
    of its output.  So the comment block of the CSV file has one line
    for each fact. *)
Theorem facts_are_one_line :
  forall (format_float0 : string -> option string)
         (set_elements : list string -> list string) (m : machine),
    (forall s v, format_float0 s = Some v -> one_line v) ->
    (forall l, incl (set_elements l) l) ->
    plain_machine m ->
    let final := get_system_info format_float0 set_elements m in
    lined final
    /\ lines (csv_metadata final)
       = "# System Information" :: map fact_line final ++ ["#"; ""].
Proof.
  intros ff se m Hff Hse Hm final.
  assert (Hl : lined final) by now apply get_system_info_lined.
  split; [exact Hl|].
  apply metadata_lines. intros [k v] Hkv. cbn [fst snd].
  pose proof (get_system_info_reaches ff se m) as Hr. fold final in Hr.
  split.
  - destruct (reaches_keys _ _ _ Hr) as (added & E & Hi & _).
    cbn [keys map app] in E.
    assert (Hk : In k all_keys).
    { apply Hi. rewrite <- E. change (In (fst (k, v)) (map fst final)).
      now apply in_map. }
    assert (Ha : Forall one_line all_keys) by now repeat constructor.
    rewrite Forall_forall in Ha. now apply Ha.
  - apply (Hl k). apply get_fact_In; [|exact Hkv].
    apply (reaches_NoDup _ _ _ Hr). constructor.
Qed.

Lemma facts_are_one_line_witness :
  lined container_info
  /\ lines (csv_metadata container_info)
     = "# System Information" :: map fact_line container_info ++ ["#"; ""].
Proof.
  apply (facts_are_one_line sample_float0 sample_set container).
  - intros s v. unfold sample_float0.
    destruct (negb (is_empty s) && all_in is_digit s) eqn:E; [|discriminate].
    intros H. injection H as <-. apply andb_true_iff in E.
    apply (all_in_weaken is_digit dot s digit_dot), E.
  - intros l x. apply nodup_In.
  - repeat split; try reflexivity; intros v H; try discriminate H.
    injection H as <-. reflexivity.
Defined.

(** ** The model column of [nvme list] *)

Lemma many_run {A} (p : ascii -> bool) (k : string -> option A)
      (run s : string) (x : A) :
  all_in p run = true -> is_empty run = false -> stops p s = true ->
  k s = Some x -> many p k (run ++ s) = Some x.
Proof.
  intros Hr Hn Hs Hk. apply many_longest; rewrite (span_run p run s Hr Hs);
    assumption.
Qed.

Lemma word_parts (t : string) :
  word t = true ->
  all_in not_space t = true /\ is_empty t = false
  /\ forall x, stops is_space (t ++ x) = true.
Proof.
  unfold word. intros H. apply andb_true_iff in H. destruct H as [Hn Ha].
  destruct t as [|c t]; [discriminate|]. repeat split; try assumption.
  intros x. cbn [append stops]. cbn [all_in] in Ha.
  apply andb_true_iff in Ha. destruct Ha as [Hc _].
  unfold not_space in Hc. now rewrite Hc.
Qed.

Lemma blanks_parts (g : string) :
  blanks g = true ->
  all_in is_space g = true /\ is_empty g = false
  /\ forall x, stops not_space (g ++ x) = true.
Proof.
  unfold blanks. intros H. apply andb_true_iff in H. destruct H as [Hn Ha].
  destruct g as [|c g]; [discriminate|]. repeat split; try assumption.
  intros x. cbn [append stops]. cbn [all_in] in Ha.
  apply andb_true_iff in Ha. destruct Ha as [Hc _].
  unfold not_space. now rewrite Hc.
Qed.

(** At the start of a line, the pattern of the three columns takes the
    three columns and the blanks after each. *)
Lemma three_columns_here (t1 g1 t2 g2 t3 g3 s : string) :
  word t1 = true -> blanks g1 = true -> word t2 = true ->
  blanks g2 = true -> word t3 = true -> blanks g3 = true ->
  stops is_space s = true ->
  match_here three_columns true (t1 ++ g1 ++ t2 ++ g2 ++ t3 ++ g3 ++ s)
  = Some (s, []).
Proof.
  intros W1 B1 W2 B2 W3 B3 Hs.
  destruct (word_parts t1 W1) as (A1 & N1 & _).
  destruct (word_parts t2 W2) as (A2 & N2 & S2).
  destruct (word_parts t3 W3) as (A3 & N3 & S3).
  destruct (blanks_parts g1 B1) as (C1 & M1 & R1).
  destruct (blanks_parts g2 B2) as (C2 & M2 & R2).
  destruct (blanks_parts g3 B3) as (C3 & M3 & R3).
  unfold match_here, three_columns. cbn [exec].
  apply many_run; [exact A1|exact N1|apply R1|].
  apply many_run; [exact C1|exact M1|apply S2|].
  apply many_run; [exact A2|exact N2|apply R2|].
  apply many_run; [exact C2|exact M2|apply S3|].
  apply many_run; [exact A3|exact N3|apply R3|].
  apply many_run; [exact C3|exact M3|exact Hs|reflexivity].
Qed.

Lemma scan_skip_app (r : regex) (a s : string) :
  scan r false (String.length a) (a ++ s) = scan r false 0 s.
Proof.
  induction a as [|c a IH]; [reflexivity|].
  cbn [String.length append scan]. exact IH.
Qed.

(** A match at the head of the text is the first part of the scan. *)
Lemma scan_hit (r : regex) (b : bool) (P s : string) (caps : list string) :
  is_empty P = false ->
  match_here r b (P ++ s) = Some (s, caps) ->
  scan r b 0 (P ++ s) = Hit P :: scan r false 0 s.
Proof.
  intros Hn H. destruct P as [|c P]; [discriminate|].
  pose proof (take_append (String c P) s) as Ht.
  cbn [append] in *. cbn [scan]. rewrite H.
  assert (El : String.length (String c (P ++ s)) - String.length s
               = S (String.length P)).
  { cbn [String.length]. rewrite length_append. lia. }
  rewrite El in *. rewrite Ht. f_equal. apply scan_skip_app.
Qed.

Lemma scan_after_start (s : string) :
  subst_pieces "x  x  x  " (scan three_columns false 0 s) = s.
Proof.
  induction s as [|c s IH]; [reflexivity|].
  cbn [scan]. change (match_here three_columns false (String c s)) with
    (@None (string * list string)).
  cbn [subst_pieces]. now rewrite IH.
Qed.

Lemma re_sub_three_columns (t1 g1 t2 g2 t3 g3 s : string) :
  word t1 = true -> blanks g1 = true -> word t2 = true ->
  blanks g2 = true -> word t3 = true -> blanks g3 = true ->
  stops is_space s = true ->
  re_sub three_columns "x  x  x  " (t1 ++ g1 ++ t2 ++ g2 ++ t3 ++ g3 ++ s)
  = ("x  x  x  " ++ s)%string.
Proof.
  intros W1 B1 W2 B2 W3 B3 Hs.
  pose proof (three_columns_here t1 g1 t2 g2 t3 g3 s W1 B1 W2 B2 W3 B3 Hs)
    as H.
  assert (E : (t1 ++ g1 ++ t2 ++ g2 ++ t3 ++ g3 ++ s)%string
              = ((t1 ++ g1 ++ t2 ++ g2 ++ t3 ++ g3) ++ s)%string)
    by now rewrite !append_assoc.
  rewrite E in *. unfold re_sub.
  assert (Hn : is_empty (t1 ++ g1 ++ t2 ++ g2 ++ t3 ++ g3) = false).
  { destruct (word_parts t1 W1) as (_ & N1 & _).
    destruct t1; [discriminate|reflexivity]. }
  rewrite (scan_hit three_columns true _ s [] Hn H).
  cbn [subst_pieces]. now rewrite scan_after_start.
Qed.

Lemma rstrip_app (a b : string) :
  is_empty (rstrip b) = false -> rstrip (a ++ b) = (a ++ rstrip b)%string.
Proof.
  intros H. induction a as [|c a IH]; [reflexivity|].
  cbn [append rstrip]. rewrite IH.
  destruct (a ++ rstrip b)%string eqn:E; [|reflexivity].
  destruct a; [|discriminate]. cbn in E. now rewrite E in H.
Qed.

Lemma wide_gap_bos (b : bool) (s : string) :
  match_here wide_gap b s = match_here wide_gap false s.
Proof. destruct s; reflexivity. Qed.

Lemma scan_wide_gap_bos (s : string) :
  forall b n, scan wide_gap b n s = scan wide_gap false n s.
Proof.
  induction s as [|c s IH]; intros b n; [reflexivity|].
  cbn [scan]. now rewrite (wide_gap_bos b).
Qed.

Lemma split_pieces_nonempty (l : list piece) : split_pieces l <> [].
Proof.
  destruct l as [|[c|m0] l]; cbn [split_pieces]; try discriminate.
  destruct (split_pieces l); discriminate.
Qed.

(** A text in which no two blanks follow each other goes whole into
    the part of the split that is read. *)
Lemma split_narrow (tok X : string) :
  narrow tok = true ->
  split_pieces (scan wide_gap false 0 (tok ++ X)) =
    match split_pieces (scan wide_gap false 0 X) with
    | h :: t => (tok ++ h)%string :: t
    | [] => [tok]
    end.
Proof.
  intros H. induction tok as [|c tok IH].
  - cbn [append]. destruct (split_pieces _) eqn:E; [|reflexivity].
    now apply split_pieces_nonempty in E.
  - cbn [narrow] in H. apply andb_true_iff in H. destruct H as [Hc Hn].
    specialize (IH Hn). cbn [append scan].
    assert (E : match_here wide_gap false (String c (tok ++ X)) = None).
    { unfold match_here, wide_gap. cbn [exec].
      destruct (is_space c); [|reflexivity].
      apply andb_true_iff in Hc. destruct Hc as [Hne Hst].
      destruct tok as [|c' tok]; [discriminate|].
      cbn [stops] in Hst. cbn [append many].
      now destruct (is_space c'). }
    rewrite E. cbn [split_pieces]. rewrite IH.
    destruct (split_pieces (scan wide_gap false 0 X)); reflexivity.
Qed.

Lemma split_gap (gap s : string) :
  all_in is_space gap = true -> 2 <= String.length gap ->
  stops is_space s = true ->
  split_pieces (scan wide_gap false 0 (gap ++ s)) =
    EmptyString :: split_pieces (scan wide_gap false 0 s).
Proof.
  intros Ha Hl Hs.
  rewrite (scan_hit wide_gap false gap s []); [reflexivity| |].
  - destruct gap; [simpl in Hl; lia|reflexivity].
  - destruct gap as [|a [|b gap]]; try (simpl in Hl; lia).
    cbn [all_in] in Ha. apply andb_true_iff in Ha. destruct Ha as [Ha Hb].
    unfold match_here, wide_gap. cbn [append exec]. rewrite Ha.
    apply (many_run is_space _ (String b gap) s);
      [exact Hb|reflexivity|exact Hs|reflexivity].
Qed.

Lemma split_column (tok gap s : string) :
  narrow tok = true ->
  all_in is_space gap = true -> 2 <= String.length gap ->
  stops is_space s = true ->
  split_pieces (scan wide_gap false 0 (tok ++ gap ++ s)) =
    tok :: split_pieces (scan wide_gap false 0 s).
Proof.
  intros Hn Ha Hl Hs.
  rewrite (split_narrow tok _ Hn), (split_gap gap s Ha Hl Hs).
  now rewrite append_nil_r.
Qed.

(** The parts of a row of [nvme list] after the substitution: three
    times "x", and the fourth column. *)
Lemma nvme_row_parts (line model : string) :
  fourth_column line model ->
  exists more,
    re_split wide_gap (strip (re_sub three_columns "x  x  x  " line))
    = "x" :: "x" :: "x" :: model :: more.
Proof.
  intros (t1 & g1 & t2 & g2 & t3 & g3 & gap & c & rest & -> &
          W1 & B1 & W2 & B2 & W3 & B3 & Hne & Hst & Hn & Hg & Hl & Hc).
  assert (Hs : stops is_space (model ++ gap ++ String c rest) = true).
  { destruct model; [discriminate|exact Hst]. }
  rewrite (re_sub_three_columns t1 g1 t2 g2 t3 g3 _ W1 B1 W2 B2 W3 B3 Hs).
  set (tail := String c (rstrip rest)).
  assert (Er : rstrip (String c rest) = tail).
  { cbn [rstrip]. now rewrite Hc, andb_false_r. }
  assert (E : strip ("x  x  x  " ++ model ++ gap ++ String c rest)
              = ("x" ++ "  " ++ "x" ++ "  " ++ "x" ++ "  "
                 ++ model ++ gap ++ tail)%string).
  { unfold strip.
    change (lstrip ("x  x  x  " ++ model ++ gap ++ String c rest))
      with ("x  x  x  " ++ model ++ gap ++ String c rest)%string.
    rewrite <- !append_assoc.
    rewrite rstrip_app by now rewrite Er.
    rewrite Er. now rewrite !append_assoc. }
  rewrite E. unfold re_split. rewrite scan_wide_gap_bos.
  assert (Ht : stops is_space tail = true)
    by (unfold tail; cbn [stops]; now rewrite Hc).
  assert (Hs' : stops is_space (model ++ gap ++ tail) = true).
  { destruct model; [discriminate|exact Hst]. }
  rewrite !split_column;
    try first [assumption | reflexivity | apply le_n].
  now eexists.
Qed.

(** X20: the NVMe lister reads the model from the first line of [nvme
    list] that names the device.  When that line has three columns
    without blanks and then the model, ended by a gap of two or more
    blanks, the drive model is the whole fourth column, single blanks
    inside it included, with the type "NVMe SSD" and the interface
    "NVMe". *)
Theorem nvme_model_column :
  forall (base : string) (before : list string) (line model : string)
         (after : list string) (info : fact_table),
    Forall (fun l => contains (device_name base) l = false) before ->
    contains (device_name base) line = true ->
    fourth_column line model ->
    let info' := nvme_lines base (before ++ line :: after) info in
    get_fact "Drive Model" info' = Some model
    /\ get_fact "Drive Type" info' = Some "NVMe SSD"
    /\ get_fact "Drive Interface" info' = Some "NVMe".
Proof.
  intros base before line model after info Hb Hl Hc info'. unfold info'.
  clear info'. induction Hb as [|l before Hx Hb IH].
  - cbn [app nvme_lines]. rewrite Hl.
    destruct (nvme_row_parts line model Hc) as (more & E). rewrite E.
    cbn [List.length Nat.leb nth_error].
    destruct (last_item _);
      repeat split;
      repeat (rewrite get_set_other by discriminate);
      apply get_set_same.
  - cbn [app nvme_lines]. rewrite Hx. exact IH.
Qed.

Lemma nvme_model_column_witness :
  get_fact "Drive Model"
    (nvme_lines "/dev/nvme0" ["Node  Generic  SN  Model"; nvme_row] [])
  = Some "Samsung SSD 970".
Proof.
  refine (proj1 (nvme_model_column "/dev/nvme0" ["Node  Generic  SN  Model"]
                   nvme_row "Samsung SSD 970" [] []
                   ltac:(repeat constructor) eq_refl _)).
  exists "/dev/nvme0n1", "  ", "/dev/ng0n1", "  ", "S4EWNX0M123", "  ",
    "   ", "0"%char,
    "x1        250.06  GB / 500.11  GB".
  repeat split; simpl; lia.
Defined.
